(** * Rediz: a write-permissioned value store on top of Redis

    A shallow embedding of [rediz/client.py] (class [Rediz]) and the proofs of
    the properties its specification states about it.

    Conventions of the embedding
    - Python strings are [string] (8-bit characters), Python ints are [Z].
    - A function that can raise returns [res A]: [Ok a] or [Raise e].
    - The Redis server is a finite map from keys to typed entries with an
      optional expiry; the clock is passed to every operation as [now]
      (whole seconds, as [int(time.time())] reads it).
    - What the interpreter and the libraries supply, and the client cannot
      see inside ([sys.getsizeof], the random key generator, the iteration
      order of a Python [set]), is an instance of the class [PyEnv]; what
      the server draws when it is asked for random members of a set is an
      instance of the class [Sampler]. *)

From Stdlib Require Import ZArith String Ascii List Bool Lia QArith Qround Qpower Lqa Psatz.
From stdpp Require Import base option list gmap strings pretty.

Set Warnings "-register-all".

Open Scope string_scope.
Open Scope list_scope.
Open Scope Z_scope.

(* ================================================================== *)
(** * Exceptions *)

Inductive exn : Type :=
| TypeError
| NameError
| IndexError
| ValueError
| KeyError
| ZeroDivisionError
| ReservedNamespace        (* the bare [Exception] of assert_not_in_reserved_namespace *)
| ResponseError            (* an error reply of the Redis server *)
| DataError.               (* redis-py refuses to encode the argument *)

Inductive res (A : Type) : Type :=
| Ok (a : A)
| Raise (e : exn).
Arguments Ok {A} a.
Arguments Raise {A} e.

Definition res_bind {A B : Type} (f : A -> res B) (x : res A) : res B :=
  match x with
  | Ok a => f a
  | Raise e => Raise e
  end.

#[global] Instance res_ret : MRet res := fun A a => Ok a.
#[global] Instance res_mbind : MBind res := fun A B f x => res_bind f x.

Definition raises {A : Type} (x : res A) : Prop :=
  match x with
  | Ok _ => False
  | Raise _ => True
  end.

(* ================================================================== *)
(** * Python string operations *)

(** [sub in s] *)
Fixpoint contains (sub s : string) : bool :=
  String.prefix sub s ||
  match s with
  | EmptyString => false
  | String _ s' => contains sub s'
  end.

(** [s[-n:]] for a positive n: the last n characters, all of [s] when it is
    shorter. *)
Definition last_chars (n : nat) (s : string) : string :=
  string_of_list_ascii (skipn (String.length s - n)%nat (list_ascii_of_string s)).

(** [s.split(sep)] for a non-empty separator: the separator is searched from
    the left, occurrences do not overlap. [skip] counts the characters of a
    separator that was just recognised and is being stepped over. *)
Fixpoint split_go (sep : string) (skip : nat) (s : string) : list string :=
  match s with
  | EmptyString => [EmptyString]
  | String c s' =>
      match skip with
      | S k => split_go sep k s'
      | O =>
          if String.prefix sep s
          then EmptyString :: split_go sep (String.length sep - 1)%nat s'
          else match split_go sep 0 s' with
               | p :: ps => String c p :: ps
               | [] => [String c EmptyString]
               end
      end
  end.

Definition split (sep s : string) : list string := split_go sep 0 s.

(** [a, b = parts]: unpacking into two targets raises ValueError unless
    there are exactly two parts. *)
Definition unpack2 (parts : list string) : res (string * string) :=
  match parts with
  | [a; b] => Ok (a, b)
  | _ => Raise ValueError
  end.

(** [str(n)] for an int *)
Definition str (z : Z) : string := pretty z.

(* ================================================================== *)
(** * Regular expressions, as far as [name_regex] needs them *)

Inductive class_item : Type :=
| One (c : ascii)
| Range (lo hi : ascii).

Definition item_mem (c : ascii) (it : class_item) : bool :=
  match it with
  | One d => Ascii.eqb c d
  | Range lo hi => (nat_of_ascii lo <=? nat_of_ascii c)%nat && (nat_of_ascii c <=? nat_of_ascii hi)%nat
  end.

Definition is_upper (c : ascii) : bool := (65 <=? nat_of_ascii c)%nat && (nat_of_ascii c <=? 90)%nat.
Definition is_lower (c : ascii) : bool := (97 <=? nat_of_ascii c)%nat && (nat_of_ascii c <=? 122)%nat.

Definition swapcase (c : ascii) : ascii :=
  if is_upper c then ascii_of_nat (nat_of_ascii c + 32)
  else if is_lower c then ascii_of_nat (nat_of_ascii c - 32)
  else c.

(** Membership in a bracketed class under [re.IGNORECASE]: a character
    matches when it or its other-case form is listed. *)
Definition class_mem (items : list class_item) (c : ascii) : bool :=
  existsb (item_mem c) items || existsb (item_mem (swapcase c)) items.

Inductive regex : Type :=
| Rclass (items : list class_item)          (* [...] *)
| Rchar (c : ascii)                         (* an escaped literal such as \. *)
| Rrepeat (lo hi : nat) (r : regex)         (* r{lo,hi} *)
| Rplus (r : regex)                         (* r+ *)
| Rcat (r1 r2 : regex)
| Rend.                                     (* $ *)

Definition newline : ascii := ascii_of_nat 10.

(** [$] matches at the end of the string and just before a newline that is
    the last character. *)
Definition at_end (s : string) : bool :=
  match s with
  | EmptyString => true
  | String c EmptyString => Ascii.eqb c newline
  | _ => false
  end.

(** Between [lo] and [lo + extra] repetitions of the matcher [m], then [k]. *)
Fixpoint repeat_opt (m : string -> (string -> bool) -> bool) (extra : nat)
    (s : string) (k : string -> bool) : bool :=
  match extra with
  | O => k s
  | S e => m s (fun s' => repeat_opt m e s' k) || k s
  end.

Fixpoint repeat_req (m : string -> (string -> bool) -> bool) (lo extra : nat)
    (s : string) (k : string -> bool) : bool :=
  match lo with
  | O => repeat_opt m extra s k
  | S l => m s (fun s' => repeat_req m l extra s' k)
  end.

(** A backtracking matcher in continuation style: [matchk r s k] holds when
    [r] matches a prefix of [s] and [k] accepts what is left. [r+] is given
    as many optional rounds as [s] has characters. *)
Fixpoint matchk (r : regex) (s : string) (k : string -> bool) : bool :=
  match r with
  | Rclass items =>
      match s with
      | String c s' => class_mem items c && k s'
      | EmptyString => false
      end
  | Rchar d =>
      match s with
      | String c s' => Ascii.eqb c d && k s'
      | EmptyString => false
      end
  | Rrepeat lo hi r => repeat_req (matchk r) lo (hi - lo) s k
  | Rplus r => repeat_req (matchk r) 1 (String.length s) s k
  | Rcat r1 r2 => matchk r1 s (fun s' => matchk r2 s' k)
  | Rend => at_end s && k s
  end.

(** [re.match(r, s) is not None]: [r] matches at the start of [s]. *)
Definition re_match (r : regex) (s : string) : bool := matchk r s (fun _ => true).

(* ================================================================== *)
(** * Naming and validation (static methods of [Rediz]) *)

(** [[-a-zA-Z0-9_.:]] *)
Definition stem_class : list class_item :=
  [One "-"%char; Range "a"%char "z"%char; Range "A"%char "Z"%char;
   Range "0"%char "9"%char; One "_"%char; One "."%char; One ":"%char].

(** [[json,HTML]] *)
Definition suffix_class : list class_item :=
  [One "j"%char; One "s"%char; One "o"%char; One "n"%char; One ","%char;
   One "H"%char; One "T"%char; One "M"%char; One "L"%char].

(** [r'^[-a-zA-Z0-9_.:]{1,200}\.[json,HTML]+$'], compiled with
    [re.IGNORECASE]; the leading [^] is implied by [re.match]. *)
Definition name_regex : regex :=
  Rcat (Rrepeat 1 200 (Rclass stem_class))
       (Rcat (Rchar "."%char)
             (Rcat (Rplus (Rclass suffix_class)) Rend)).

Definition is_valid_name (name : string) : bool :=
  re_match name_regex name && negb (contains "::" name).

(** What [is_valid_name] accepts, character by character: the characters of
    the stem [[-a-zA-Z0-9_.:]], and those of the suffix [[json,HTML]] when
    case is ignored. *)
Definition is_digit (c : ascii) : bool := (48 <=? nat_of_ascii c)%nat && (nat_of_ascii c <=? 57)%nat.

Definition stem_char (c : ascii) : bool :=
  is_lower c || is_upper c || is_digit c ||
  existsb (Ascii.eqb c) ["-"%char; "_"%char; "."%char; ":"%char].

Definition suffix_char (c : ascii) : bool :=
  existsb (Ascii.eqb c)
    ["j"%char; "s"%char; "o"%char; "n"%char; "h"%char; "t"%char; "m"%char; "l"%char;
     "J"%char; "S"%char; "O"%char; "N"%char; "H"%char; "T"%char; "M"%char; "L"%char;
     ","%char].

Fixpoint all_chars (p : ascii -> bool) (s : string) : bool :=
  match s with
  | EmptyString => true
  | String c s' => p c && all_chars p s'
  end.

(* ================================================================== *)
(** * Floating point

    Python floats are IEEE-754 binary64 numbers and every operation rounds
    its exact result to the nearest one, ties to even. A float is modelled by
    the rational it denotes and [fl] is that rounding, to 53 significant
    bits. The exponent range is not bounded: the quantities of
    [cost_based_ttl] stay far from overflow and underflow for any object
    size a 64-bit interpreter can report. *)

Module Float.

Definition prec : Z := 53.

(** The integer nearest to a/b (for b > 0), ties to even. *)
Definition round_div (a b : Z) : Z :=
  let q := a / b in
  match 2 * (a mod b) ?= b with
  | Lt => q
  | Gt => q + 1
  | Eq => if Z.even q then q else q + 1
  end.

(** (a/b) / 2^e as a fraction with a positive denominator *)
Definition scaled (a b e : Z) : Z * Z :=
  if 0 <=? e then (a, b * 2 ^ e) else (a * 2 ^ (- e), b).

(** The exponent e for which 2^52 <= (a/b) / 2^e < 2^53, for a, b > 0. *)
Definition exponent (a b : Z) : Z :=
  let e0 := Z.log2 a - Z.log2 b - prec in
  let '(n, d) := scaled a b e0 in
  if n <? 2 ^ prec * d then e0 else e0 + 1.

(** m * 2^e *)
Definition dyadic (m e : Z) : Q :=
  if 0 <=? e then inject_Z (m * 2 ^ e) else Qred (Qmake m (Z.to_pos (2 ^ (- e)))).

Definition fl_pos (a b : Z) : Q :=
  let e := exponent a b in
  let '(n, d) := scaled a b e in
  dyadic (round_div n d) e.

Definition fl (q : Q) : Q :=
  match Qnum q with
  | Z0 => 0%Q
  | Zpos a => fl_pos (Zpos a) (Zpos (Qden q))
  | Zneg a => Qopp (fl_pos (Zpos a) (Zpos (Qden q)))
  end.

(** [float(n)] and the implicit conversion of an int operand *)
Definition of_int (z : Z) : Q := fl (inject_Z z).

Definition mul (x y : Q) : Q := fl (x * y).

(** [x / y]: dividing by zero raises. *)
Definition div (x y : Q) : res Q :=
  if Qnum y =? 0 then Raise ZeroDivisionError else Ok (fl (x / y)).

(** [math.ceil(x)], an int *)
Definition ceil (x : Q) : Z := Qceiling x.

(** [int(x)]: truncation towards zero *)
Definition to_int (x : Q) : Z := Z.quot (Qnum x) (Zpos (Qden x)).

End Float.

(* ================================================================== *)
(** * What the interpreter and the libraries supply *)

Class PyEnv : Type := {
  (** [sys.getsizeof(value)]: a size in bytes, never negative; the value is
      a [str] or [None] *)
  getsizeof : option string -> Z;
  getsizeof_nonneg : forall v, 0 <= getsizeof v;
  (** [threezaconventions.crypto.random_key()]: what the i-th call returns *)
  random_keys : nat -> string;
  (** the order in which Python iterates over a [set] *)
  set_order : gset string -> list string;
  set_order_perm : forall X, set_order X ≡ₚ elements X
}.

(* ================================================================== *)
(** * Validation and the cost model (static methods of [Rediz]) *)

Definition is_valid_value `{PyEnv} (value : option string) : bool :=
  getsizeof value <? 100000.

(** [len(str(uuid.uuid4()))] *)
Definition uuid_length : nat := 36.

(** [isinstance(key, str) and len(key) == len(str(uuid.uuid4()))]; a key that
    is [None] is not a [str]. *)
Definition is_valid_key (key : option string) : bool :=
  match key with
  | Some k => Nat.eqb (String.length k) uuid_length
  | None => false
  end.

Definition cost_based_ttl `{PyEnv} (value : option string) : res (Z * Q) :=
  let REPLICATION := inject_Z 3 in
  let DOLLAR := inject_Z 10000 in
  let COST_PER_MONTH_10MB := Float.mul (inject_Z 1) DOLLAR in
  COST_PER_MONTH_1b ← Float.div COST_PER_MONTH_10MB (Float.of_int (10 * 1000 * 1000));
  let SECONDS_PER_DAY := Float.mul (Float.mul (inject_Z 60) (inject_Z 60)) (inject_Z 24) in
  let SECONDS_PER_MONTH := Float.mul SECONDS_PER_DAY (inject_Z 30) in
  let FIXED_COST_bytes := 100 in
  let MAX_TTL_SECONDS := Float.to_int (Float.mul SECONDS_PER_DAY (Float.of_int 7)) in
  let num_bytes := getsizeof value in
  let credits_per_month :=
    Float.mul (Float.mul REPLICATION (Float.of_int (num_bytes + FIXED_COST_bytes)))
              COST_PER_MONTH_1b in
  quotient ← Float.div SECONDS_PER_MONTH credits_per_month;
  let ttl_seconds := Float.ceil quotient in
  let ttl_seconds := Z.min ttl_seconds MAX_TTL_SECONDS in
  ttl_days ← Float.div (Float.of_int ttl_seconds) SECONDS_PER_DAY;
  Ok (ttl_seconds, ttl_days).

(** The price of a month and the lifetime it buys, as [cost_based_ttl]
    computes them from the size of the value; used to state its properties. *)
Definition COST_PER_MONTH_1b : Q :=
  Float.fl (Float.mul (inject_Z 1) (inject_Z 10000) / Float.of_int (10 * 1000 * 1000)).

Definition credits_per_month (num_bytes : Z) : Q :=
  Float.mul (Float.mul (inject_Z 3) (Float.of_int (num_bytes + 100))) COST_PER_MONTH_1b.

Definition ttl_seconds (num_bytes : Z) : Z :=
  Z.min (Float.ceil (Float.fl (inject_Z 2592000 / credits_per_month num_bytes))) 604800.

(* ================================================================== *)
(** * Python values and dicts *)

Inductive pyval : Type :=
| PNone
| PBool (b : bool)
| PInt (z : Z)
| PFloat (q : Q)
| PStr (s : string)
| PList (l : list pyval)            (* lists and tuples *)
| PSet (s : gset string)
| PType (name : string)             (* a type object, as [type(x)] returns *)
| PError.                           (* an error reply inside a pipeline's results *)

Abbreviation dict := (gmap string pyval).

(** An [Optional[str]] as a Python value *)
Definition opt (x : option string) : pyval :=
  match x with
  | Some s => PStr s
  | None => PNone
  end.

(** [type(x)] *)
Definition type_of (x : pyval) : pyval :=
  match x with
  | PNone => PType "NoneType"
  | PBool _ => PType "bool"
  | PInt _ => PType "int"
  | PFloat _ => PType "float"
  | PStr _ => PType "str"
  | PList _ => PType "list"
  | PSet _ => PType "set"
  | PType _ => PType "type"
  | PError => PType "ResponseError"
  end.

(** [a + b]: strings concatenate and ints add; a [str] and anything that is
    not a [str] is a TypeError. *)
Definition py_add (a b : pyval) : res pyval :=
  match a, b with
  | PStr x, PStr y => Ok (PStr (x +:+ y))
  | PInt x, PInt y => Ok (PInt (x + y))
  | PList x, PList y => Ok (PList (x ++ y))
  | _, _ => Raise TypeError
  end.

(** A dict literal, and [d.update(other)] *)
Definition mkdict (items : list (string * pyval)) : dict := list_to_map (rev items).
Definition dict_update (other d : dict) : dict := other ∪ d.

(** [d[k]] *)
Definition getitem (d : dict) (k : string) : res pyval :=
  match d !! k with
  | Some v => Ok v
  | None => Raise KeyError
  end.

(** [x in l] for ints *)
Definition nat_in (x : nat) (l : list nat) : bool := existsb (Nat.eqb x) l.

(** Names a method body can resolve: its local variables; a name that is
    neither local nor defined at module level (nor a builtin) is a NameError.
    Only [str]-valued names are of interest where this is used. *)
Definition module_globals : list string :=
  ["zip_longest"; "fakeredis"; "os"; "re"; "sys"; "uuid"; "math"; "json"; "redis";
   "time"; "threezaconventions"; "OrderedDict"; "List"; "Union"; "Any"; "Optional";
   "list_or_args"; "PY_REDIS_ARGS"; "FAKE_REDIS_ARGS"; "KeyList"; "NameList";
   "ValueList"; "DEBUGGING"; "dump"; "Rediz"].

Definition resolve (locals : list (string * string)) (x : string) : res pyval :=
  match list_find (fun p => String.eqb (fst p) x) locals with
  | Some (_, (_, v)) => Ok (PStr v)
  | None =>
      if existsb (String.eqb x) module_globals then Ok (PType x) else Raise NameError
  end.

(* ================================================================== *)
(** * The Redis server *)

Inductive rvalue : Type :=
| VString (s : string)
| VHash (h : gmap string string)
| VSet (s : gset string)
| VStream (entries : list (gmap string string)).

Record entry : Type := Entry { content : rvalue; expire_at : option Z }.

Abbreviation db := (gmap string entry).

Definition expired (now : Z) (e : entry) : bool :=
  match expire_at e with
  | Some t => t <=? now
  | None => false
  end.

(** The entry under a key, unless it has expired. *)
Definition live (now : Z) (d : db) (k : string) : option entry :=
  match d !! k with
  | Some e => if expired now e then None else Some e
  | None => None
  end.

Inductive command : Type :=
| GET (k : string)
| SET (k v : string) (ex : option Z)
| MGET (ks : list string)
| MSET (kvs : list (string * string))
| HSET (k field v : string)
| HEXISTS (k field : string)
| HMGET (k : string) (fields : list string)
| HDEL (k : string) (fields : list string)
| SADD (k : string) (members : list string)
| SREM (k : string) (members : list string)
| SMEMBERS (k : string)
| EXISTS (ks : list string)
| DEL (ks : list string)
| EXPIRE (k : string) (seconds : Z)
| XADD (k : string) (fields : gmap string string)
| INVALID.                      (* a command with an argument that is [None] *)

(** redis-py encodes the arguments of a command before anything is sent; an
    argument that is [None] is refused (DataError). *)
Definition encodable (c : command) : bool :=
  match c with
  | INVALID => false
  | _ => true
  end.

Definition set_cmd (k v : option string) (ex : option Z) : command :=
  match k, v with
  | Some k, Some v => SET k v ex
  | _, _ => INVALID
  end.

Definition hset_cmd (k : string) (field v : option string) : command :=
  match field, v with
  | Some f, Some v => HSET k f v
  | _, _ => INVALID
  end.

Definition hexists_cmd (k : string) (field : option string) : command :=
  match field with
  | Some f => HEXISTS k f
  | None => INVALID
  end.

Fixpoint all_some {A : Type} (l : list (option A)) : option (list A) :=
  match l with
  | [] => Some []
  | Some x :: l' => match all_some l' with Some xs => Some (x :: xs) | None => None end
  | None :: _ => None
  end.

Definition hmget_cmd (k : string) (fields : list (option string)) : command :=
  match all_some fields with
  | Some fs => HMGET k fs
  | None => INVALID
  end.

Definition mset_cmd (kvs : list (string * option string)) : command :=
  match all_some (map (fun kv => match snd kv with Some v => Some (fst kv, v) | None => None end) kvs) with
  | Some l => MSET l
  | None => INVALID
  end.

Definition string_at (now : Z) (d : db) (k : string) : option string :=
  match live now d k with
  | Some (Entry (VString s) _) => Some s
  | _ => None
  end.

Definition count_live (now : Z) (d : db) (ks : list string) : Z :=
  Z.of_nat (length (filter (fun k => is_Some (live now d k)) ks)).

(** One command on the server at time [now]: the reply, as redis-py decodes
    it, and the store afterwards. A command on a key of the wrong type and a
    command without its arguments are answered with an error. An aggregate
    that becomes empty is removed. *)
Definition exec (now : Z) (c : command) (d : db) : pyval * db :=
  match c with
  | GET k =>
      match live now d k with
      | None => (PNone, d)
      | Some (Entry (VString s) _) => (PStr s, d)
      | Some _ => (PError, d)
      end
  | SET k s ex =>
      match ex with
      | None => (PBool true, <[k := Entry (VString s) None]> d)
      | Some t =>
          if t <=? 0 then (PError, d)
          else (PBool true, <[k := Entry (VString s) (Some (now + t))]> d)
      end
  | MGET ks =>
      match ks with
      | [] => (PError, d)
      | _ => (PList (map (fun k => opt (string_at now d k)) ks), d)
      end
  | MSET kvs =>
      match kvs with
      | [] => (PError, d)
      | _ =>
          (PBool true,
           foldl (fun d' kv => <[fst kv := Entry (VString (snd kv)) None]> d') d kvs)
      end
  | HSET k f v =>
      match live now d k with
      | None => (PInt 1, <[k := Entry (VHash {[f := v]}) None]> d)
      | Some (Entry (VHash h) ex) =>
          (PInt (match h !! f with Some _ => 0 | None => 1 end), <[k := Entry (VHash (<[f := v]> h)) ex]> d)
      | Some _ => (PError, d)
      end
  | HEXISTS k f =>
      match live now d k with
      | None => (PBool false, d)
      | Some (Entry (VHash h) _) => (PBool (bool_decide (is_Some (h !! f))), d)
      | Some _ => (PError, d)
      end
  | HMGET k fs =>
      match fs with
      | [] => (PError, d)
      | _ =>
          match live now d k with
          | None => (PList (map (fun _ => PNone) fs), d)
          | Some (Entry (VHash h) _) => (PList (map (fun f => opt (h !! f)) fs), d)
          | Some _ => (PError, d)
          end
      end
  | HDEL k fs =>
      match fs with
      | [] => (PError, d)
      | _ =>
          match live now d k with
          | None => (PInt 0, d)
          | Some (Entry (VHash h) ex) =>
              let h' := foldr delete h fs in
              (PInt (Z.of_nat (size h - size h')),
               if bool_decide (h' = ∅) then delete k d else <[k := Entry (VHash h') ex]> d)
          | Some _ => (PError, d)
          end
      end
  | SADD k ms =>
      match ms with
      | [] => (PError, d)
      | _ =>
          match live now d k with
          | None => (PInt (Z.of_nat (size (list_to_set ms : gset string))),
                     <[k := Entry (VSet (list_to_set ms)) None]> d)
          | Some (Entry (VSet s) ex) =>
              let s' := s ∪ list_to_set ms in
              (PInt (Z.of_nat (size s' - size s)), <[k := Entry (VSet s') ex]> d)
          | Some _ => (PError, d)
          end
      end
  | SREM k ms =>
      match ms with
      | [] => (PError, d)
      | _ =>
          match live now d k with
          | None => (PInt 0, d)
          | Some (Entry (VSet s) ex) =>
              let s' := s ∖ list_to_set ms in
              (PInt (Z.of_nat (size s - size s')),
               if bool_decide (s' = ∅) then delete k d else <[k := Entry (VSet s') ex]> d)
          | Some _ => (PError, d)
          end
      end
  | SMEMBERS k =>
      match live now d k with
      | None => (PSet ∅, d)
      | Some (Entry (VSet s) _) => (PSet s, d)
      | Some _ => (PError, d)
      end
  | EXISTS ks =>
      match ks with
      | [] => (PError, d)
      | _ => (PInt (count_live now d ks), d)
      end
  | DEL ks =>
      match ks with
      | [] => (PError, d)
      | _ => (PInt (count_live now d (remove_dups ks)), foldr delete d ks)
      end
  | EXPIRE k t =>
      match live now d k with
      | None => (PBool false, d)
      | Some (Entry v _) => (PBool true, <[k := Entry v (Some (now + t))]> d)
      end
  | XADD k fields =>
      match live now d k with
      | None => (PStr (str now +:+ "-0"), <[k := Entry (VStream [fields]) None]> d)
      | Some (Entry (VStream es) ex) =>
          (PStr (str now +:+ "-" +:+ str (Z.of_nat (length es))),
           <[k := Entry (VStream (es ++ [fields])) ex]> d)
      | Some _ => (PError, d)
      end
  | INVALID => (PError, d)
  end.

(** A batch of commands, in order. *)
Fixpoint run (now : Z) (cmds : list command) (d : db) : list pyval * db :=
  match cmds with
  | [] => ([], d)
  | c :: cs =>
      let '(r, d1) := exec now c d in
      let '(rs, d2) := run now cs d1 in
      (r :: rs, d2)
  end.

Definition is_error (r : pyval) : bool :=
  match r with
  | PError => true
  | _ => false
  end.

(* ================================================================== *)
(** * The world of a client: the server, the random source, the heap *)

(** [heap] holds the Python dicts that are shared by reference. The only one
    the client shares is the default value of the parameter [intent] of
    [_modify_page], created once when the class body is evaluated. *)
Record world : Type := World {
  redis : gmap string entry;
  rng : nat;
  heap : gmap nat dict
}.

Definition with_redis (d : gmap string entry) (w : world) : world :=
  World d (rng w) (heap w).
Definition with_rng (n : nat) (w : world) : world :=
  World (redis w) n (heap w).
Definition with_heap (h : gmap nat dict) (w : world) : world :=
  World (redis w) (rng w) h.

(** A computation that reads and changes the world and may raise; the world
    it leaves behind is kept when it raises, as nothing is rolled back. *)
Definition M (A : Type) : Type := world -> res A * world.

Definition ret {A : Type} (a : A) : M A := fun w => (Ok a, w).
Definition raise {A : Type} (e : exn) : M A := fun w => (Raise e, w).
Definition lift {A : Type} (r : res A) : M A := fun w => (r, w).
Definition bind {A B : Type} (m : M A) (f : A -> M B) : M B :=
  fun w =>
    match m w with
    | (Ok a, w') => f a w'
    | (Raise e, w') => (Raise e, w')
    end.

Notation "x <- m ;; k" := (bind m (fun x => k))
  (at level 20, m at level 99, k at level 200, only parsing).
Notation "' p <- m ;; k" := (bind m (fun x => match x with p => k end))
  (at level 20, p pattern, m at level 99, k at level 200, only parsing).

(** [for x in l: s = body(s, x)] *)
Fixpoint for_each {A S : Type} (l : list A) (body : S -> A -> M S) (s : S) : M S :=
  match l with
  | [] => ret s
  | x :: l' => s' <- body s x ;; for_each l' body s'
  end.

(** [pipe.execute()]: nothing is sent for an empty pipeline or when an
    argument cannot be encoded; otherwise every command is run, and the first
    error reply, if any, is raised afterwards. *)
Definition pipe_execute (now : Z) (cmds : list command) : M (list pyval) :=
  fun w =>
    if negb (forallb encodable cmds) then (Raise DataError, w)
    else
      let '(rs, d) := run now cmds (redis w) in
      (if existsb is_error rs then Raise ResponseError else Ok rs, with_redis d w).

(** A command sent on its own, [self.client.cmd(...)] *)
Definition call (now : Z) (c : command) : M pyval :=
  rs <- pipe_execute now [c] ;;
  match rs with
  | [r] => ret r
  | _ => raise ResponseError
  end.

Definition random_key `{PyEnv} : M string :=
  fun w => (Ok (random_keys (rng w)), with_rng (S (rng w)) w).

Definition random_name `{PyEnv} : M string :=
  k <- random_key ;; ret (k +:+ ".json").

(** [intent.update(other)] on the dict at [l] *)
Definition heap_update (l : nat) (other : dict) : M unit :=
  fun w => (Ok tt, with_heap (<[l := dict_update other (default ∅ (heap w !! l))]> (heap w)) w).

Definition heap_read (l : nat) : M dict :=
  fun w => (Ok (default ∅ (heap w !! l)), w).

(** Truth value of a reply in a condition *)
Definition truthy (x : pyval) : bool :=
  match x with
  | PNone => false
  | PBool b => b
  | PInt z => negb (z =? 0)
  | PFloat q => negb (Qnum q =? 0)
  | PStr s => negb (String.eqb s EmptyString)
  | PList l => negb (Nat.eqb (length l) 0)
  | PSet s => negb (bool_decide (s = ∅))
  | PType _ => true
  | PError => true
  end.

(** A reply that is a [str] or [None] *)
Definition as_opt (x : pyval) : option string :=
  match x with
  | PStr s => Some s
  | _ => None
  end.

Definition as_list (x : pyval) : list pyval :=
  match x with
  | PList l => l
  | _ => []
  end.

Definition as_set (x : pyval) : gset string :=
  match x with
  | PSet s => s
  | _ => ∅
  end.

(** ** Commands the client sends on their own and that draw at random *)

(** What the server draws: [sample i S n] are the members [SRANDMEMBER]
    picks from the set [S] when it is asked for [n] distinct ones at the
    [i]-th draw, [sample_with_repeats i S n] what it picks when members may
    repeat (a negative count). Distinct members are as many as were asked
    for, or the whole set when it has fewer; with repeats there are as many
    as were asked for. *)
Class Sampler : Type := {
  sample : nat -> gset string -> nat -> list string;
  sample_with_repeats : nat -> gset string -> nat -> list string;
  sample_members : forall i S n x, x ∈ sample i S n -> x ∈ S;
  sample_nodup : forall i S n, NoDup (sample i S n);
  sample_length : forall i S n, length (sample i S n) = Nat.min n (size S);
  sample_with_repeats_members : forall i S n x, x ∈ sample_with_repeats i S n -> x ∈ S;
  sample_with_repeats_length :
    forall i S n, S <> ∅ -> length (sample_with_repeats i S n) = n
}.

(** [self.client.scard(key)] *)
Definition scard (now : Z) (k : string) : M Z :=
  fun w =>
    match live now (redis w) k with
    | None => (Ok 0, w)
    | Some (Entry (VSet s) _) => (Ok (Z.of_nat (size s)), w)
    | Some _ => (Raise ResponseError, w)
    end.

(** [self.client.srandmember(key, number)] *)
Definition srandmember `{Sampler} (now : Z) (k : string) (number : Z) : M (list string) :=
  fun w =>
    let drawn (s : gset string) :=
      if 0 <? number then sample (rng w) s (Z.to_nat number)
      else sample_with_repeats (rng w) s (Z.to_nat (- number)) in
    match live now (redis w) k with
    | None => (Ok [], w)
    | Some (Entry (VSet s) _) => (Ok (drawn s), with_rng (S (rng w)) w)
    | Some _ => (Raise ResponseError, w)
    end.

(* ================================================================== *)
(** * The client: class [Rediz] *)

Module Rediz.

Record instance : Type := {
  DELAY_SECONDS : list Z;
  (** whether the pipelines of [self.client] have an [xadd] method: those
      of the real client do, those of fakeredis do not *)
  has_xadd : bool
}.

Definition _obscurity : string := "09909e88-ca04-4868-a0a0-c94748df844f:::".
Definition OWNERSHIP : string := _obscurity +:+ "ownership".
Definition NAMES : string := _obscurity +:+ "names".
Definition PROMISES : string := _obscurity +:+ "promises:".
Definition DELAYED : string := "delayed::".
Definition MESSAGES : string := "messages::".
Definition HISTORY : string := "history::".
Definition SUBSCRIBERS : string := "subscribers::".

Definition default_delay_seconds : list Z :=
  [5; 10; 30; 60; 1 * 60; 2 * 60; 5 * 60; 10 * 60; 20 * 60; 60 * 60].

(** [xs or dflt] for a list that may be [None] *)
Definition or_list {A : Type} (xs : option (list A)) (dflt : list A) : list A :=
  match xs with
  | Some (x :: l) => x :: l
  | _ => dflt
  end.

(** [__init__], as far as the fields above go: [delay_seconds] is the keyword
    argument of that name and [real] says whether a host was given
    ([make_redis_client]). *)
Definition init (delay_seconds : option (list Z)) (real : bool) : instance :=
  {| DELAY_SECONDS := or_list delay_seconds default_delay_seconds;
     has_xadd := real |}.

(** The dict that is the default value of [intent] in [_modify_page] *)
Definition default_intent : nat := 0%nat.

(** The world when the module has just been imported and the server is empty *)
Definition fresh_world : world := World ∅ 0 {[default_intent := ∅]}.

(** [pipe_results_grouper(results, n)]: chunks of [m = int(len(results)/n)]
    replies, the last one padded with [None]; nothing when [m] is 0. *)
Fixpoint grouper (fuel m : nat) (l : list pyval) : list pyval :=
  match fuel, l with
  | S f, _ :: _ =>
      PList (take m l ++ replicate (m - length l) PNone) :: grouper f m (drop m l)
  | _, _ => []
  end.

Definition pipe_results_grouper (results : list pyval) (n : nat) : list pyval :=
  let m := (length results / n)%nat in
  match m with
  | O => []
  | _ => grouper (length results) m results
  end.

(** [for intent, res in zip(executed, results): intent.update({"result":res})] *)
Definition record_results (executed : list nat) (results : list pyval) : M unit :=
  for_each (zip executed results)
           (fun _ '(intent, r) => heap_update intent (mkdict [("result", r)])) tt.

Definition _modify_page `{PyEnv} (self : instance) (now : Z) (pipe : list command)
    (ndx : nat) (name value : option string) (intent : nat) : M (list command * nat) :=
  '(ttl, ttl_days) <- lift (cost_based_ttl value) ;;
  let pipe := pipe ++ [set_cmd name value (Some ttl)] in
  (* Also write a duplicate to another key *)
  k <- random_key ;;
  match name with
  | None => raise TypeError
  | Some n =>
      let name_of_copy := k +:+ ":" +:+ n in
      let HISTORY_TTL := Z.min (Z.max (2 * 60 * 60) ttl) (60 * 60 * 24) in
      let pipe := pipe ++ [set_cmd (Some name_of_copy) value (Some HISTORY_TTL)] in
      let pipe :=
        if has_xadd self
        then pipe ++ [XADD (HISTORY +:+ n) {["copy" := name_of_copy]}]
        else pipe in
      (* Future copy operations *)
      let utc_epoch_now := now in
      let pipe :=
        foldl (fun pipe delay_seconds =>
                 let PROMISE := PROMISES +:+ str (utc_epoch_now + delay_seconds) in
                 let SOURCE := name_of_copy in
                 let DESTINATION := DELAYED +:+ str delay_seconds +:+ ":" +:+ n in
                 pipe ++ [SADD PROMISE [SOURCE +:+ "->" +:+ DESTINATION];
                          EXPIRE PROMISE (delay_seconds + 60)])
              pipe (DELAY_SECONDS self) in
      _ <- heap_update intent
             (mkdict [("ndx", PInt (Z.of_nat ndx)); ("name", PStr n); ("value", opt value);
                      ("ttl_days", PFloat ttl_days); ("new", PBool false);
                      ("obscure", PBool false); ("copy", PStr name_of_copy)]) ;;
      ret (pipe, intent)
  end.

Definition _new_page `{PyEnv} (self : instance) (now : Z) (pipe : list command)
    (ndx : nat) (name value write_key : option string) : M (list command * nat) :=
  '(ttl, ttl_days) <- lift (cost_based_ttl value) ;;
  let pipe := pipe ++ [hset_cmd OWNERSHIP name write_key] in       (* Establish ownership *)
  let pipe := pipe ++ [match name with Some n => SADD NAMES [n] | None => INVALID end] in
  '(pipe, intent) <- _modify_page self now pipe ndx name value default_intent ;;
  _ <- heap_update intent (mkdict [("new", PBool true); ("write_key", opt write_key)]) ;;
  ret (pipe, intent).

Definition _new_obscure_page `{PyEnv} (self : instance) (now : Z) (pipe : list command)
    (ndx : nat) (name value write_key : option string) : M (list command * nat) :=
  '(pipe, intent) <- _new_page self now pipe ndx name value write_key ;;
  _ <- heap_update intent (mkdict [("obscure", PBool true)]) ;;
  ret (pipe, intent).

(** The variables a phase of [_set] carries through its loop *)
Record phase : Type := Phase {
  pipe : list command;
  executed : list nat;            (* references to intent dicts *)
  rejected : list dict;
  ignored_ndxs : list nat
}.

Definition phase_start : phase := Phase [] [] [] [].

Definition add_executed (p : list command) (intent : nat) (st : phase) : phase :=
  Phase p (executed st ++ [intent]) (rejected st) (ignored_ndxs st).
Definition add_rejected (r : dict) (st : phase) : phase :=
  Phase (pipe st) (executed st) (rejected st ++ [r]) (ignored_ndxs st).
Definition add_ignored (ndx : nat) (st : phase) : phase :=
  Phase (pipe st) (executed st) (rejected st) (ignored_ndxs st ++ [ndx]).

(** [if len(executed): ... pipe.execute() ...], the end of each phase *)
Definition finish_phase (now : Z) (st : phase) : M unit :=
  match executed st with
  | [] => ret tt
  | _ =>
      results <- pipe_execute now (pipe st) ;;
      record_results (executed st) (pipe_results_grouper results (length (executed st)))
  end.

(** [[x for x, ndx in zip(xs, ndxs) if ndx in ignored_ndxs]] *)
Definition residual {A : Type} (xs : list A) (ndxs ignored : list nat) : list A :=
  map fst (List.filter (fun p => nat_in (snd p) ignored) (zip xs ndxs)).

Definition ndx_val (ndx : nat) : pyval := PInt (Z.of_nat ndx).

Definition obscure_body `{PyEnv} (self : instance) (now : Z) (st : phase)
    (x : nat * (option string * (option string * option string))) : M phase :=
  let '(ndx, (name, (value, write_key))) := x in
  if negb (is_valid_value value) then
    m1 <- lift (py_add (PStr "invalid value of type ") (type_of (opt value))) ;;
    msg <- lift (py_add m1 (PStr " was supplied")) ;;
    ret (add_rejected (mkdict [("ndx", ndx_val ndx); ("name", opt name);
                               ("value", opt value); ("error", msg)]) st)
  else
    match name with
    | None =>
        write_key <- match write_key with
                     | None => k <- random_key ;; ret (Some k)
                     | Some _ => ret write_key
                     end ;;
        if negb (is_valid_key write_key) then
          ret (add_rejected (mkdict [("ndx", ndx_val ndx); ("name", opt name);
                                     ("write_key", opt write_key);
                                     ("errror", PStr "invalid write_key")]) st)
        else
          new_name <- random_name ;;
          '(p, intent) <- _new_obscure_page self now (pipe st) ndx (Some new_name)
                                             value write_key ;;
          ret (add_executed p intent st)
    | Some n =>
        if negb (is_valid_name n) then
          ret (add_rejected (mkdict [("ndx", ndx_val ndx); ("name", opt name);
                                     ("error", PStr "invalid name")]) st)
        else ret (add_ignored ndx st)
    end.

Definition phase_output : Type :=
  list nat * list dict * list nat *
  list (option string) * list (option string) * list (option string).

Definition _pipelined_set_obscure `{PyEnv} (self : instance) (now : Z) (ndxs : list nat)
    (names values write_keys : list (option string)) : M phase_output :=
  st <- match ndxs with
        | [] => ret phase_start
        | _ =>
            st <- for_each (zip ndxs (zip names (zip values write_keys)))
                           (obscure_body self now) phase_start ;;
            _ <- finish_phase now st ;;
            ret st
        end ;;
  (* Marshall residual *)
  ret (executed st, rejected st, ignored_ndxs st,
       residual names ndxs (ignored_ndxs st),
       residual values ndxs (ignored_ndxs st),
       residual write_keys ndxs (ignored_ndxs st)).

Definition new_body `{PyEnv} (self : instance) (now : Z) (st : phase)
    (x : pyval * (nat * (option string * (option string * option string)))) : M phase :=
  let '(exist_, (ndx, (name, (value, write_key)))) := x in
  if negb (truthy exist_) then
    write_key <- match write_key with
                 | None => k <- random_key ;; ret (Some k)
                 | Some _ => ret write_key
                 end ;;
    if negb (is_valid_key write_key) then
      ret (add_rejected (mkdict [("ndx", ndx_val ndx); ("name", opt name);
                                 ("write_key", opt write_key);
                                 ("errror", PStr "invalid write_key")]) st)
    else
      '(p, intent) <- _new_page self now (pipe st) ndx name value write_key ;;
      ret (add_executed p intent st)
  else ret (add_ignored ndx st).

Definition _pipelined_set_new `{PyEnv} (self : instance) (now : Z) (ndxs : list nat)
    (names values write_keys : list (option string)) : M phase_output :=
  st <- match ndxs with
        | [] => ret phase_start
        | _ =>
            exists_ <- pipe_execute now (map (hexists_cmd OWNERSHIP) names) ;;
            st <- for_each (zip exists_
                              (zip ndxs (zip names (zip values write_keys))))
                           (new_body self now) phase_start ;;
            _ <- finish_phase now st ;;
            ret st
        end ;;
  (* Yet to get to... *)
  ret (executed st, rejected st, ignored_ndxs st,
       residual names ndxs (ignored_ndxs st),
       residual values ndxs (ignored_ndxs st),
       residual write_keys ndxs (ignored_ndxs st)).

(** [_write_keys(names)]: [None] when [names] is empty *)
Definition _write_keys (now : Z) (names : list (option string))
    : M (option (list (option string))) :=
  match names with
  | [] => ret None
  | _ => r <- call now (hmget_cmd OWNERSHIP names) ;; ret (Some (map as_opt (as_list r)))
  end.

(** [zip(..., ys)] needs an iterable: [None] is not one. *)
Definition iterable {A : Type} (ys : option (list A)) : M (list A) :=
  match ys with
  | Some l => ret l
  | None => raise TypeError
  end.

Definition _are_valid_write_keys (now : Z) (names write_keys : list (option string))
    : M (list bool) :=
  official <- _write_keys now names ;;
  official <- iterable official ;;
  ret (map (fun p => bool_decide (fst p = snd p)) (zip write_keys official)).

Definition existing_body `{PyEnv} (self : instance) (now : Z) (st : phase)
    (x : nat * (option string * (option string * (option string * option string))))
    : M phase :=
  let '(ndx, (name, (value, (write_key, official_write_key)))) := x in
  if bool_decide (write_key = official_write_key) then
    '(p, intent) <- _modify_page self now (pipe st) ndx name value default_intent ;;
    _ <- heap_update intent (mkdict [("write_key", opt write_key)]) ;;
    ret (add_executed p intent st)
  else
    match official_write_key with
    | None => raise TypeError           (* None[-4:] *)
    | Some official =>
        ret (add_rejected
               (mkdict [("name", opt name); ("value", opt value);
                        ("write_key", opt write_key);
                        ("official_write_key_ends_in", PStr (last_chars 4 official));
                        ("error", PStr "write_key does not match page_key on record")]) st)
    end.

Definition _pipelined_set_existing `{PyEnv} (self : instance) (now : Z) (ndxs : list nat)
    (names values write_keys : list (option string)) : M (list nat * list dict) :=
  st <- match ndxs with
        | [] => ret phase_start
        | _ =>
            official_write_keys <- _write_keys now names ;;
            official_write_keys <- iterable official_write_keys ;;
            st <- for_each (zip ndxs (zip names (zip values
                                (zip write_keys official_write_keys))))
                           (existing_body self now) phase_start ;;
            _ <- finish_phase now st ;;
            ret st
        end ;;
  ret (executed st, rejected st).

(** [prefix + x] where [x] was read from a dict *)
Definition str_plus (prefix : string) (x : pyval) : M string :=
  r <- lift (py_add (PStr prefix) x) ;;
  match r with
  | PStr s => ret s
  | _ => raise TypeError
  end.

Definition update_results (executed : list dict) (results : list pyval) : list dict :=
  map (fun p => dict_update (mkdict [("result", snd p)]) (fst p)) (zip executed results)
  ++ drop (length results) executed.

Definition _propagate_to_subscribers `{PyEnv} (now : Z) (names values : list pyval)
    : M (list dict) :=
  subscriber_pipe <- for_each names
      (fun cmds name =>
         subscriber_set_name <- str_plus SUBSCRIBERS name ;;
         ret (cmds ++ [SMEMBERS subscriber_set_name])) [] ;;
  subscribers_sets <- pipe_execute now subscriber_pipe ;;
  let '(propagate_pipe, executed) :=
    foldl (fun acc x =>
             let '(sender_name, (value, subscribers_set)) := x in
             foldl (fun acc subscriber =>
                      let mailbox_name := MESSAGES +:+ subscriber in
                      (fst acc ++ [hset_cmd mailbox_name (as_opt sender_name) (as_opt value)],
                       snd acc ++ [mkdict [("mailbox_name", PStr mailbox_name);
                                           ("sender", sender_name); ("value", value)]]))
                   acc (set_order (as_set subscribers_set)))
          ([], []) (zip names (zip values subscribers_sets)) in
  match executed with
  | [] => ret executed
  | _ =>
      results <- pipe_execute now propagate_pipe ;;
      ret (update_results executed (pipe_results_grouper results (length executed)))
  end.

Definition _coerce_inputs (names values write_keys : option (list (option string)))
    (name value write_key : option string)
    : list (option string) * list (option string) * list (option string) :=
  (* Convert singletons to arrays, broadcasting as necessary *)
  let names := or_list names [name] in
  let values := or_list values (map (fun _ => value) names) in
  let write_keys := or_list write_keys (map (fun _ => write_key) names) in
  (names, values, write_keys).

Record execution_log : Type := {
  log_executed : list nat;
  log_rejected : list dict
}.

(** [[ex[key] for ex in intents]] *)
Definition read_items (intents : list nat) (key : string) : M (list pyval) :=
  for_each intents
    (fun acc intent => d <- heap_read intent ;; v <- lift (getitem d key) ;; ret (acc ++ [v]))
    [].

Definition _set `{PyEnv} (self : instance) (now : Z)
    (names values write_keys : option (list (option string)))
    (name value write_key : option string) : M execution_log :=
  let '(names, values, write_keys) :=
    _coerce_inputs names values write_keys name value write_key in
  let ndxs := seq 0 (length names) in
  '(executed_obscure, rejected_obscure, ndxs, names, values, write_keys) <-
    _pipelined_set_obscure self now ndxs names values write_keys ;;
  '(executed_new, rejected_new, ndxs, names, values, write_keys) <-
    _pipelined_set_new self now ndxs names values write_keys ;;
  '(executed_existing, rejected_existing) <-
    _pipelined_set_existing self now ndxs names values write_keys ;;
  modified_names <- read_items executed_existing "name" ;;
  modified_values <- read_items executed_existing "value" ;;
  _ <- _propagate_to_subscribers now modified_names modified_values ;;
  ret {| log_executed := executed_obscure ++ executed_new ++ executed_existing;
         log_rejected := rejected_obscure ++ rejected_new ++ rejected_existing |}.

(** A stable sort on an int key, as [sorted] is *)
Fixpoint insert_by_key (x : Z * dict) (l : list (Z * dict)) : list (Z * dict) :=
  match l with
  | [] => [x]
  | y :: l' => if fst x <=? fst y then x :: l else y :: insert_by_key x l'
  end.

Definition sorted_by_key (l : list (Z * dict)) : list (Z * dict) :=
  foldr insert_by_key [] l.

Definition _coerce_outputs (log : execution_log) : M (list dict) :=
  keyed <- for_each (log_executed log)
      (fun acc intent =>
         d <- heap_read intent ;;
         ndx <- lift (getitem d "ndx") ;;
         match ndx with
         | PInt z => ret (acc ++ [(z, d)])
         | _ => raise TypeError
         end) [] ;;
  for_each (sorted_by_key keyed)
    (fun acc x =>
       name <- lift (getitem (snd x) "name") ;;
       write_key <- lift (getitem (snd x) "write_key") ;;
       ret (acc ++ [mkdict [("name", name); ("write_key", write_key)]])) [].

Inductive set_result : Type :=
| Single (d : dict)
| Batch (l : list dict).

Definition set `{PyEnv} (self : instance) (now : Z)
    (names values write_keys : option (list (option string)))
    (name value write_key : option string) : M set_result :=
  let singular := match names with None => true | Some _ => false end in
  let '(names, values, write_keys) :=
    _coerce_inputs names values write_keys name value write_key in
  (* Execute *)
  execution_log <- _set self now (Some names) (Some values) (Some write_keys) None None None ;;
  (* Re-jigger results *)
  access <- _coerce_outputs execution_log ;;
  if singular then
    match access with
    | d :: _ => ret (Single d)
    | [] => raise IndexError
    end
  else ret (Batch access).

Definition _pipelined_get (now : Z) (names : list (option string)) : M pyval :=
  match names with
  | [] => ret PNone
  | _ =>
      rs <- pipe_execute now
              (map (fun name => match name with Some n => GET n | None => INVALID end) names) ;;
      ret (PList rs)
  end.

Definition get (now : Z) (name : option string) (names : option (list (option string)))
    : M pyval :=
  let names := or_list names [name] in
  r <- _pipelined_get now names ;;
  match name with
  | None => ret r
  | Some _ =>
      match r with
      | PList (x :: _) => ret x
      | PList [] => raise IndexError
      | _ => raise TypeError
      end
  end.

Definition _subscribe (now : Z) (publisher subscriber : string) : M unit :=
  _ <- call now (SADD (SUBSCRIBERS +:+ publisher) [subscriber]) ;; ret tt.

Definition _unsubscribe (now : Z) (publisher subscriber : string) : M unit :=
  member <- lift (resolve [("publisher", publisher); ("subscriber", subscriber)]
                          "subsriber") ;;
  _ <- call now (match member with
                 | PStr m => SREM (SUBSCRIBERS +:+ publisher) [m]
                 | _ => INVALID
                 end) ;;
  ret tt.

Definition assert_not_in_reserved_namespace (names : list (option string)) : M unit :=
  for_each names
    (fun _ name =>
       match name with
       | None => raise TypeError
       | Some n => if contains "::" n then raise ReservedNamespace else ret tt
       end) tt.

(** [_delete(names, *args)], with [names] the list that [list_or_args] makes
    of its arguments *)
Definition _delete `{PyEnv} (now : Z) (names : list (option string)) : M unit :=
  _ <- assert_not_in_reserved_namespace names ;;
  let names := omap id names in
  subs_res <- pipe_execute now (map (fun name => SMEMBERS (SUBSCRIBERS +:+ name)) names) ;;
  let messages_removal_pipe :=
    flat_map (fun x =>
                map (fun subscriber =>
                       let recipient_mailbox := MESSAGES +:+ fst x in
                       HDEL recipient_mailbox [fst x])
                    (set_order (as_set (snd x))))
             (zip names subs_res) in
  _ <- pipe_execute now messages_removal_pipe ;;
  _ <- pipe_execute now
         [HDEL OWNERSHIP names;
          DEL (map (fun name => SUBSCRIBERS +:+ name) names);
          DEL (map (fun name => MESSAGES +:+ name) names);
          DEL names;
          DEL (map (fun name => HISTORY +:+ name) names);
          SREM NAMES names] ;;
  ret tt.

(** Permissioned delete *)
Definition delete `{PyEnv} (now : Z) (name write_key : option string)
    (names write_keys : option (list (option string))) : M unit :=
  let names := or_list names [name] in
  let write_keys := or_list write_keys [write_key] in
  are_valid <- _are_valid_write_keys now names write_keys ;;
  let authorized_kill_list := map fst (List.filter snd (zip names are_valid)) in
  match authorized_kill_list with
  | [] => raise TypeError      (* [self._delete()]: the argument [names] is missing *)
  | _ => _delete now authorized_kill_list
  end.

(** [range(n)] *)
Definition range (n : Z) : list Z := map Z.of_nat (seq 0 (Z.to_nat n)).

(** [try: a, b = promise.split('->')  except: a, b = promise.split('>>')] *)
Definition parse_promise (promise : string) : res (string * string) :=
  match unpack2 (split "->" promise) with
  | Ok p => Ok p
  | Raise _ => unpack2 (split ">>" promise)
  end.

(** [dict(zip(keys, values))]: a later pair replaces an earlier one with the
    same key. *)
Definition dict_of_pairs {A : Type} (l : list (string * A)) : gmap string A :=
  list_to_map (rev l).

(** The debugging [dump] of the first promises to a local file, made for
    every promise, leaves the server and the client as they are and is not
    modelled. *)
Definition admin_promises `{PyEnv} (now : Z) (lookback_seconds : Z) : M Z :=
  let utc_epoch_now := now in
  let candidates :=
    map (fun seconds => PROMISES +:+ str (utc_epoch_now - seconds)) (range lookback_seconds) in
  exists_ <- pipe_execute now (map (fun candidate => EXISTS [candidate]) candidates) ;;
  let promise_collection_names :=
    map fst (List.filter (fun _ => truthy (PList exists_)) (zip candidates exists_)) in
  collections <- pipe_execute now (map SMEMBERS promise_collection_names) ;;
  (* Immediately delete task list so it isn't done twice *)
  _ <- call now (DEL promise_collection_names) ;;
  let individual_promises := flat_map (fun c => set_order (as_set c)) collections in
  '(sources, destinations) <-
    for_each individual_promises
      (fun acc promise =>
         '(source, destination) <- lift (parse_promise promise) ;;
         ret (fst acc ++ [source], snd acc ++ [destination]))
      ([], []) ;;
  source_values <- match sources with
                   | [] => raise TypeError      (* [mget()]: the argument [keys] is missing *)
                   | _ => r <- call now (MGET sources) ;; ret (as_list r)
                   end ;;
  let mapping := dict_of_pairs (zip destinations (map as_opt source_values)) in
  _ <- call now (mset_cmd (map_to_list mapping)) ;;
  ret (Z.of_nat (size mapping)).

(** [mget(names, *args)], with [names] the list that [list_or_args] makes of
    its arguments *)
Definition mget (now : Z) (names : list (option string)) : M pyval :=
  get now None (Some names).

Definition mset `{PyEnv} (self : instance) (now : Z)
    (names values write_keys : option (list (option string))) : M set_result :=
  set self now names values write_keys None None None.

(** [_randomly_find_orphans(num)]: [None] when nothing was drawn or every
    name drawn exists *)
Definition _randomly_find_orphans `{PyEnv} `{Sampler} (now : Z) (num : Z)
    : M (option (list string)) :=
  drawn <- srandmember now NAMES num ;;
  let unique_random_names := set_order (list_to_set drawn) in
  let num_random := length unique_random_names in
  if Nat.eqb num_random 0 then ret None
  else
    num_exists <- call now (EXISTS unique_random_names) ;;
    match num_exists with
    | PInt num_exists =>
        if num_exists <? Z.of_nat num_random then
          (* There must be orphans, defined as those who are listed
             in reserved["names"] but have expired *)
          exists_ <- pipe_execute now (map (fun name => EXISTS [name]) unique_random_names) ;;
          ret (Some (map fst (List.filter (fun p => negb (truthy (snd p)))
                                          (zip unique_random_names exists_))))
        else ret None
    | _ => raise TypeError
    end.

(** Randomized search and destroy for expired data; [fraction] is a float. *)
Definition admin_garbage_collection `{PyEnv} `{Sampler} (now : Z) (fraction : Q) : M Z :=
  num_keys <- scard now NAMES ;;
  let num_survey :=
    Z.min 100 (Z.max 20 (Float.to_int (Float.mul fraction (Float.of_int num_keys)))) in
  orphans <- _randomly_find_orphans now num_survey ;;
  match orphans with
  | Some orphans =>
      _ <- match orphans with
           | [] => raise TypeError     (* [self._delete()]: the argument [names] is missing *)
           | _ => _delete now (map Some orphans)
           end ;;
      ret (Z.of_nat (length orphans))
  | None => ret 0
  end.

End Rediz.

(* ================================================================== *)
(** * Vocabulary of the statements *)

(** The Permission Ledger: the hash at [OWNERSHIP]; no key is the empty
    ledger, and there is none to read when the key holds something else. *)
Definition ledger (now : Z) (d : db) : option (gmap string string) :=
  match live now d Rediz.OWNERSHIP with
  | None => Some ∅
  | Some (Entry (VHash h) _) => Some h
  | Some _ => None
  end.

(** The members of the set at a key, as SMEMBERS returns them *)
Definition members (now : Z) (d : db) (k : string) : gset string :=
  match live now d k with
  | Some (Entry (VSet s) _) => s
  | _ => ∅
  end.

(** A key that SMEMBERS can read: it is absent or holds a set. *)
Definition set_or_absent (now : Z) (d : db) (k : string) : Prop :=
  match live now d k with
  | None => True
  | Some (Entry (VSet _) _) => True
  | Some _ => False
  end.

(** The mailbox of a subscriber: the hash at [MESSAGES + subscriber] *)
Definition mailbox (now : Z) (d : db) (subscriber : string) : gmap string string :=
  match live now d (Rediz.MESSAGES +:+ subscriber) with
  | Some (Entry (VHash h) _) => h
  | _ => ∅
  end.

(** The names of the keys a write to [name] with delay [delay_seconds] uses *)
Definition promise_bucket (epoch : Z) : string := Rediz.PROMISES +:+ str epoch.
Definition delayed_name (delay_seconds : Z) (name : string) : string :=
  Rediz.DELAYED +:+ str delay_seconds +:+ ":" +:+ name.
Definition promise (name_of_copy : string) (delay_seconds : Z) (name : string) : string :=
  name_of_copy +:+ "->" +:+ delayed_name delay_seconds name.

(** The commands [_modify_page] queues for [name] and [value], given the
    random key it drew and the lifetime the cost model gave *)
Definition modify_cmds (self : Rediz.instance) (now : Z) (key name value : string)
    (ttl : Z) : list command :=
  let name_of_copy := key +:+ ":" +:+ name in
  [SET name value (Some ttl);
   SET name_of_copy value (Some (Z.min (Z.max (2 * 60 * 60) ttl) (60 * 60 * 24)))]
  ++ (if Rediz.has_xadd self
      then [XADD (Rediz.HISTORY +:+ name) {["copy" := name_of_copy]}] else [])
  ++ flat_map (fun delay_seconds =>
                 [SADD (promise_bucket (now + delay_seconds))
                       [promise name_of_copy delay_seconds name];
                  EXPIRE (promise_bucket (now + delay_seconds)) (delay_seconds + 60)])
              (Rediz.DELAY_SECONDS self).


(** A string as [uuid.uuid4()] prints one: 36 characters, each a lower-case
    hexadecimal digit or a dash *)
Definition uuid_char (c : ascii) : bool :=
  is_digit c || ((97 <=? nat_of_ascii c)%nat && (nat_of_ascii c <=? 102)%nat)
  || Ascii.eqb c "-"%char.

Definition is_uuid (s : string) : bool :=
  Nat.eqb (String.length s) uuid_length && all_chars uuid_char s.

(** The keys a command may change *)
Definition writes (c : command) : list string :=
  match c with
  | SET k _ _ | HSET k _ _ | HDEL k _ | SADD k _ | SREM k _ | EXPIRE k _ | XADD k _ => [k]
  | MSET kvs => map fst kvs
  | DEL ks => ks
  | GET _ | MGET _ | HEXISTS _ _ | HMGET _ _ | SMEMBERS _ | EXISTS _ | INVALID => []
  end.

(* ================================================================== *)
(** * Vocabulary of the proofs *)

(** The intent [_modify_page] writes into the shared dict *)
Definition modify_intent (ndx : nat) (n : string) (value : option string)
    (ttl_days : Q) (copy : string) : dict :=
  mkdict [("ndx", PInt (Z.of_nat ndx)); ("name", PStr n); ("value", opt value);
          ("ttl_days", PFloat ttl_days); ("new", PBool false);
          ("obscure", PBool false); ("copy", PStr copy)].

(** How one input changes the variables of a phase: it is executed, or
    rejected, or left for the next phase. *)
Inductive disposed (ndx : nat) (st : Rediz.phase) : Rediz.phase -> Prop :=
| disposed_executed p intent : disposed ndx st (Rediz.add_executed p intent st)
| disposed_rejected r : disposed ndx st (Rediz.add_rejected r st)
| disposed_ignored : disposed ndx st (Rediz.add_ignored ndx st).

(** The outcome of a phase on at most one input: what went where. *)
Definition one_way (inputs : list nat * list (option string) * list (option string) *
                             list (option string))
    (out : Rediz.phase_output) : Prop :=
  let '(ex, rj, ig, ns, vs, ks) := out in
  (rj = [] /\ ig = [] /\ ns = [] /\ vs = [] /\ ks = []) \/
  (ex = [] /\ ig = [] /\ ns = [] /\ vs = [] /\ ks = []) \/
  (ex = [] /\ rj = [] /\ (ig, ns, vs, ks) = inputs).






(** The buckets [admin_promises] looks at *)
Definition scanned (now lookback : Z) : list string :=
  map (fun seconds => promise_bucket (now - seconds)) (Rediz.range lookback).

(** The promises [admin_promises] collects from the buckets it looks at *)
Definition matured `{PyEnv} (now lookback : Z) (d : gmap string entry) : list string :=
  flat_map (fun c => set_order (members now d c)) (scanned now lookback).

(** The shared intent dict names the page that was modified last. *)
Definition names_page (n v : string) (d : dict) : Prop :=
  d !! "name" = Some (PStr n) /\ d !! "value" = Some (PStr v).

(** B's mailbox holds [v] under [A]. *)
Definition delivered (now : Z) (A B v : string) (d : gmap string entry) : Prop :=
  exists h ex,
    d !! (Rediz.MESSAGES +:+ B) = Some (Entry (VHash h) ex) /\
    expired now (Entry (VHash h) ex) = false /\ h !! A = Some v.

(** The store after a write of [v] to [n] was accepted: the ownership
    records of a new name, the page, the fan-out. *)
Definition page_written `{PyEnv} (self : Rediz.instance) (now : Z) (n v : string)
    (d0 d1 : gmap string entry) : Prop :=
  exists key pre fan,
    is_uuid key = true /\
    Forall (fun c => forall k, k ∈ writes c -> k = Rediz.OWNERSHIP \/ k = Rediz.NAMES) pre /\
    Forall (fun c => forall k, k ∈ writes c -> exists s, k = Rediz.MESSAGES +:+ s) fan /\
    d1 = snd (run now fan
                (snd (run now (modify_cmds self now key n v (ttl_seconds (getsizeof (Some v))))
                        (snd (run now pre d0))))).





(** The commands that register the promise for one delay *)
Definition register_cmds (now : Z) (copy n : string) (delay_seconds : Z) : list command :=
  [SADD (promise_bucket (now + delay_seconds)) [promise copy delay_seconds n];
   EXPIRE (promise_bucket (now + delay_seconds)) (delay_seconds + 60)].

(** The second half of [admin_promises]: what it does with the promises it
    has collected from the buckets *)
Definition keep_promises (now : Z) (individual_promises : list string) : M Z :=
  '(sources, destinations) <-
    for_each individual_promises
      (fun acc promise =>
         '(source, destination) <- lift (Rediz.parse_promise promise) ;;
         ret (fst acc ++ [source], snd acc ++ [destination]))
      ([], []) ;;
  source_values <- match sources with
                   | [] => raise TypeError
                   | _ => r <- call now (MGET sources) ;; ret (as_list r)
                   end ;;
  let mapping := Rediz.dict_of_pairs (zip destinations (map as_opt source_values)) in
  _ <- call now (mset_cmd (map_to_list mapping)) ;;
  ret (Z.of_nat (size mapping)).

(* ================================================================== *)
(** * An interpreter and a server to run examples with

    Objects have the size of a CPython [str] of one-byte characters (49 bytes
    and one per character), [None] 16; the random keys differ in their last
    digit; a set is iterated in the order of [elements]. *)

Definition demo_key (i : nat) : string :=
  "00000000-0000-4000-8000-00000000000" +:+
  match (i mod 10)%nat with
  | 0 => "0" | 1 => "1" | 2 => "2" | 3 => "3" | 4 => "4"
  | 5 => "5" | 6 => "6" | 7 => "7" | 8 => "8" | _ => "9"
  end%nat.

Definition demo_env : PyEnv :=
  {| getsizeof := fun v => match v with
                           | Some s => 49 + Z.of_nat (String.length s)
                           | None => 16
                           end;
     getsizeof_nonneg := fun v =>
       match v with
       | Some s => Z.add_nonneg_nonneg 49 _ (Z.lt_le_incl 0 49 eq_refl) (Nat2Z.is_nonneg _)
       | None => Z.lt_le_incl 0 16 eq_refl
       end;
     random_keys := demo_key;
     set_order := elements;
     set_order_perm := fun X => reflexivity _ |}.

(** A server that draws the first members of the set in the order of
    [elements], and the first one again and again when members may repeat *)
Definition demo_sampler : Sampler.
Proof.
  refine {| sample := fun _ S n => take n (elements S);
            sample_with_repeats := fun _ S n =>
              match elements S with
              | [] => []
              | x :: _ => replicate n x
              end |}.
  - intros _ S n x Hx. apply elem_of_elements. revert Hx. apply subseteq_take.
  - intros _ S n. apply (sublist_NoDup _ (elements S)); [apply NoDup_elements | apply sublist_take].
  - intros _ S n. rewrite length_take. reflexivity.
  - intros _ S n x Hx. apply elem_of_elements.
    destruct (elements S) as [| y l]; [inversion Hx |].
    apply elem_of_replicate in Hx as [-> _]. left.
  - intros _ S n HS. destruct (elements S) as [| y l] eqn:E.
    + apply elements_empty_inv in E. apply leibniz_equiv in E. contradiction.
    + apply length_replicate.
Defined.

(** A client with the default delays on a real server *)
Definition demo : Rediz.instance := Rediz.init None true.

Definition key_a : string := "aaaaaaaa-aaaa-4aaa-8aaa-aaaaaaaaaaaa".
Definition key_b : string := "bbbbbbbb-bbbb-4bbb-8bbb-bbbbbbbbbbbb".


(** A value of 100,000 characters *)
Definition big_value : string := string_of_list_ascii (repeat "x"%char (100 * 1000)).

(** ** Scenes *)

(** The result of a computation that returned *)
Definition returned {A : Type} (dflt : A) (r : res A) : A :=
  match r with
  | Ok a => a
  | Raise _ => dflt
  end.

(** A server on which [a.json] belongs to [key_a] *)
Definition owned_ledger : gmap string string := {["a.json" := key_a]}.
Definition owned_world : world :=
  World {[Rediz.OWNERSHIP := Entry (VHash owned_ledger) None]} 0 {[Rediz.default_intent := ∅]}.

(** The first write of [a.json], at time 1000 on an empty server *)
Definition first_write : res Rediz.set_result * world :=
  @Rediz.set demo_env demo 1000 None None None (Some "a.json") (Some "v1") (Some key_a)
             Rediz.fresh_world.

(** [b.json] subscribes to [a.json] at time 900, on a server that has it
    and on an empty one *)
Definition subscribed_world : world :=
  snd (Rediz._subscribe 900 "a.json" "b.json" owned_world).
Definition early_subscriber_world : world :=
  snd (Rediz._subscribe 900 "a.json" "b.json" Rediz.fresh_world).

(** A write of [a.json] by its owner at time 1000 *)
Definition owner_write (w : world) : res Rediz.set_result * world :=
  @Rediz.set demo_env demo 1000 None None None (Some "a.json") (Some "v1") (Some key_a) w.

(** A singular write to a name with a space in it *)
Definition bad_name_write : res Rediz.execution_log * world :=
  @Rediz._set demo_env demo 1000 (Some [Some "a b.json"]) (Some [Some "v1"])
              (Some [Some key_a]) None None None Rediz.fresh_world.


(** ** Further vocabulary and scenes *)

(** A key that GET can read: it is absent or holds a string. *)
Definition string_or_absent (now : Z) (d : gmap string entry) (k : string) : Prop :=
  match live now d k with
  | None => True
  | Some (Entry (VString _) _) => True
  | Some _ => False
  end.

(** The keys [_delete] may change for a name *)
Definition delete_keys (n : string) : list string :=
  [Rediz.MESSAGES +:+ n; Rediz.OWNERSHIP; Rediz.SUBSCRIBERS +:+ n; n;
   Rediz.HISTORY +:+ n; Rediz.NAMES].

(** The last pipeline of [_delete] *)
Definition delete_cmds (names : list string) : list command :=
  [HDEL Rediz.OWNERSHIP names;
   DEL (map (fun name => Rediz.SUBSCRIBERS +:+ name) names);
   DEL (map (fun name => Rediz.MESSAGES +:+ name) names);
   DEL names;
   DEL (map (fun name => Rediz.HISTORY +:+ name) names);
   SREM Rediz.NAMES names].

(** The owner deletes [a.json] a second after the first write *)
Definition owner_delete : res unit * world :=
  @Rediz.delete demo_env 1001 (Some "a.json") (Some key_a) None None (snd first_write).

(** The default [fraction], 0.01 as a float *)
Definition default_fraction : Q := Float.fl (1 # 100).

(** A garbage collection a week after the first write, when the page has
    expired, and one a second after it *)
Definition late_collection : res Z * world :=
  @Rediz.admin_garbage_collection demo_env demo_sampler (1000 + 604800) default_fraction
    (snd first_write).
Definition early_collection : res Z * world :=
  @Rediz.admin_garbage_collection demo_env demo_sampler 1001 default_fraction (snd first_write).

(** A computation that leaves the server as it is, whatever it returns or
    raises *)
Definition keeps_redis {A : Type} (m : M A) : Prop :=
  forall w, redis (snd (m w)) = redis w.

(** A write of [a.json] with a key that is not its owner's *)
Definition intruder_write : res Rediz.execution_log * world :=
  @Rediz._set demo_env demo 1000 (Some [Some "a.json"]) (Some [Some "v2"])
              (Some [Some key_b]) None None None owned_world.

(** Every intent is the dict that is the default of [_modify_page]. *)
Definition shared (intents : list nat) : Prop :=
  Forall (fun i => i = Rediz.default_intent) intents.

(** The records of a batch that returned *)
Definition batch_of (r : res Rediz.set_result) : list dict :=
  match r with
  | Ok (Rediz.Batch l) => l
  | _ => []
  end.

(** A batch of two names for two owners, on an empty server *)
Definition batch_write : res Rediz.set_result * world :=
  @Rediz.mset demo_env demo 1000 (Some [Some "a.json"; Some "b.json"])
    (Some [Some "v1"; Some "v2"]) (Some [Some key_a; Some key_b]) Rediz.fresh_world.

(** The entries of an intent that [_coerce_outputs] reads *)
Definition intent_fields (ndx : nat) (n key : string) (d : dict) : Prop :=
  d !! "ndx" = Some (PInt (Z.of_nat ndx)) /\ d !! "name" = Some (PStr n) /\
  d !! "write_key" = Some (PStr key).

(** No character of the string is a colon. *)
Definition no_colon (s : string) : bool :=
  all_chars (fun c => negb (Ascii.eqb c ":"%char)) s.

(** A write without a name and without a key, on an empty server *)
Definition anonymous_write : res Rediz.set_result * world :=
  @Rediz.set demo_env demo 1000 None None None None (Some "v1") None Rediz.fresh_world.

(* ================================================================== *)
(** * Properties *)

(** ** Floating point *)

Lemma round_div_cases (a b : Z) :
  0 < b -> Float.round_div a b = a / b \/ Float.round_div a b = a / b + 1.
Proof.
  intros Hb. unfold Float.round_div.
  destruct (2 * (a mod b) ?= b); [destruct (Z.even (a / b)) | |]; auto.
Qed.

Lemma round_div_range (a b lo hi : Z) :
  0 < b -> lo * b <= a -> a < hi * b -> lo <= Float.round_div a b <= hi.
Proof.
  intros Hb Hlo Hhi.
  assert (lo <= a / b) by (apply Z.div_le_lower_bound; lia).
  assert (a / b < hi) by (apply Z.div_lt_upper_bound; lia).
  destruct (round_div_cases a b Hb) as [-> | ->]; lia.
Qed.

Lemma round_div_mono (a1 b1 a2 b2 : Z) :
  0 < b1 -> 0 < b2 -> a1 * b2 <= a2 * b1 ->
  Float.round_div a1 b1 <= Float.round_div a2 b2.
Proof.
  intros Hb1 Hb2 Hle.
  pose proof (Z.div_mod a1 b1 ltac:(lia)) as E1.
  pose proof (Z.div_mod a2 b2 ltac:(lia)) as E2.
  pose proof (Z.mod_pos_bound a1 b1 Hb1) as R1.
  pose proof (Z.mod_pos_bound a2 b2 Hb2) as R2.
  set (q1 := a1 / b1) in *. set (q2 := a2 / b2) in *.
  set (r1 := a1 mod b1) in *. set (r2 := a2 mod b2) in *.
  assert (Hq : q1 <= q2).
  { destruct (Z_le_gt_dec q1 q2) as [|Hgt]; [assumption | exfalso].
    assert (b1 * (q2 + 1) <= a1) by nia.
    assert (a2 < b2 * (q2 + 1)) by nia.
    assert (a2 * b1 < b2 * (q2 + 1) * b1) by (apply Z.mul_lt_mono_pos_r; lia).
    assert (b1 * (q2 + 1) * b2 <= a1 * b2) by (apply Z.mul_le_mono_nonneg_r; lia).
    lia. }
  destruct (Z.eq_dec q1 q2) as [Heq | Hne].
  - assert (Hr : r1 * b2 <= r2 * b1) by nia.
    unfold Float.round_div. fold q1 q2 r1 r2. rewrite <- Heq.
    destruct (Z.compare_spec (2 * r1) b1) as [T1 | T1 | T1];
      destruct (Z.compare_spec (2 * r2) b2) as [T2 | T2 | T2];
      try destruct (Z.even q1); try lia; nia.
  - destruct (round_div_cases a1 b1 Hb1) as [-> | ->];
      destruct (round_div_cases a2 b2 Hb2) as [-> | ->]; fold q1 q2; lia.
Qed.

Open Scope Q_scope.

Lemma two_pow_pos (e : Z) : 0 < 2 ^ e.
Proof. apply Qpower_0_lt. reflexivity. Qed.

Lemma two_pow_Z (e : Z) : (0 <= e)%Z -> inject_Z (2 ^ e) == 2 ^ e.
Proof. intros He. now rewrite Zpower_Qpower. Qed.

Lemma two_pow_opp (e : Z) : 2 ^ (- e) * 2 ^ e == 1.
Proof.
  rewrite Qpower_opp. field. intros H0. pose proof (two_pow_pos e) as Hp.
  rewrite H0 in Hp. discriminate.
Qed.

Lemma two_pow_succ (e : Z) : 2 ^ (e + 1) == 2 * 2 ^ e.
Proof. rewrite Qpower_plus by discriminate. rewrite Qpower_1_r. ring. Qed.

Lemma two_pow_le (e1 e2 : Z) : (e1 <= e2)%Z -> 2 ^ e1 <= 2 ^ e2.
Proof. intros H. apply Qpower_le_compat_l; [assumption | discriminate]. Qed.

(** [scaled a b e] is the fraction (a/b) / 2^e. *)
Lemma scaled_spec (a b e n d : Z) :
  (0 < b)%Z -> Float.scaled a b e = (n, d) ->
  (0 < d)%Z /\ inject_Z n * inject_Z b * 2 ^ e == inject_Z a * inject_Z d.
Proof.
  intros Hb. unfold Float.scaled. destruct (Z.leb_spec 0 e) as [He | He]; intros [= <- <-].
  - split; [apply Z.mul_pos_pos; [assumption | apply Z.pow_pos_nonneg; lia] |].
    rewrite inject_Z_mult, two_pow_Z by assumption. ring.
  - split; [assumption |].
    rewrite inject_Z_mult, two_pow_Z by lia.
    transitivity (inject_Z a * inject_Z b * (2 ^ (- e) * 2 ^ e)); [ring |].
    rewrite two_pow_opp. ring.
Qed.

Lemma inject_Z_pos (z : Z) : (0 < z)%Z -> 0 < inject_Z z.
Proof. intros H. change 0 with (inject_Z 0). now rewrite <- Zlt_Qlt. Qed.

Lemma log2_bounds (a : Z) :
  (0 < a)%Z -> 2 ^ (Z.log2 a) <= inject_Z a /\ inject_Z a < 2 * 2 ^ (Z.log2 a).
Proof.
  intros Ha. destruct (Z.log2_spec a Ha) as [H1 H2].
  pose proof (Z.log2_nonneg a) as Hn.
  rewrite <- two_pow_succ, <- !two_pow_Z by lia.
  split; [now rewrite <- Zle_Qle | now rewrite <- Zlt_Qlt].
Qed.

(** The exponent puts the significand between 2^52 and 2^53. *)
Lemma exponent_spec (a b : Z) :
  (0 < a)%Z -> (0 < b)%Z ->
  let e := Float.exponent a b in
  2 ^ 52 * inject_Z b * 2 ^ e <= inject_Z a /\ inject_Z a < 2 ^ 53 * inject_Z b * 2 ^ e.
Proof.
  intros Ha Hb. unfold Float.exponent, Float.prec.
  set (e0 := (Z.log2 a - Z.log2 b - 53)%Z).
  destruct (Float.scaled a b e0) as [n d] eqn:Hs.
  destruct (scaled_spec _ _ _ _ _ Hb Hs) as [Hd Hnd].
  destruct (log2_bounds a Ha) as [A1 A2]. destruct (log2_bounds b Hb) as [B1 B2].
  assert (HP : 2 ^ e0 * 2 ^ Z.log2 b * 2 ^ 53 == 2 ^ Z.log2 a).
  { rewrite <- !Qpower_plus by discriminate. f_equiv. unfold e0. lia. }
  pose proof (two_pow_pos e0) as P0. pose proof (two_pow_pos (Z.log2 b)) as PB.
  pose proof (inject_Z_pos _ Hd) as D0. pose proof (inject_Z_pos _ Hb) as B0.
  set (A := inject_Z a) in *. set (B := inject_Z b) in *.
  set (N := inject_Z n) in *. set (D := inject_Z d) in *.
  set (P := 2 ^ e0) in *. set (L := 2 ^ Z.log2 b) in *.
  rewrite <- HP in A1, A2. clear HP.
  change (2 ^ 53) with (9007199254740992 # 1) in *.
  change (2 ^ 52) with (4503599627370496 # 1) in *.
  assert (Hlo : (4503599627370496 # 1) * B * P < A) by nra.
  assert (Hhi : A < (18014398509481984 # 1) * B * P) by nra.
  change (2 ^ 53)%Z with 9007199254740992%Z.
  destruct (Z.ltb_spec n (9007199254740992 * d)) as [Hlt | Hge].
  - fold P. split; [apply Qlt_le_weak; assumption |].
    rewrite Zlt_Qlt, inject_Z_mult in Hlt. fold N D in Hlt.
    change (inject_Z 9007199254740992) with (9007199254740992 # 1) in Hlt.
    nra.
  - rewrite two_pow_succ. fold P.
    rewrite Zle_Qle, inject_Z_mult in Hge. fold N D in Hge.
    change (inject_Z 9007199254740992) with (9007199254740992 # 1) in Hge.
    split; nra.
Qed.

Lemma dyadic_spec (m e : Z) : Float.dyadic m e == inject_Z m * 2 ^ e.
Proof.
  unfold Float.dyadic. destruct (Z.leb_spec 0 e) as [He | He].
  - now rewrite inject_Z_mult, two_pow_Z.
  - rewrite Qred_correct, Qmake_Qdiv.
    assert (Hp : (0 < 2 ^ (- e))%Z) by (apply Z.pow_pos_nonneg; lia).
    rewrite Z2Pos.id by assumption. rewrite two_pow_Z by lia.
    pose proof (two_pow_opp e) as Ho. pose proof (two_pow_pos (- e)) as Hq.
    field_simplify_eq; [| intros H0; rewrite H0 in Hq; discriminate].
    rewrite <- (Qmult_1_r (inject_Z m)) at 1. rewrite <- Ho. ring.
Qed.

(** The rounded value as significand and exponent *)
Lemma fl_pos_spec (a b : Z) :
  (0 < a)%Z -> (0 < b)%Z ->
  exists m n d : Z,
    Float.scaled a b (Float.exponent a b) = (n, d) /\
    m = Float.round_div n d /\
    (2 ^ 52 <= m <= 2 ^ 53)%Z /\
    Float.fl_pos a b == inject_Z m * 2 ^ Float.exponent a b.
Proof.
  intros Ha Hb. unfold Float.fl_pos.
  destruct (exponent_spec a b Ha Hb) as [Hlo Hhi].
  destruct (Float.scaled a b (Float.exponent a b)) as [n d] eqn:Hs.
  destruct (scaled_spec _ _ _ _ _ Hb Hs) as [Hd Hnd].
  exists (Float.round_div n d), n, d.
  split; [reflexivity |]. split; [reflexivity |]. split; [| apply dyadic_spec].
  pose proof (two_pow_pos (Float.exponent a b)) as P0.
  pose proof (inject_Z_pos _ Hd) as D0. pose proof (inject_Z_pos _ Hb) as B0.
  apply round_div_range; [assumption | |].
  - rewrite Zle_Qle, inject_Z_mult. change (inject_Z (2 ^ 52)) with (2 ^ 52). nra.
  - rewrite Zlt_Qlt, inject_Z_mult. change (inject_Z (2 ^ 53)) with (2 ^ 53). nra.
Qed.

Lemma fl_pos_positive (a b : Z) : (0 < a)%Z -> (0 < b)%Z -> 0 < Float.fl_pos a b.
Proof.
  intros Ha Hb. destruct (fl_pos_spec a b Ha Hb) as (m & n & d & _ & _ & [Hm _] & ->).
  apply Qmult_lt_0_compat; [apply inject_Z_pos; lia | apply two_pow_pos].
Qed.

Lemma fl_pos_mono (a1 b1 a2 b2 : Z) :
  (0 < a1)%Z -> (0 < b1)%Z -> (0 < a2)%Z -> (0 < b2)%Z ->
  (a1 * b2 <= a2 * b1)%Z -> Float.fl_pos a1 b1 <= Float.fl_pos a2 b2.
Proof.
  intros Ha1 Hb1 Ha2 Hb2 Hle.
  destruct (fl_pos_spec a1 b1 Ha1 Hb1) as (m1 & n1 & d1 & Hs1 & Hm1 & Hr1 & ->).
  destruct (fl_pos_spec a2 b2 Ha2 Hb2) as (m2 & n2 & d2 & Hs2 & Hm2 & Hr2 & ->).
  destruct (exponent_spec a1 b1 Ha1 Hb1) as [Lo1 Hi1].
  destruct (exponent_spec a2 b2 Ha2 Hb2) as [Lo2 Hi2].
  destruct (scaled_spec _ _ _ _ _ Hb1 Hs1) as [Hd1 Hnd1].
  destruct (scaled_spec _ _ _ _ _ Hb2 Hs2) as [Hd2 Hnd2].
  set (e1 := Float.exponent a1 b1) in *. set (e2 := Float.exponent a2 b2) in *.
  pose proof (two_pow_pos e1) as P1. pose proof (two_pow_pos e2) as P2.
  pose proof (inject_Z_pos _ Hb1) as B1. pose proof (inject_Z_pos _ Hb2) as B2.
  pose proof (inject_Z_pos _ Hd1) as D1. pose proof (inject_Z_pos _ Hd2) as D2.
  rewrite Zle_Qle, !inject_Z_mult in Hle.
  assert (M1 : inject_Z m1 <= 2 ^ 53)
    by (change (2 ^ 53) with (inject_Z (2 ^ 53)); rewrite <- Zle_Qle; lia).
  assert (M2 : 2 ^ 52 <= inject_Z m2)
    by (change (2 ^ 52) with (inject_Z (2 ^ 52)); rewrite <- Zle_Qle; lia).
  change (2 ^ 52) with (4503599627370496 # 1) in *.
  change (2 ^ 53) with (9007199254740992 # 1) in *.
  destruct (Z.lt_trichotomy e1 e2) as [Hlt | [Heq | Hgt]].
  - pose proof (two_pow_le (e1 + 1) e2 ltac:(lia)) as Hp. rewrite two_pow_succ in Hp.
    nra.
  - rewrite <- Heq in *.
    assert (Hm : (m1 <= m2)%Z).
    { subst m1 m2. apply round_div_mono; try assumption.
      rewrite Zle_Qle, !inject_Z_mult.
      set (A1 := inject_Z a1) in *. set (A2 := inject_Z a2) in *.
      set (N1 := inject_Z n1) in *. set (N2 := inject_Z n2) in *.
      set (X1 := inject_Z b1) in *. set (X2 := inject_Z b2) in *.
      set (Y1 := inject_Z d1) in *. set (Y2 := inject_Z d2) in *.
      set (P := 2 ^ e1) in *.
      assert (E1 : N1 * Y2 * (X1 * X2 * P) == A1 * X2 * (Y1 * Y2)).
      { setoid_replace (N1 * Y2 * (X1 * X2 * P)) with ((N1 * X1 * P) * (Y2 * X2)) using relation Qeq by ring.
        rewrite Hnd1. ring. }
      assert (E2 : N2 * Y1 * (X1 * X2 * P) == A2 * X1 * (Y1 * Y2)).
      { setoid_replace (N2 * Y1 * (X1 * X2 * P)) with ((N2 * X2 * P) * (Y1 * X1)) using relation Qeq by ring.
        rewrite Hnd2. ring. }
      assert (E : N1 * Y2 * (X1 * X2 * P) <= N2 * Y1 * (X1 * X2 * P)).
      { rewrite E1, E2. apply Qmult_le_compat_r; [assumption | nra]. }
      apply Qmult_le_r in E; [assumption | nra]. }
    rewrite Zle_Qle in Hm. nra.
  - exfalso. pose proof (two_pow_le (e2 + 1) e1 ltac:(lia)) as Hp.
    rewrite two_pow_succ in Hp.
    set (A1 := inject_Z a1) in *. set (A2 := inject_Z a2) in *.
    set (X1 := inject_Z b1) in *. set (X2 := inject_Z b2) in *.
    set (Q1 := 2 ^ e1) in *. set (Q2 := 2 ^ e2) in *.
    assert (A2 * X1 < A1 * X2); [| lra].
    apply Qlt_le_trans with ((9007199254740992 # 1) * X2 * Q2 * X1).
    { apply Qmult_lt_compat_r; assumption. }
    apply Qle_trans with ((4503599627370496 # 1) * X1 * Q1 * X2).
    { assert (X1 * X2 * (2 * Q2) <= X1 * X2 * Q1)
        by (apply Qmult_le_l; [nra | assumption]).
      lra. }
    apply Qmult_le_compat_r; [assumption | lra].
Qed.

Lemma fl_positive (q : Q) : 0 < q -> 0 < Float.fl q.
Proof.
  destruct q as [n d]. unfold Qlt. simpl. rewrite Z.mul_1_r. intros Hn.
  unfold Float.fl. simpl. destruct n as [| a | a]; try lia.
  apply fl_pos_positive; lia.
Qed.

Lemma fl_mono (q1 q2 : Q) : 0 < q1 -> q1 <= q2 -> Float.fl q1 <= Float.fl q2.
Proof.
  intros H1 Hle. assert (H2 : 0 < q2) by (eapply Qlt_le_trans; eassumption).
  destruct q1 as [n1 d1], q2 as [n2 d2]. unfold Qlt, Qle in *. simpl in *.
  rewrite Z.mul_1_r in H1, H2.
  unfold Float.fl. simpl. destruct n1 as [| a1 | a1], n2 as [| a2 | a2]; try lia.
  apply fl_pos_mono; lia.
Qed.

Open Scope Z_scope.

(** ** The cost model *)

Lemma of_int_positive (z : Z) : 0 < z -> (0 < Float.of_int z)%Q.
Proof. intros Hz. apply fl_positive, inject_Z_pos, Hz. Qed.

Lemma of_int_mono (z1 z2 : Z) : 0 < z1 -> z1 <= z2 -> (Float.of_int z1 <= Float.of_int z2)%Q.
Proof.
  intros H1 H2. apply fl_mono; [apply inject_Z_pos, H1 | now rewrite <- Zle_Qle].
Qed.

Lemma mul_positive (x y : Q) : (0 < x)%Q -> (0 < y)%Q -> (0 < Float.mul x y)%Q.
Proof. intros Hx Hy. apply fl_positive, Qmult_lt_0_compat; assumption. Qed.

Lemma mul_mono_l (c x y : Q) :
  (0 < c)%Q -> (0 < x)%Q -> (x <= y)%Q -> (Float.mul c x <= Float.mul c y)%Q.
Proof.
  intros Hc Hx Hxy. apply fl_mono; [apply Qmult_lt_0_compat; assumption |].
  apply Qmult_le_l; assumption.
Qed.

Lemma mul_mono_r (c x y : Q) :
  (0 < c)%Q -> (0 < x)%Q -> (x <= y)%Q -> (Float.mul x c <= Float.mul y c)%Q.
Proof.
  intros Hc Hx Hxy. apply fl_mono; [apply Qmult_lt_0_compat; assumption |].
  apply Qmult_le_r; assumption.
Qed.

Lemma div_positive (x y : Q) :
  (0 < x)%Q -> (0 < y)%Q -> exists q, Float.div x y = Ok q /\ (0 < q)%Q /\ q = Float.fl (x / y).
Proof.
  intros Hx Hy. unfold Float.div.
  destruct (Z.eqb_spec (Qnum y) 0) as [H0 | _].
  - exfalso. destruct y as [n d]. simpl in H0. subst n. discriminate Hy.
  - eexists. split; [reflexivity |]. split; [| reflexivity].
    apply fl_positive. apply Qlt_shift_div_l; [assumption |]. now rewrite Qmult_0_l.
Qed.

Lemma div_antitone (x y1 y2 : Q) :
  (0 < x)%Q -> (0 < y1)%Q -> (y1 <= y2)%Q -> (Float.fl (x / y2) <= Float.fl (x / y1))%Q.
Proof.
  intros Hx Hy1 Hle. assert (Hy2 : (0 < y2)%Q) by (eapply Qlt_le_trans; eassumption).
  apply fl_mono.
  - apply Qlt_shift_div_l; [assumption |]. now rewrite Qmult_0_l.
  - apply Qle_shift_div_l; [assumption |].
    apply Qle_trans with (x / y2 * y2)%Q.
    + apply Qmult_le_l; [| assumption].
      apply Qlt_shift_div_l; [assumption |]. now rewrite Qmult_0_l.
    + apply Qle_lteq. right. field. intros H0. rewrite H0 in Hy2. discriminate.
Qed.

Lemma ceil_positive (q : Q) : (0 < q)%Q -> 1 <= Float.ceil q.
Proof.
  intros Hq. unfold Float.ceil. pose proof (Qle_ceiling q) as Hc.
  assert (H : (0 < inject_Z (Qceiling q))%Q) by (eapply Qlt_le_trans; eassumption).
  change 0%Q with (inject_Z 0) in H. rewrite <- Zlt_Qlt in H. lia.
Qed.

Lemma credits_positive (n : Z) : 0 <= n -> (0 < credits_per_month n)%Q.
Proof.
  intros Hn. unfold credits_per_month.
  apply mul_positive; [apply mul_positive; [reflexivity | apply of_int_positive; lia] |].
  vm_compute. reflexivity.
Qed.

Lemma credits_mono (n1 n2 : Z) :
  0 <= n1 -> n1 <= n2 -> (credits_per_month n1 <= credits_per_month n2)%Q.
Proof.
  intros H1 H2. unfold credits_per_month.
  apply mul_mono_r; [vm_compute; reflexivity | |].
  - apply mul_positive; [reflexivity | apply of_int_positive; lia].
  - apply mul_mono_l; [reflexivity | apply of_int_positive; lia | apply of_int_mono; lia].
Qed.

Lemma ttl_seconds_bounds (n : Z) : 0 <= n -> 1 <= ttl_seconds n <= 604800.
Proof.
  intros Hn. unfold ttl_seconds. split; [| apply Z.le_min_r].
  apply Z.min_glb; [| lia]. apply ceil_positive, fl_positive.
  apply Qlt_shift_div_l; [apply credits_positive, Hn | reflexivity].
Qed.

Lemma ttl_seconds_antitone (n1 n2 : Z) :
  0 <= n1 -> n1 <= n2 -> ttl_seconds n2 <= ttl_seconds n1.
Proof.
  intros H1 H2. unfold ttl_seconds. apply Z.min_le_compat_r.
  apply Qceiling_resp_le, div_antitone;
    [reflexivity | apply credits_positive, H1 | apply credits_mono; assumption].
Qed.

Section CostModel.
Context `{PyEnv}.

(** [cost_based_ttl] never raises, and its first component is [ttl_seconds]
    of the size of the value. *)
Lemma cost_based_ttl_seconds (v : option string) :
  exists d, cost_based_ttl v = Ok (ttl_seconds (getsizeof v), d).
Proof.
  unfold cost_based_ttl.
  change (Float.div (Float.mul (inject_Z 1) (inject_Z 10000))
                    (Float.of_int (10 * 1000 * 1000)))
    with (Ok COST_PER_MONTH_1b).
  cbn [mbind res_mbind res_bind].
  fold (credits_per_month (getsizeof v)).
  destruct (div_positive (Float.mul (Float.mul (Float.mul (inject_Z 60) (inject_Z 60))
                                               (inject_Z 24)) (inject_Z 30))
                         (credits_per_month (getsizeof v)))
    as (q & -> & _ & ->); [reflexivity | apply credits_positive, getsizeof_nonneg |].
  cbn [mbind res_mbind res_bind].
  change (Float.to_int _) with 604800.
  change (Float.mul (Float.mul (Float.mul (inject_Z 60) (inject_Z 60))
                               (inject_Z 24)) (inject_Z 30)) with (inject_Z 2592000).
  fold (ttl_seconds (getsizeof v)).
  destruct (div_positive (Float.of_int (ttl_seconds (getsizeof v)))
              (Float.mul (Float.mul (inject_Z 60) (inject_Z 60)) (inject_Z 24)))
    as (d & -> & _ & _).
  - apply of_int_positive. pose proof (ttl_seconds_bounds _ (getsizeof_nonneg v)). lia.
  - reflexivity.
  - exists d. reflexivity.
Qed.
End CostModel.

(** C6. [cost_based_ttl] returns for every value; the lifetime in seconds is
    at most a week, 604800, and of two values the one that is not larger gets
    a lifetime that is not shorter. *)
Theorem cost_based_ttl_capped_antitone `{PyEnv} (v1 v2 : option string) :
  getsizeof v1 <= getsizeof v2 ->
  exists t1 d1 t2 d2,
    cost_based_ttl v1 = Ok (t1, d1) /\ cost_based_ttl v2 = Ok (t2, d2) /\
    t1 <= 604800 /\ t2 <= 604800 /\ t2 <= t1.
Proof.
  intros Hle.
  destruct (cost_based_ttl_seconds v1) as [d1 H1].
  destruct (cost_based_ttl_seconds v2) as [d2 H2].
  exists (ttl_seconds (getsizeof v1)), d1, (ttl_seconds (getsizeof v2)), d2.
  pose proof (getsizeof_nonneg v1) as Hn1. pose proof (getsizeof_nonneg v2) as Hn2.
  repeat split; try assumption.
  - apply ttl_seconds_bounds, Hn1.
  - apply ttl_seconds_bounds, Hn2.
  - apply ttl_seconds_antitone; assumption.
Qed.

Open Scope string_scope. Open Scope list_scope. Open Scope nat_scope.

(** ** Strings *)

Lemma str_app_cons (c : ascii) (s t : string) : String c s +:+ t = String c (s +:+ t).
Proof. reflexivity. Qed.

Lemma str_app_nil_l (s : string) : EmptyString +:+ s = s.
Proof. reflexivity. Qed.

Lemma str_app_nil_r (s : string) : s +:+ EmptyString = s.
Proof. induction s as [|c s IH]; [reflexivity | now rewrite str_app_cons, IH]. Qed.

Lemma str_app_assoc (a b c : string) : (a +:+ b) +:+ c = a +:+ (b +:+ c).
Proof. induction a as [|x a IH]; [reflexivity | now rewrite !str_app_cons, IH]. Qed.

Lemma str_app_length (a b : string) :
  String.length (a +:+ b) = String.length a + String.length b.
Proof. induction a as [|x a IH]; [reflexivity | rewrite str_app_cons; simpl; now rewrite IH]. Qed.

Lemma all_chars_app (p : ascii -> bool) (a b : string) :
  all_chars p (a +:+ b) = all_chars p a && all_chars p b.
Proof.
  induction a as [|x a IH]; [reflexivity |].
  rewrite str_app_cons. simpl. rewrite IH. now rewrite andb_assoc.
Qed.

(** ** The regular expression of names *)

Lemma stem_class_spec (c : ascii) : class_mem stem_class c = stem_char c.
Proof. destruct c as [[] [] [] [] [] [] [] []]; reflexivity. Qed.

Lemma suffix_class_spec (c : ascii) : class_mem suffix_class c = suffix_char c.
Proof. destruct c as [[] [] [] [] [] [] [] []]; reflexivity. Qed.

Section Repetition.
Variable items : list class_item.

Lemma repeat_opt_spec (extra : nat) (s : string) (k : string -> bool) :
  repeat_opt (matchk (Rclass items)) extra s k = true <->
  exists p r, s = p +:+ r /\ String.length p <= extra /\ all_chars (class_mem items) p = true /\ k r = true.
Proof.
  revert s. induction extra as [|e IH]; intros s; simpl.
  - split.
    + intros Hk. exists EmptyString, s. repeat split; auto.
    + intros (p & r & -> & Hl & _ & Hk). destruct p; [assumption | simpl in Hl; lia].
  - rewrite orb_true_iff. split.
    + intros [Hm | Hk].
      * simpl in Hm. destruct s as [|c s]; [discriminate |].
        apply andb_true_iff in Hm as [Hc Hrest].
        apply IH in Hrest as (p & r & -> & Hl & Hp & Hk).
        exists (String c p), r. repeat split; simpl; try lia; auto.
        simpl. now rewrite Hc.
      * exists EmptyString, s. repeat split; simpl; try lia; auto.
    + intros (p & r & -> & Hl & Hp & Hk). destruct p as [|c p].
      * right. assumption.
      * left. rewrite str_app_cons. simpl.
        simpl in Hp. apply andb_true_iff in Hp as [Hc Hp].
        rewrite Hc. simpl. apply IH. exists p, r. repeat split; auto.
        simpl in Hl. lia.
Qed.

Lemma repeat_req_spec (lo extra : nat) (s : string) (k : string -> bool) :
  repeat_req (matchk (Rclass items)) lo extra s k = true <->
  exists p r, s = p +:+ r /\ lo <= String.length p <= lo + extra /\
              all_chars (class_mem items) p = true /\ k r = true.
Proof.
  revert s. induction lo as [|l IH]; intros s; simpl.
  - rewrite repeat_opt_spec. split; intros (p & r & ? & ? & ? & ?);
      exists p, r; repeat split; auto; lia.
  - split.
    + intros Hm. simpl in Hm. destruct s as [|c s]; [discriminate |].
      apply andb_true_iff in Hm as [Hc Hrest].
      apply IH in Hrest as (p & r & -> & Hl & Hp & Hk).
      exists (String c p), r. repeat split; simpl; try lia; auto.
      simpl. now rewrite Hc.
    + intros (p & r & -> & Hl & Hp & Hk). destruct p as [|c p]; [simpl in Hl; lia |].
      rewrite str_app_cons. simpl.
      simpl in Hp. apply andb_true_iff in Hp as [Hc Hp].
      rewrite Hc. simpl. apply IH. exists p, r. repeat split; auto; simpl in Hl; lia.
Qed.

Lemma plus_spec (s : string) (k : string -> bool) :
  matchk (Rplus (Rclass items)) s k = true <->
  exists p r, s = p +:+ r /\ 1 <= String.length p /\ all_chars (class_mem items) p = true /\ k r = true.
Proof.
  change (matchk (Rplus (Rclass items)) s k) with (repeat_req (matchk (Rclass items)) 1 (String.length s) s k).
  rewrite repeat_req_spec. split.
  - intros (p & r & ? & ? & ? & ?). exists p, r. repeat split; auto; lia.
  - intros (p & r & -> & ? & ? & ?). exists p, r. repeat split; auto; try lia.
    rewrite str_app_length. lia.
Qed.
End Repetition.

Lemma at_end_spec (s : string) :
  at_end s = true <-> s = EmptyString \/ s = String newline EmptyString.
Proof.
  destruct s as [|c [|d s]]; simpl.
  - tauto.
  - rewrite Ascii.eqb_eq. split; [intros ->; now right | intros [H | H]; congruence].
  - split; [discriminate | intros [H | H]; discriminate].
Qed.

Lemma all_chars_ext (p q : ascii -> bool) (s : string) :
  (forall c, p c = q c) -> all_chars p s = all_chars q s.
Proof. intros E. induction s as [|c s IH]; simpl; [reflexivity | now rewrite E, IH]. Qed.

(** What [is_valid_name] accepts *)
Lemma is_valid_name_spec (name : string) :
  is_valid_name name = true <->
  exists stem suffix tail,
    name = stem +:+ "." +:+ suffix +:+ tail /\
    1 <= String.length stem <= 200 /\ all_chars stem_char stem = true /\
    1 <= String.length suffix /\ all_chars suffix_char suffix = true /\
    (tail = EmptyString \/ tail = String newline EmptyString) /\
    contains "::" name = false.
Proof.
  unfold is_valid_name, re_match, name_regex.
  rewrite andb_true_iff, negb_true_iff.
  change (matchk (Rcat ?a ?b) ?s ?k) with (matchk a s (fun s' => matchk b s' k)).
  change (matchk (Rrepeat 1 200 (Rclass stem_class)))
    with (repeat_req (matchk (Rclass stem_class)) 1 199).
  rewrite repeat_req_spec. split.
  - intros [(stem & r & -> & Hl & Hstem & Hk) Hc].
    simpl in Hk. destruct r as [|c r]; [discriminate |].
    apply andb_true_iff in Hk as [Hdot Hk]. apply Ascii.eqb_eq in Hdot. subst c.
    change (repeat_req (matchk (Rclass suffix_class)) 1 (String.length r) r ?k)
      with (matchk (Rplus (Rclass suffix_class)) r k) in Hk.
    apply plus_spec in Hk as (suffix & tail & -> & Hs & Hsuf & Hend).
    rewrite andb_true_r in Hend. apply at_end_spec in Hend.
    exists stem, suffix, tail. repeat split; auto; try lia.
    + rewrite <- Hstem. apply all_chars_ext. intros c. symmetry. apply stem_class_spec.
    + rewrite <- Hsuf. apply all_chars_ext. intros c. symmetry. apply suffix_class_spec.
  - intros (stem & suffix & tail & -> & Hl & Hstem & Hs & Hsuf & Hend & Hc).
    split; [| assumption].
    exists stem, ("." +:+ suffix +:+ tail). repeat split; try lia.
    + rewrite <- Hstem. apply all_chars_ext. intros c. apply stem_class_spec.
    + change ("." +:+ suffix +:+ tail) with (String "." (suffix +:+ tail)).
      cbn [matchk]. rewrite Ascii.eqb_refl. cbn [andb].
      change (repeat_req (matchk (Rclass suffix_class)) 1 (String.length ?r) ?r ?k)
        with (matchk (Rplus (Rclass suffix_class)) r k).
      apply plus_spec. exists suffix, tail. repeat split; auto.
      * rewrite <- Hsuf. apply all_chars_ext. intros c. apply suffix_class_spec.
      * rewrite andb_true_r. apply at_end_spec. assumption.
Qed.

Open Scope string_scope. Open Scope list_scope. Open Scope Z_scope.

(** ** The monad *)

Lemma with_redis_same (w : world) : with_redis (redis w) w = w.
Proof. destruct w; reflexivity. Qed.

Lemma bind_ok {A B : Type} (m : M A) (f : A -> M B) (w w1 : world) (a : A) :
  m w = (Ok a, w1) -> bind m f w = f a w1.
Proof. intros E. unfold bind. now rewrite E. Qed.

Lemma bind_raise {A B : Type} (m : M A) (f : A -> M B) (w w1 : world) (e : exn) :
  m w = (Raise e, w1) -> bind m f w = (Raise e, w1).
Proof. intros E. unfold bind. now rewrite E. Qed.

Lemma bind_ok_inv {A B : Type} (m : M A) (f : A -> M B) (w w' : world) (b : B) :
  bind m f w = (Ok b, w') -> exists a w1, m w = (Ok a, w1) /\ f a w1 = (Ok b, w').
Proof.
  unfold bind. destruct (m w) as [[a | e] w1]; [eauto | discriminate].
Qed.

(** C9 (the code departs from the statement). [_unsubscribe] removes nothing:
    it reads the name [subsriber], which is not bound, so that every call
    raises NameError and leaves the world as it was. *)
Theorem unsubscribe_raises (now : Z) (publisher subscriber : string) (w : world) :
  Rediz._unsubscribe now publisher subscriber w = (Raise NameError, w).
Proof. reflexivity. Qed.

Lemma as_opt_opt (x : option string) : as_opt (opt x) = x.
Proof. destruct x; reflexivity. Qed.

Lemma hmget_one (now : Z) (w : world) (h : gmap string string) (name : string) :
  ledger now (redis w) = Some h ->
  call now (HMGET Rediz.OWNERSHIP [name]) w = (Ok (PList [opt (h !! name)]), w).
Proof.
  unfold ledger, call, pipe_execute, bind. simpl.
  destruct (live now (redis w) Rediz.OWNERSHIP) as [[[] ex] |]; try discriminate;
    intros [= <-]; simpl; rewrite with_redis_same; try reflexivity.
Qed.

(** C4 (the code departs from the statement). [delete] with a write key that
    is not the key on record for the name, or for a name the ledger does not
    have, is no silent no-op: the list of authorized names is empty, [_delete]
    is called without its argument, and TypeError is raised. The world is as
    it was. *)
Theorem delete_unauthorized_raises `{PyEnv} (now : Z) (w : world)
    (h : gmap string string) (name : string) (write_key : option string) :
  ledger now (redis w) = Some h ->
  write_key <> h !! name ->
  Rediz.delete now (Some name) write_key None None w = (Raise TypeError, w).
Proof.
  intros Hl Hne. unfold Rediz.delete, Rediz._are_valid_write_keys, Rediz._write_keys.
  cbn [Rediz.or_list hmget_cmd all_some].
  rewrite (bind_ok _ _ _ _ _ (bind_ok _ _ _ _ _ (bind_ok _ _ _ _ _ (hmget_one now w h name Hl)))).
  cbn. rewrite as_opt_opt. rewrite bool_decide_eq_false_2 by assumption. reflexivity.
Qed.

(** ** Pages *)

Lemma foldl_app_flat_map {A B : Type} (f : B -> list A) (l : list B) (acc : list A) :
  foldl (fun acc x => acc ++ f x) acc l = acc ++ flat_map f l.
Proof.
  revert acc. induction l as [|x l IH]; intros acc; simpl.
  - now rewrite app_nil_r.
  - now rewrite IH, <- app_assoc.
Qed.

Section Pages.
Context `{PyEnv}.
Variable self : Rediz.instance.
Variable now : Z.

(** What [_modify_page] leaves behind: the commands it queued, the random
    key it drew, the intent it wrote into the shared dict. *)
Lemma modify_page_spec (pipe : list command) (ndx : nat) (n : string)
    (value : option string) (intent : nat) (w : world) :
  exists ttl_days cmds,
    Rediz._modify_page self now pipe ndx (Some n) value intent w =
    (Ok (pipe ++ cmds, intent),
     with_heap (<[intent := dict_update
                   (modify_intent ndx n value ttl_days (random_keys (rng w) +:+ ":" +:+ n))
                   (default ∅ (heap w !! intent))]> (heap w))
               (with_rng (S (rng w)) w)) /\
    forall v, value = Some v ->
      cmds = modify_cmds self now (random_keys (rng w)) n v (ttl_seconds (getsizeof value)).
Proof.
  destruct (cost_based_ttl_seconds value) as [d Hd].
  set (ttl := ttl_seconds (getsizeof value)) in *.
  set (copy := random_keys (rng w) +:+ ":" +:+ n).
  exists d,
    ([set_cmd (Some n) value (Some ttl);
      set_cmd (Some copy) value (Some (Z.min (Z.max (2 * 60 * 60) ttl) (60 * 60 * 24)))]
     ++ (if Rediz.has_xadd self
         then [XADD (Rediz.HISTORY +:+ n) {["copy" := copy]}] else [])
     ++ flat_map (fun delay_seconds =>
                    [SADD (promise_bucket (now + delay_seconds))
                          [promise copy delay_seconds n];
                     EXPIRE (promise_bucket (now + delay_seconds)) (delay_seconds + 60)])
                 (Rediz.DELAY_SECONDS self)).
  split; [| intros v ->; reflexivity].
  unfold Rediz._modify_page.
  rewrite (bind_ok _ _ w w _ (f_equal (fun r => (r, w)) Hd)).
  cbn [bind random_key]. rewrite foldl_app_flat_map.
  unfold heap_update, ret. cbn [rng heap with_rng with_heap redis].
  fold copy. destruct (Rediz.has_xadd self); rewrite <- ?app_assoc; reflexivity.
Qed.
End Pages.

Section Phases.
Context `{PyEnv}.
Variable self : Rediz.instance.
Variable now : Z.

Lemma new_page_spec (pipe : list command) (ndx : nat) (n : string)
    (value write_key : option string) (w : world) :
  exists cmds w',
    Rediz._new_page self now pipe ndx (Some n) value write_key w =
    (Ok (pipe ++ [hset_cmd Rediz.OWNERSHIP (Some n) write_key; SADD Rediz.NAMES [n]] ++ cmds,
         Rediz.default_intent), w') /\
    redis w' = redis w /\ rng w' = S (rng w) /\
    forall v, value = Some v ->
      cmds = modify_cmds self now (random_keys (rng w)) n v (ttl_seconds (getsizeof value)).
Proof.
  destruct (cost_based_ttl_seconds value) as [d Hd].
  destruct (modify_page_spec self now
              (pipe ++ [hset_cmd Rediz.OWNERSHIP (Some n) write_key; SADD Rediz.NAMES [n]])
              ndx n value Rediz.default_intent w) as (td & cmds & Hm & Hc).
  exists cmds. eexists. unfold Rediz._new_page.
  rewrite (bind_ok _ _ w w _ (f_equal (fun r => (r, w)) Hd)).
  cbn beta iota. rewrite <- app_assoc. cbn [app].
  rewrite (bind_ok _ _ _ _ _ Hm). cbn [bind heap_update ret].
  rewrite <- app_assoc. cbn [app]. split; [reflexivity |].
  split; [reflexivity |]. split; [reflexivity | assumption].
Qed.

Lemma new_obscure_page_ok (pipe : list command) (ndx : nat) (n : string)
    (value write_key : option string) (w : world) :
  exists p w',
    Rediz._new_obscure_page self now pipe ndx (Some n) value write_key w =
    (Ok (p, Rediz.default_intent), w') /\ redis w' = redis w.
Proof.
  destruct (new_page_spec pipe ndx n value write_key w) as (cmds & w1 & Hn & Hr & _).
  unfold Rediz._new_obscure_page. rewrite (bind_ok _ _ _ _ _ Hn).
  cbn [bind heap_update ret]. do 2 eexists. split; [reflexivity | exact Hr].
Qed.

(** The first phase leaves the server alone until its pipeline is sent, and
    the only thing it raises is the TypeError of the message it builds for
    an invalid value. *)
Lemma obscure_body_cases (st : Rediz.phase) (ndx : nat)
    (name value write_key : option string) (w : world) :
  if is_valid_value value
  then exists st' w',
         Rediz.obscure_body self now st (ndx, (name, (value, write_key))) w = (Ok st', w') /\
         redis w' = redis w
  else Rediz.obscure_body self now st (ndx, (name, (value, write_key))) w =
       (Raise TypeError, w).
Proof.
  unfold Rediz.obscure_body. destruct (is_valid_value value); cbn [negb].
  2: { destruct value; reflexivity. }
  destruct name as [n |].
  - destruct (is_valid_name n); cbn [negb]; do 2 eexists; (split; [reflexivity |]); reflexivity.
  - assert (Hpage : forall k w0, exists st' w',
              bind (new_name <- random_name ;;
                    '(p, intent) <- Rediz._new_obscure_page self now (Rediz.pipe st) ndx
                                      (Some new_name) value k ;;
                    ret (Rediz.add_executed p intent st)) ret w0 = (Ok st', w') /\
              redis w' = redis w0).
    { intros k w0. unfold random_name, random_key, bind, ret.
      destruct (new_obscure_page_ok (Rediz.pipe st) ndx (random_keys (rng w0) +:+ ".json")
                  value k (with_rng (S (rng w0)) w0)) as (p & w' & Hp & Hr).
      rewrite Hp. do 2 eexists. split; [reflexivity | exact Hr]. }
    destruct write_key as [k |].
    + cbn [bind ret]. destruct (is_valid_key (Some k)); cbn [negb].
      * destruct (Hpage (Some k) w) as (st' & w' & Hp & Hr). exists st', w'.
        split; [| exact Hr]. rewrite <- Hp. unfold bind.
        destruct (random_name w) as [[a | e] w1]; [| reflexivity].
        destruct (Rediz._new_obscure_page _ _ _ _ _ _ _ w1) as [[[p i] | e] w2]; reflexivity.
      * do 2 eexists. split; reflexivity.
    + unfold random_key at 1. cbn [bind ret].
      destruct (is_valid_key _); cbn [negb].
      * destruct (Hpage (Some (random_keys (rng w))) (with_rng (S (rng w)) w))
          as (st' & w' & Hp & Hr). exists st', w'.
        split; [| exact Hr]. rewrite <- Hp. unfold bind.
        destruct (random_name _) as [[a | e] w1]; [| reflexivity].
        destruct (Rediz._new_obscure_page _ _ _ _ _ _ _ w1) as [[[p i] | e] w2]; reflexivity.
      * do 2 eexists. split; reflexivity.
Qed.

Lemma obscure_loop_raises (l : list (nat * (option string * (option string * option string))))
    (st : Rediz.phase) (w : world) :
  Exists (fun x => is_valid_value (fst (snd (snd x))) = false) l ->
  exists w', for_each l (Rediz.obscure_body self now) st w = (Raise TypeError, w') /\
             redis w' = redis w.
Proof.
  revert st w. induction l as [| [ndx [name [value wk]]] l IH]; intros st w Hex.
  - inversion Hex.
  - pose proof (obscure_body_cases st ndx name value wk w) as Hb.
    cbn [for_each]. destruct (is_valid_value value) eqn:Hv.
    + destruct Hb as (st' & w1 & Hb & Hr). rewrite (bind_ok _ _ _ _ _ Hb).
      inversion Hex as [? ? Hx | ? ? Ht]; subst; [cbn in Hx; congruence |].
      destruct (IH st' w1 Ht) as (w' & -> & Hr'). exists w'. split; [reflexivity | congruence].
    + rewrite (bind_raise _ _ _ _ _ Hb). eauto.
Qed.
End Phases.

(** C2 (the code departs from the statement). A batch with a value that
    [is_valid_value] refuses gets no rejection record for it: the message of
    the record is built by adding a [type] to a [str], so [set] raises
    TypeError for the whole batch. Nothing has been sent to the server by
    then. *)
Theorem oversize_value_aborts_batch `{PyEnv} (self : Rediz.instance) (now : Z) (w : world)
    (names values write_keys : list (option string)) (i : nat)
    (name value write_key : option string) :
  names !! i = Some name -> values !! i = Some value -> write_keys !! i = Some write_key ->
  is_valid_value value = false ->
  exists w',
    Rediz.set self now (Some names) (Some values) (Some write_keys) None None None w =
    (Raise TypeError, w') /\ redis w' = redis w.
Proof.
  intros Hn Hv Hk Hbad.
  assert (Hex : Exists (fun x => is_valid_value (fst (snd (snd x))) = false)
                  (zip (seq 0 (length names)) (zip names (zip values write_keys)))).
  { apply Exists_exists. exists (i, (name, (value, write_key))). split; [| exact Hbad].
    apply (proj2 (list_elem_of_lookup _ _)). exists i.
    rewrite !lookup_zip_with, Hn, Hv, Hk, lookup_seq_lt by (eapply lookup_lt_Some; eassumption).
    reflexivity. }
  destruct (obscure_loop_raises self now _ Rediz.phase_start w Hex) as (w' & Hl & Hr).
  exists w'. split; [| exact Hr].
  destruct names as [| n0 names]; [rewrite lookup_nil in Hn; discriminate |].
  destruct values as [| v0 values]; [rewrite lookup_nil in Hv; discriminate |].
  destruct write_keys as [| k0 write_keys]; [rewrite lookup_nil in Hk; discriminate |].
  unfold Rediz.set, Rediz._set, Rediz._coerce_inputs. cbn [Rediz.or_list].
  do 2 apply bind_raise. unfold Rediz._pipelined_set_obscure.
  cbn [length seq] in Hl |- *. do 2 apply bind_raise. exact Hl.
Qed.

(** ** One input on its way through the phases *)

Lemma ret_inv {A : Type} (a b : A) (w w' : world) :
  ret a w = (Ok b, w') -> a = b /\ w = w'.
Proof. unfold ret. intros [= -> ->]. auto. Qed.

Lemma for_each_single {A S : Type} (x : A) (body : S -> A -> M S) (s s' : S) (w w' : world) :
  for_each [x] body s w = (Ok s', w') -> body s x w = (Ok s', w').
Proof.
  cbn [for_each]. intros Hb. apply bind_ok_inv in Hb as (a & w1 & Hb & Hr).
  apply ret_inv in Hr as [-> ->]. exact Hb.
Qed.

(** Inversion of a computation that returned: peel the binds one by one. *)
Ltac inv_bind H :=
  let a := fresh "a" in let w := fresh "w" in let Hm := fresh "Hm" in
  apply bind_ok_inv in H as (a & w & Hm & H).

Section Disposal.
Context `{PyEnv}.
Variable self : Rediz.instance.
Variable now : Z.

Lemma obscure_body_disposes st ndx name value write_key w st' w' :
  Rediz.obscure_body self now st (ndx, (name, (value, write_key))) w = (Ok st', w') ->
  disposed ndx st st'.
Proof.
  unfold Rediz.obscure_body. destruct (is_valid_value value); cbn [negb].
  2: { destruct value; discriminate. }
  destruct name as [n |].
  - destruct (is_valid_name n); cbn [negb]; intros Hr; apply ret_inv in Hr as [<- _];
      constructor.
  - intros Hb. inv_bind Hb. destruct (is_valid_key a); cbn [negb] in Hb.
    + inv_bind Hb. inv_bind Hb. destruct a1 as [p intent].
      apply ret_inv in Hb as [<- _]. constructor.
    + apply ret_inv in Hb as [<- _]. constructor.
Qed.

Lemma new_body_disposes st exist_ ndx name value write_key w st' w' :
  Rediz.new_body self now st (exist_, (ndx, (name, (value, write_key)))) w = (Ok st', w') ->
  disposed ndx st st'.
Proof.
  unfold Rediz.new_body. destruct (truthy exist_); cbn [negb].
  - intros Hr. apply ret_inv in Hr as [<- _]. constructor.
  - intros Hb. inv_bind Hb. destruct (is_valid_key a); cbn [negb] in Hb.
    + inv_bind Hb. destruct a0 as [p intent].
      apply ret_inv in Hb as [<- _]. constructor.
    + apply ret_inv in Hb as [<- _]. constructor.
Qed.

Lemma existing_body_disposes st ndx name value write_key official w st' w' :
  Rediz.existing_body self now st (ndx, (name, (value, (write_key, official)))) w
  = (Ok st', w') ->
  (exists p intent, st' = Rediz.add_executed p intent st) \/
  (exists r, st' = Rediz.add_rejected r st).
Proof.
  unfold Rediz.existing_body. destruct (bool_decide (write_key = official)).
  - intros Hb. inv_bind Hb. destruct a as [p intent]. inv_bind Hb.
    apply ret_inv in Hb as [<- _]. eauto.
  - destruct official; [| discriminate].
    intros Hr. apply ret_inv in Hr as [<- _]. eauto.
Qed.
End Disposal.

Lemma run_length (now : Z) (cmds : list command) (d : gmap string entry) :
  length (fst (run now cmds d)) = length cmds.
Proof.
  revert d. induction cmds as [|c cs IH]; intros d; [reflexivity |].
  cbn [run]. destruct (exec now c d) as [r d1]. specialize (IH d1).
  destruct (run now cs d1) as [rs d2]. cbn in *. now rewrite IH.
Qed.

Lemma pipe_execute_inv (now : Z) (cmds : list command) (w w' : world) (rs : list pyval) :
  pipe_execute now cmds w = (Ok rs, w') ->
  forallb encodable cmds = true /\ run now cmds (redis w) = (rs, redis w') /\
  existsb is_error rs = false /\ w' = with_redis (redis w') w.
Proof.
  unfold pipe_execute. destruct (forallb encodable cmds); cbn [negb]; [| discriminate].
  destruct (run now cmds (redis w)) as [rs0 d] eqn:Hrun.
  destruct (existsb is_error rs0) eqn:He; [discriminate |].
  intros [= <- <-]. auto.
Qed.

Lemma pipe_execute_length (now : Z) (cmds : list command) (w w' : world) (rs : list pyval) :
  pipe_execute now cmds w = (Ok rs, w') -> length rs = length cmds.
Proof.
  intros Hp. apply pipe_execute_inv in Hp as (_ & Hrun & _).
  rewrite <- (run_length now cmds (redis w)), Hrun. reflexivity.
Qed.

Section Singular.
Context `{PyEnv}.
Variable self : Rediz.instance.
Variable now : Z.

Lemma disposed_one_way (ndx : nat) (name value wk : option string) (st : Rediz.phase) :
  disposed ndx Rediz.phase_start st ->
  one_way ([ndx], [name], [value], [wk])
    (Rediz.executed st, Rediz.rejected st, Rediz.ignored_ndxs st,
     Rediz.residual [name] [ndx] (Rediz.ignored_ndxs st),
     Rediz.residual [value] [ndx] (Rediz.ignored_ndxs st),
     Rediz.residual [wk] [ndx] (Rediz.ignored_ndxs st)).
Proof.
  intros [p intent | r |]; cbn.
  - left. auto.
  - right. left. auto.
  - right. right. unfold Rediz.residual. cbn. rewrite Nat.eqb_refl. cbn. auto.
Qed.

Lemma obscure_single (ndx : nat) (name value wk : option string) (w w' : world) out :
  Rediz._pipelined_set_obscure self now [ndx] [name] [value] [wk] w = (Ok out, w') ->
  one_way ([ndx], [name], [value], [wk]) out.
Proof.
  unfold Rediz._pipelined_set_obscure. intros Hb. inv_bind Hb.
  apply ret_inv in Hb as [<- _]. inv_bind Hm. inv_bind Hm. apply ret_inv in Hm as [<- _].
  cbn [zip_with] in Hm0. apply for_each_single in Hm0.
  apply obscure_body_disposes in Hm0. apply disposed_one_way. exact Hm0.
Qed.

Lemma new_single (ndx : nat) (name value wk : option string) (w w' : world) out :
  Rediz._pipelined_set_new self now [ndx] [name] [value] [wk] w = (Ok out, w') ->
  one_way ([ndx], [name], [value], [wk]) out.
Proof.
  unfold Rediz._pipelined_set_new. intros Hb. inv_bind Hb.
  apply ret_inv in Hb as [<- _]. inv_bind Hm. inv_bind Hm. inv_bind Hm.
  apply ret_inv in Hm as [<- _].
  apply pipe_execute_length in Hm0. cbn in Hm0.
  destruct a0 as [| e [| ? ?]]; try discriminate.
  cbn [zip_with] in Hm1. apply for_each_single in Hm1.
  apply new_body_disposes in Hm1. apply disposed_one_way. exact Hm1.
Qed.

Lemma new_none (w w' : world) out :
  Rediz._pipelined_set_new self now [] [] [] [] w = (Ok out, w') ->
  out = ([], [], [], [], [], []).
Proof. unfold Rediz._pipelined_set_new. cbn. intros [= <- _]. reflexivity. Qed.

Lemma existing_none (w w' : world) out :
  Rediz._pipelined_set_existing self now [] [] [] [] w = (Ok out, w') ->
  out = ([], []) /\ w' = w.
Proof. unfold Rediz._pipelined_set_existing. cbn. intros [= <- <-]. auto. Qed.

Lemma existing_single (ndx : nat) (name value wk : option string) (w w' : world) ex rj :
  Rediz._pipelined_set_existing self now [ndx] [name] [value] [wk] w = (Ok (ex, rj), w') ->
  ex = [] \/ rj = [].
Proof.
  unfold Rediz._pipelined_set_existing. intros Hb. inv_bind Hb.
  apply ret_inv in Hb as [[= <- <-] _]. inv_bind Hm. inv_bind Hm. inv_bind Hm.
  inv_bind Hm. apply ret_inv in Hm as [<- _].
  destruct a1 as [| o official]; cbn [zip_with] in Hm2.
  - apply ret_inv in Hm2 as [<- _]. left. reflexivity.
  - apply for_each_single in Hm2.
    apply existing_body_disposes in Hm2 as [(p & i & ->) | (r & ->)]; cbn; auto.
Qed.

(** A single input is executed or rejected, never both. *)
Lemma set_single_exclusive (name value wk : option string) (w w' : world) log :
  Rediz._set self now (Some [name]) (Some [value]) (Some [wk]) None None None w
  = (Ok log, w') ->
  Rediz.log_executed log = [] \/ Rediz.log_rejected log = [].
Proof.
  unfold Rediz._set, Rediz._coerce_inputs. cbn [Rediz.or_list length seq].
  intros Hb. inv_bind Hb. destruct a as [[[[[ex1 rj1] ig1] ns1] vs1] ks1].
  inv_bind Hb. destruct a as [[[[[ex2 rj2] ig2] ns2] vs2] ks2].
  inv_bind Hb. destruct a as [ex3 rj3].
  inv_bind Hb. inv_bind Hb. inv_bind Hb. apply ret_inv in Hb as [<- _]. cbn.
  apply obscure_single in Hm.
  destruct Hm as [(-> & -> & -> & -> & ->) | [(-> & -> & -> & -> & ->) | (-> & -> & E)]].
  - apply new_none in Hm0. injection Hm0 as -> -> -> -> -> ->.
    apply existing_none in Hm1 as [[= -> ->] _]. right. reflexivity.
  - apply new_none in Hm0. injection Hm0 as -> -> -> -> -> ->.
    apply existing_none in Hm1 as [[= -> ->] _]. left. reflexivity.
  - injection E as -> -> -> ->. apply new_single in Hm0.
    destruct Hm0 as [(-> & -> & -> & -> & ->) | [(-> & -> & -> & -> & ->) | (-> & -> & E)]].
    + apply existing_none in Hm1 as [[= -> ->] _]. right. reflexivity.
    + apply existing_none in Hm1 as [[= -> ->] _]. left. reflexivity.
    + injection E as -> -> -> ->. apply existing_single in Hm1 as [-> | ->]; auto.
Qed.
End Singular.

(** C10. A singular [set] whose one input is rejected has executed nothing:
    [access] is empty, [access[0]] raises IndexError, and the caller gets no
    rejection record. *)
Theorem rejected_singular_set_raises `{PyEnv} (self : Rediz.instance) (now : Z) (w w' : world)
    (name value write_key : option string) (log : Rediz.execution_log) :
  Rediz._set self now (Some [name]) (Some [value]) (Some [write_key]) None None None w
  = (Ok log, w') ->
  Rediz.log_rejected log <> [] ->
  Rediz.log_executed log = [] /\
  Rediz.set self now None None None name value write_key w = (Raise IndexError, w').
Proof.
  intros Hset Hrej.
  destruct (set_single_exclusive self now name value write_key w w' log Hset) as [He | Hr];
    [| contradiction].
  split; [exact He |].
  unfold Rediz.set, Rediz._coerce_inputs. cbn [Rediz.or_list map].
  rewrite (bind_ok _ _ _ _ _ Hset). unfold Rediz._coerce_outputs. rewrite He. reflexivity.
Qed.

(** ** Pipelines *)

Lemma all_some_fmap {A : Type} (l : list A) : all_some (Some <$> l) = Some l.
Proof. induction l as [|x l IH]; [reflexivity | cbn; now rewrite IH]. Qed.





(** ** The third phase: names that exist *)


Section Existing.
Context `{PyEnv}.
Variable self : Rediz.instance.
Variable now : Z.
Variable h : gmap string string.



End Existing.

Lemma as_opt_lookups (h : gmap string string) (ns : list string) :
  map as_opt (map (fun f => opt (h !! f)) ns) = (h !!.) <$> ns.
Proof.
  induction ns as [| m ns IHn]; [reflexivity |]. cbn. rewrite as_opt_opt. f_equal. exact IHn.
Qed.

Lemma as_opt_nones (ns : list string) :
  map as_opt (map (fun _ : string => PNone) ns) = ((∅ : gmap string string) !!.) <$> ns.
Proof.
  induction ns as [| m ns IHn]; [reflexivity |]. cbn. rewrite lookup_empty. f_equal. exact IHn.
Qed.

Lemma hmget_ledger (now : Z) (w : world) (h : gmap string string) (ns : list string) :
  ns <> [] -> ledger now (redis w) = Some h ->
  Rediz._write_keys now (Some <$> ns) w = (Ok (Some ((h !!.) <$> ns)), w).
Proof.
  intros Hne Hl. unfold Rediz._write_keys.
  destruct ns as [| n ns]; [contradiction |]. cbn [fmap list_fmap].
  unfold hmget_cmd. pose proof (all_some_fmap (n :: ns)) as Ha.
  cbn [fmap list_fmap] in Ha. rewrite Ha. clear Ha.
  unfold ledger in Hl. unfold bind, call, pipe_execute, bind.
  cbn [forallb encodable negb andb run exec].
  destruct (live now (redis w) Rediz.OWNERSHIP) as [[[] ex] |]; try discriminate;
    injection Hl as <-; cbn [existsb is_error orb]; rewrite with_redis_same;
    unfold ret; cbn [as_list]; repeat f_equal.
  - apply (as_opt_lookups _ (n :: ns)).
  - apply (as_opt_nones (n :: ns)).
Qed.


(** ** The server *)

Lemma run_app (now : Z) (a b : list command) (d : gmap string entry) :
  run now (a ++ b) d =
  (fst (run now a d) ++ fst (run now b (snd (run now a d))),
   snd (run now b (snd (run now a d)))).
Proof.
  revert d. induction a as [| c a IH]; intros d; cbn [app run].
  - cbn. destruct (run now b d); reflexivity.
  - destruct (exec now c d) as [r d1]. rewrite IH.
    destruct (run now a d1) as [ra da]. cbn [fst snd].
    destruct (run now b da) as [rb db]. reflexivity.
Qed.

Lemma run_cons (now : Z) (c : command) (cs : list command) (d : gmap string entry) :
  run now (c :: cs) d =
  (fst (exec now c d) :: fst (run now cs (snd (exec now c d))),
   snd (run now cs (snd (exec now c d)))).
Proof.
  cbn [run]. destruct (exec now c d) as [r d1]. cbn [fst snd].
  destruct (run now cs d1); reflexivity.
Qed.

Lemma foldr_delete_lookup (ks : list string) (d : gmap string entry) (k : string) :
  k ∉ ks -> foldr delete d ks !! k = d !! k.
Proof.
  induction ks as [| x ks IH]; intros Hk; [reflexivity |].
  cbn [foldr]. rewrite not_elem_of_cons in Hk. destruct Hk as [Hne Hk].
  rewrite lookup_delete_ne by congruence. apply IH, Hk.
Qed.

Lemma foldl_insert_lookup_ne (kvs : list (string * string)) (d : gmap string entry)
    (k : string) :
  k ∉ map fst kvs ->
  foldl (fun d' kv => <[kv.1 := Entry (VString kv.2) None]> d') d kvs !! k = d !! k.
Proof.
  revert d. induction kvs as [| [x v] kvs IH]; intros d Hk; [reflexivity |].
  cbn [foldl map fst] in *. rewrite not_elem_of_cons in Hk. destruct Hk as [Hne Hk].
  rewrite IH by assumption. cbn. apply lookup_insert_ne. congruence.
Qed.

(** A command leaves alone the keys it does not write. *)
Lemma exec_frame (now : Z) (c : command) (d : gmap string entry) (k : string) :
  k ∉ writes c -> snd (exec now c d) !! k = d !! k.
Proof.
  intros Hk.
  destruct c as [k0 | k0 s ex | ks | kvs | k0 f v | k0 f | k0 fields | k0 fields | k0 ms | k0 ms
                | k0 | ks | ks | k0 t | k0 fields |];
    cbn [writes] in Hk; cbn [exec];
    try (rewrite not_elem_of_cons in Hk; destruct Hk as [Hne _]).
  - destruct (live now d k0) as [[[] ?] |]; reflexivity.
  - destruct ex as [t |]; [destruct (t <=? 0) |]; cbn [snd];
      try reflexivity; apply lookup_insert_ne; congruence.
  - destruct ks; reflexivity.
  - destruct kvs as [| kv kvs]; [reflexivity |]. cbn [snd].
    apply foldl_insert_lookup_ne. exact Hk.
  - destruct (live now d k0) as [[[] ?] |]; cbn [snd];
      try reflexivity; apply lookup_insert_ne; congruence.
  - destruct (live now d k0) as [[[] ?] |]; reflexivity.
  - destruct fields; [reflexivity |]. destruct (live now d k0) as [[[] ?] |]; reflexivity.
  - destruct fields; [reflexivity |]. destruct (live now d k0) as [[[] ?] |]; cbn [snd];
      try reflexivity.
    case_bool_decide; [apply lookup_delete_ne | apply lookup_insert_ne]; congruence.
  - destruct ms; [reflexivity |]. destruct (live now d k0) as [[[] ?] |]; cbn [snd];
      try reflexivity; apply lookup_insert_ne; congruence.
  - destruct ms; [reflexivity |]. destruct (live now d k0) as [[[] ?] |]; cbn [snd];
      try reflexivity.
    case_bool_decide; [apply lookup_delete_ne | apply lookup_insert_ne]; congruence.
  - destruct (live now d k0) as [[[] ?] |]; reflexivity.
  - destruct ks; reflexivity.
  - destruct ks as [| x ks]; [reflexivity |]. cbn [snd]. apply foldr_delete_lookup. exact Hk.
  - destruct (live now d k0) as [[? ?] |]; cbn [snd];
      try reflexivity; apply lookup_insert_ne; congruence.
  - destruct (live now d k0) as [[[] ?] |]; cbn [snd];
      try reflexivity; apply lookup_insert_ne; congruence.
  - reflexivity.
Qed.

Lemma run_frame (now : Z) (cmds : list command) (d : gmap string entry) (k : string) :
  Forall (fun c => k ∉ writes c) cmds -> snd (run now cmds d) !! k = d !! k.
Proof.
  revert d. induction cmds as [| c cs IH]; intros d Hk; [reflexivity |].
  inversion Hk as [| ? ? Hc Hcs]; subst. rewrite run_cons. cbn [snd].
  rewrite IH by assumption. apply exec_frame, Hc.
Qed.

Lemma live_frame (now : Z) (d d' : gmap string entry) (k : string) :
  d' !! k = d !! k -> live now d' k = live now d k.
Proof. unfold live. now intros ->. Qed.

(** ** The promise executor *)

Lemma exists_pipe (now : Z) (cs : list string) (w : world) :
  pipe_execute now (map (fun c => EXISTS [c]) cs) w =
  (Ok (map (fun c => PInt (count_live now (redis w) [c])) cs), w).
Proof.
  unfold pipe_execute.
  assert (He : forallb encodable (map (fun c => EXISTS [c]) cs) = true)
    by (clear; induction cs; [reflexivity | assumption]).
  rewrite He. cbn [negb].
  assert (Hr : run now (map (fun c => EXISTS [c]) cs) (redis w) =
               (map (fun c => PInt (count_live now (redis w) [c])) cs, redis w)).
  { clear He. generalize (redis w). intros d. induction cs as [| c cs IH]; [reflexivity |].
    cbn [map]. rewrite run_cons. cbn [exec fst snd]. rewrite IH. reflexivity. }
  rewrite Hr.
  assert (Hn : existsb is_error (map (fun c => PInt (count_live now (redis w) [c])) cs) = false)
    by (clear; induction cs; [reflexivity | assumption]).
  rewrite Hn, with_redis_same. reflexivity.
Qed.

Lemma smembers_reply (now : Z) (d : gmap string entry) (k : string) :
  set_or_absent now d k -> exec now (SMEMBERS k) d = (PSet (members now d k), d).
Proof.
  unfold set_or_absent, members. cbn [exec].
  destruct (live now d k) as [[[] ?] |]; intros Hs; try contradiction; reflexivity.
Qed.

Lemma smembers_pipe (now : Z) (cs : list string) (w : world) :
  Forall (set_or_absent now (redis w)) cs ->
  pipe_execute now (map SMEMBERS cs) w =
  (Ok (map (fun c => PSet (members now (redis w) c)) cs), w).
Proof.
  intros Hs. unfold pipe_execute.
  assert (He : forallb encodable (map SMEMBERS cs) = true)
    by (clear; induction cs; [reflexivity | assumption]).
  rewrite He. cbn [negb].
  assert (Hr : run now (map SMEMBERS cs) (redis w) =
               (map (fun c => PSet (members now (redis w) c)) cs, redis w)).
  { clear He. revert Hs. generalize (redis w). intros d Hs.
    induction Hs as [| c cs Hc _ IH]; [reflexivity |].
    cbn [map]. rewrite run_cons, (smembers_reply _ _ _ Hc). cbn [fst snd]. rewrite IH.
    reflexivity. }
  rewrite Hr.
  assert (Hn : existsb is_error (map (fun c => PSet (members now (redis w) c)) cs) = false)
    by (clear; induction cs; [reflexivity | assumption]).
  rewrite Hn, with_redis_same. reflexivity.
Qed.

Lemma del_call (now : Z) (cs : list string) (w : world) :
  cs <> [] ->
  call now (DEL cs) w =
  (Ok (PInt (count_live now (redis w) (remove_dups cs))),
   with_redis (foldr delete (redis w) cs) w).
Proof.
  intros Hne. destruct cs as [| c cs]; [contradiction |]. reflexivity.
Qed.

Lemma filter_all {A : Type} (l : list A) : List.filter (fun _ => true) l = l.
Proof. induction l as [| x l IH]; [reflexivity | cbn; now rewrite IH]. Qed.

Lemma fst_zip_map {A B : Type} (f : A -> B) (l : list A) : map fst (zip l (map f l)) = l.
Proof. induction l as [| x l IH]; [reflexivity | cbn; now rewrite IH]. Qed.

Lemma scanned_nonempty (now lookback : Z) : 0 < lookback -> scanned now lookback <> [].
Proof.
  intros Hl. unfold scanned, Rediz.range.
  destruct (Z.to_nat lookback) as [| n] eqn:E; [lia | discriminate].
Qed.

Section Executor.
Context `{PyEnv}.



End Executor.


(** ** Keys that cannot coincide *)

Lemma uuid_first (rk : string) :
  is_uuid rk = true -> exists c rest, rk = String c rest /\ uuid_char c = true.
Proof.
  unfold is_uuid. intros Hu. apply andb_true_iff in Hu as [Hl Hc].
  destruct rk as [| c rest]; [discriminate |].
  cbn in Hc. apply andb_true_iff in Hc as [Hc _]. eauto.
Qed.

Lemma app_longer (p s : string) : p <> EmptyString -> p +:+ s <> s.
Proof.
  intros Hp E. apply (f_equal String.length) in E. rewrite str_app_length in E.
  destruct p; [contradiction | cbn in E; lia].
Qed.

(** ** A named input on its way through the phases *)

Lemma for_each_world {A S : Type} (l : list A) (body : S -> A -> M S) (s : S) (w : world) :
  (forall s x w0, snd (body s x w0) = w0) -> snd (for_each l body s w) = w.
Proof.
  intros Hb. revert s w. induction l as [| x l IH]; intros s w; [reflexivity |].
  cbn [for_each]. unfold bind. specialize (Hb s x w).
  destruct (body s x w) as [[s' | e] w1]; cbn in Hb; subst w1; [apply IH | reflexivity].
Qed.

Lemma coerce_outputs_world (log : Rediz.execution_log) (w : world) :
  snd (Rediz._coerce_outputs log w) = w.
Proof.
  unfold Rediz._coerce_outputs, bind.
  match goal with |- context [for_each ?l ?b ?s w] =>
    pose proof (for_each_world l b s w) as Hw; destruct (for_each l b s w) as [[keyed | e] w1]
  end.
  - cbn in Hw. rewrite Hw.
    + apply for_each_world. intros s x w0. unfold bind, lift.
      destruct (getitem x.2 "name"); [| reflexivity].
      destruct (getitem x.2 "write_key"); reflexivity.
    + intros s x w0. unfold bind, heap_read, lift.
      destruct (getitem _ "ndx") as [[] |]; reflexivity.
  - cbn in Hw |- *. apply Hw. intros s x w0. unfold bind, heap_read, lift.
    destruct (getitem _ "ndx") as [[] |]; reflexivity.
Qed.

Lemma coerce_outputs_nonempty (log : Rediz.execution_log) (w w' : world) (d : dict)
    (l : list dict) :
  Rediz._coerce_outputs log w = (Ok (d :: l), w') -> Rediz.log_executed log <> [].
Proof.
  intros Hc E. unfold Rediz._coerce_outputs in Hc. rewrite E in Hc. discriminate Hc.
Qed.

Lemma read_items_single (i : nat) (key : string) (d : dict) (x : pyval) (w : world) :
  heap w !! i = Some d -> d !! key = Some x ->
  Rediz.read_items [i] key w = (Ok [x], w).
Proof.
  intros Hh Hd. unfold Rediz.read_items. cbn [for_each].
  unfold bind, heap_read, lift, getitem, ret. rewrite Hh. cbn [default from_option id]. rewrite Hd. reflexivity.
Qed.

Lemma record_results_heap (n v : string) (executed : list nat) (results : list pyval)
    (w w' : world) (r : res unit) :
  Rediz.record_results executed results w = (r, w') ->
  (exists d, heap w !! Rediz.default_intent = Some d /\ names_page n v d) ->
  exists d, heap w' !! Rediz.default_intent = Some d /\ names_page n v d.
Proof.
  unfold Rediz.record_results. generalize (zip executed results). intros l.
  revert w. induction l as [| [i x] l IH]; intros w; cbn [for_each].
  - intros [= _ <-]. auto.
  - unfold bind at 1. cbn [heap_update]. intros Hl (d & Hd & Hn1 & Hn2).
    apply IH in Hl; [exact Hl |]. cbn [heap with_heap].
    destruct (decide (i = Rediz.default_intent)) as [-> | Hne].
    + rewrite lookup_insert_eq, Hd. cbn [default from_option id]. eexists. split; [reflexivity |].
      unfold names_page, dict_update.
      split; (rewrite lookup_union_r by reflexivity); assumption.
    + rewrite lookup_insert_ne by assumption. exists d. split; [assumption | split; assumption].
Qed.

Lemma record_results_redis (executed : list nat) (results : list pyval)
    (w w' : world) (r : res unit) :
  Rediz.record_results executed results w = (r, w') -> redis w' = redis w.
Proof.
  unfold Rediz.record_results. generalize (zip executed results). intros l.
  revert w. induction l as [| [i x] l IH]; intros w; cbn [for_each].
  - intros [= _ <-]. reflexivity.
  - unfold bind at 1. cbn [heap_update]. intros Hl. apply IH in Hl. exact Hl.
Qed.

Section Named.
Context `{PyEnv}.
Variable self : Rediz.instance.
Variable now : Z.

Lemma obscure_named (ndx : nat) (n : string) (value wk : option string) (w : world) :
  is_valid_value value = true ->
  Rediz._pipelined_set_obscure self now [ndx] [Some n] [value] [wk] w =
  (Ok (if is_valid_name n
       then ([], [], [ndx], [Some n], [value], [wk])
       else ([], [mkdict [("ndx", Rediz.ndx_val ndx); ("name", PStr n);
                          ("error", PStr "invalid name")]], [], [], [], [])), w).
Proof.
  intros Hv. unfold Rediz._pipelined_set_obscure. cbn [zip_with for_each].
  unfold Rediz.obscure_body. rewrite Hv. cbn [negb].
  destruct (is_valid_name n); cbn [negb]; unfold bind, ret; cbn;
    unfold Rediz.residual; cbn; rewrite ?Nat.eqb_refl; reflexivity.
Qed.

Lemma hexists_owned (h : gmap string string) (n : string) (w : world) :
  ledger now (redis w) = Some h -> is_Some (h !! n) ->
  pipe_execute now [hexists_cmd Rediz.OWNERSHIP (Some n)] w = (Ok [PBool true], w).
Proof.
  unfold ledger. intros Hl Hn. unfold pipe_execute. cbn [hexists_cmd forallb encodable andb negb run exec].
  destruct (live now (redis w) Rediz.OWNERSHIP) as [[[] ex] |]; try discriminate.
  - injection Hl as <-. rewrite bool_decide_eq_true_2 by assumption.
    cbn. rewrite with_redis_same. reflexivity.
  - injection Hl as <-. rewrite lookup_empty in Hn. destruct Hn; discriminate.
Qed.

Lemma new_owned (h : gmap string string) (ndx : nat) (n : string)
    (value wk : option string) (w : world) :
  ledger now (redis w) = Some h -> is_Some (h !! n) ->
  Rediz._pipelined_set_new self now [ndx] [Some n] [value] [wk] w =
  (Ok ([], [], [ndx], [Some n], [value], [wk]), w).
Proof.
  intros Hl Hn. unfold Rediz._pipelined_set_new. cbn [map].
  unfold bind at 1 2. rewrite (hexists_owned h n w Hl Hn).
  cbn [zip_with for_each]. unfold Rediz.new_body. cbn [truthy negb].
  unfold bind, ret. cbn. unfold Rediz.residual. cbn. rewrite Nat.eqb_refl. reflexivity.
Qed.

Lemma existing_body_accept_heap (st : Rediz.phase) (ndx : nat) (n v : string)
    (wk : option string) (w : world) :
  exists w',
    Rediz.existing_body self now st (ndx, (Some n, (Some v, (wk, wk)))) w =
    (Ok (Rediz.add_executed
           (Rediz.pipe st ++ modify_cmds self now (random_keys (rng w)) n v
                                (ttl_seconds (getsizeof (Some v))))
           Rediz.default_intent st), w') /\
    redis w' = redis w /\
    exists d, heap w' !! Rediz.default_intent = Some d /\ names_page n v d.
Proof.
  destruct (modify_page_spec self now (Rediz.pipe st) ndx n (Some v)
              Rediz.default_intent w) as (td & cmds & Hm & Hc).
  rewrite (Hc v eq_refl) in Hm. clear Hc.
  unfold Rediz.existing_body. rewrite bool_decide_eq_true_2 by reflexivity.
  rewrite (bind_ok _ _ _ _ _ Hm). cbn beta iota.
  unfold bind, heap_update, ret. eexists. split; [reflexivity |]. split; [reflexivity |].
  cbn [heap with_heap]. rewrite !lookup_insert_eq. cbn [default from_option id].
  eexists. split; [reflexivity |].
  unfold names_page, dict_update.
  split; (rewrite lookup_union_r by reflexivity); apply lookup_union_Some_l; reflexivity.
Qed.

Lemma existing_accept_single (h : gmap string string) (ndx : nat) (n v k : string)
    (w w' : world) (ex : list nat) (rj : list dict) :
  ledger now (redis w) = Some h -> h !! n = Some k ->
  Rediz._pipelined_set_existing self now [ndx] [Some n] [Some v] [Some k] w
  = (Ok (ex, rj), w') ->
  ex = [Rediz.default_intent] /\ rj = [] /\
  redis w' = snd (run now (modify_cmds self now (random_keys (rng w)) n v
                             (ttl_seconds (getsizeof (Some v)))) (redis w)) /\
  exists d, heap w' !! Rediz.default_intent = Some d /\ names_page n v d.
Proof.
  intros Hl Hn Hex. unfold Rediz._pipelined_set_existing in Hex.
  pose proof (hmget_ledger now w h [n] ltac:(discriminate) Hl) as Hw.
  cbn [fmap list_fmap] in Hw. rewrite Hn in Hw.
  inv_bind Hex. apply ret_inv in Hex as [[= <- <-] <-].
  inv_bind Hm. rewrite Hw in Hm0. injection Hm0 as <- <-.
  inv_bind Hm. apply ret_inv in Hm0 as [<- <-].
  inv_bind Hm. cbn [zip_with] in Hm0. apply for_each_single in Hm0.
  destruct (existing_body_accept_heap Rediz.phase_start ndx n v (Some k) w)
    as (wb & Hbody & Hrb & Hheap).
  rewrite Hbody in Hm0. injection Hm0 as <- <-.
  inv_bind Hm. apply ret_inv in Hm as [<- <-].
  unfold Rediz.finish_phase in Hm0. cbn [Rediz.add_executed Rediz.executed Rediz.pipe
    Rediz.phase_start Rediz.rejected app] in Hm0 |- *.
  inv_bind Hm0. apply pipe_execute_inv in Hm as (_ & Hrun & _ & Hwb).
  split; [reflexivity |]. split; [reflexivity |].
  split.
  - rewrite (record_results_redis _ _ _ _ _ Hm0).
    apply (f_equal snd) in Hrun. cbn [snd] in Hrun. rewrite <- Hrun, Hrb. reflexivity.
  - eapply record_results_heap; [exact Hm0 |].
    rewrite Hwb. cbn [heap with_redis]. exact Hheap.
Qed.
End Named.

(** ** Subscribers *)

Lemma subscribe_spec (t0 : Z) (publisher subscriber : string) (w0 w1 : world) :
  Rediz._subscribe t0 publisher subscriber w0 = (Ok tt, w1) ->
  exists S ex,
    redis w1 !! (Rediz.SUBSCRIBERS +:+ publisher) = Some (Entry (VSet S) ex) /\
    subscriber ∈ S.
Proof.
  unfold Rediz._subscribe, call, pipe_execute, bind. cbn [forallb encodable andb negb run exec].
  destruct (live t0 (redis w0) (Rediz.SUBSCRIBERS +:+ publisher)) as [[[] ex] |];
    cbn [existsb is_error orb]; try discriminate; unfold ret; intros [= <-]; cbn [redis with_redis];
    rewrite lookup_insert_eq; do 2 eexists; (split; [reflexivity |]); set_solver.
Qed.

Lemma propagate_pipe `{PyEnv} (A v : string) (l : list string) (acc : list command * list dict) :
  foldl (fun acc subscriber =>
           let mailbox_name := Rediz.MESSAGES +:+ subscriber in
           (acc.1 ++ [hset_cmd mailbox_name (as_opt (PStr A)) (as_opt (PStr v))],
            acc.2 ++ [mkdict [("mailbox_name", PStr mailbox_name);
                              ("sender", PStr A); ("value", PStr v)]])) acc l
  = (acc.1 ++ map (fun s => HSET (Rediz.MESSAGES +:+ s) A v) l,
     acc.2 ++ map (fun s => mkdict [("mailbox_name", PStr (Rediz.MESSAGES +:+ s));
                                    ("sender", PStr A); ("value", PStr v)]) l).
Proof.
  revert acc. induction l as [| s l IH]; intros [p e].
  - cbn. now rewrite !app_nil_r.
  - cbn [foldl map]. rewrite IH. cbn [fst snd as_opt hset_cmd]. now rewrite <- !app_assoc.
Qed.

(** What the fan-out does after one page was modified *)
Lemma propagate_single `{PyEnv} (now : Z) (A v : string) (w w' : world) (r : list dict) :
  set_or_absent now (redis w) (Rediz.SUBSCRIBERS +:+ A) ->
  Rediz._propagate_to_subscribers now [PStr A] [PStr v] w = (Ok r, w') ->
  let cmds := map (fun s => HSET (Rediz.MESSAGES +:+ s) A v)
                  (set_order (members now (redis w) (Rediz.SUBSCRIBERS +:+ A))) in
  redis w' = snd (run now cmds (redis w)) /\
  existsb is_error (fst (run now cmds (redis w))) = false.
Proof.
  intros Hs Hp cmds. unfold Rediz._propagate_to_subscribers in Hp.
  inv_bind Hp.
  cbv beta iota zeta delta [for_each bind ret lift Rediz.str_plus py_add app] in Hm.
  injection Hm as <- <-.
  inv_bind Hp.
  pose proof (smembers_pipe now [Rediz.SUBSCRIBERS +:+ A] w ltac:(repeat constructor; exact Hs))
    as Hsm. cbn [map] in Hsm. rewrite Hsm in Hm. injection Hm as <- <-.
  cbn [zip_with foldl as_set] in Hp. rewrite propagate_pipe in Hp. cbn [fst snd app] in Hp.
  fold cmds in Hp.
  destruct (set_order (members now (redis w) (Rediz.SUBSCRIBERS +:+ A))) as [| s l] eqn:El.
  - cbn in Hp. injection Hp as _ <-. subst cmds. cbn. auto.
  - cbn [map] in Hp. inv_bind Hp. apply ret_inv in Hp as [_ <-].
    apply pipe_execute_inv in Hm as (_ & Hrun & Herr & _).
    subst cmds. cbn [map] in Hrun |- *. rewrite Hrun. auto.
Qed.

Lemma str_app_inj_l (p a b : string) : p +:+ a = p +:+ b -> a = b.
Proof. induction p as [| c p IH]; [auto |]. intros [= E]. auto. Qed.

Lemma hset_delivers (now : Z) (A B v : string) (d : gmap string entry) :
  is_error (fst (exec now (HSET (Rediz.MESSAGES +:+ B) A v) d)) = false ->
  delivered now A B v (snd (exec now (HSET (Rediz.MESSAGES +:+ B) A v) d)).
Proof.
  cbn [exec]. unfold delivered, live.
  destruct (d !! (Rediz.MESSAGES +:+ B)) as [[c ex] |] eqn:E.
  - destruct (expired now (Entry c ex)) eqn:Hx; cbn [fst snd].
    + intros _. rewrite lookup_insert_eq. do 2 eexists. split; [reflexivity |].
      split; [reflexivity | apply lookup_singleton_eq].
    + destruct c; cbn [fst snd is_error]; try discriminate. intros _.
      rewrite lookup_insert_eq. do 2 eexists. split; [reflexivity |].
      split; [exact Hx | apply lookup_insert_eq].
  - cbn [fst snd]. intros _. rewrite lookup_insert_eq. do 2 eexists. split; [reflexivity |].
    split; [reflexivity | apply lookup_singleton_eq].
Qed.

Lemma hset_keeps (now : Z) (A B v s : string) (d : gmap string entry) :
  delivered now A B v d ->
  delivered now A B v (snd (exec now (HSET (Rediz.MESSAGES +:+ s) A v) d)).
Proof.
  intros (h & ex & Hd & Hx & Hv).
  destruct (decide (s = B)) as [-> | Hne].
  - cbn [exec]. unfold live. rewrite Hd, Hx. cbn [snd]. unfold delivered.
    rewrite lookup_insert_eq. do 2 eexists. split; [reflexivity |].
    split; [exact Hx | apply lookup_insert_eq].
  - unfold delivered. rewrite exec_frame.
    + eauto.
    + cbn [writes]. rewrite list_elem_of_singleton. intros E. apply str_app_inj_l in E. congruence.
Qed.

Lemma fan_out_delivers (now : Z) (A B v : string) (l : list string) (d : gmap string entry) :
  B ∈ l ->
  existsb is_error (fst (run now (map (fun s => HSET (Rediz.MESSAGES +:+ s) A v) l) d)) = false ->
  delivered now A B v (snd (run now (map (fun s => HSET (Rediz.MESSAGES +:+ s) A v) l) d)).
Proof.
  assert (Hkeep : forall l d, delivered now A B v d ->
            delivered now A B v (snd (run now (map (fun s => HSET (Rediz.MESSAGES +:+ s) A v) l) d))).
  { clear. intros l. induction l as [| s l IH]; intros d Hd; [exact Hd |].
    cbn [map]. rewrite run_cons. cbn [snd]. apply IH, hset_keeps, Hd. }
  revert d. induction l as [| s l IH]; intros d Hin Herr; [inversion Hin |].
  cbn [map] in *. rewrite run_cons in *. cbn [fst snd existsb] in *.
  apply orb_false_iff in Herr as [He Hrest].
  apply elem_of_cons in Hin as [-> | Hin].
  - apply Hkeep, hset_delivers, He.
  - apply IH; assumption.
Qed.

Lemma delivered_mailbox (now : Z) (A B v : string) (d : gmap string entry) :
  delivered now A B v d -> mailbox now d B !! A = Some v.
Proof.
  intros (h & ex & Hd & Hx & Hv). unfold mailbox, live. rewrite Hd, Hx. exact Hv.
Qed.

Lemma modify_cmds_frame (self : Rediz.instance) (now : Z) (key n v : string) (ttl : Z)
    (k : string) (d : gmap string entry) :
  k <> n -> k <> key +:+ ":" +:+ n -> k <> Rediz.HISTORY +:+ n ->
  (forall e, k <> promise_bucket e) ->
  snd (run now (modify_cmds self now key n v ttl) d) !! k = d !! k.
Proof.
  intros H1 H2 H3 H4. apply run_frame. unfold modify_cmds.
  repeat apply Forall_app_2.
  - repeat constructor; cbn [writes]; rewrite list_elem_of_singleton; assumption.
  - destruct (Rediz.has_xadd self); repeat constructor.
    cbn [writes]. rewrite list_elem_of_singleton. assumption.
  - induction (Rediz.DELAY_SECONDS self) as [| D l IH]; [constructor |].
    cbn [flat_map app].
    repeat (constructor; [cbn [writes]; rewrite list_elem_of_singleton; apply H4 |]).
    exact IH.
Qed.

Lemma subscribers_key_frame (self : Rediz.instance) (now : Z) (key A v : string) (ttl : Z)
    (d : gmap string entry) :
  is_uuid key = true ->
  snd (run now (modify_cmds self now key A v ttl) d) !! (Rediz.SUBSCRIBERS +:+ A)
  = d !! (Rediz.SUBSCRIBERS +:+ A).
Proof.
  intros Hu. apply modify_cmds_frame.
  - apply app_longer. discriminate.
  - destruct (uuid_first key Hu) as (c & rest & -> & Hc). intros E.
    injection E as <- _. discriminate Hc.
  - discriminate.
  - intros e. discriminate.
Qed.

Section FanOut.
Context `{PyEnv}.
Variable self : Rediz.instance.
Variable now : Z.

Lemma obscure_named_inv (ndx : nat) (n : string) (value wk : option string)
    (w w' : world) out :
  Rediz._pipelined_set_obscure self now [ndx] [Some n] [value] [wk] w = (Ok out, w') ->
  w' = w /\
  out = (if is_valid_name n
         then ([], [], [ndx], [Some n], [value], [wk])
         else ([], [mkdict [("ndx", Rediz.ndx_val ndx); ("name", PStr n);
                            ("error", PStr "invalid name")]], [], [], [], [])).
Proof.
  destruct (is_valid_value value) eqn:Hv.
  - rewrite (obscure_named self now ndx n value wk w Hv). intros [= <- <-]. auto.
  - unfold Rediz._pipelined_set_obscure. cbn [zip_with for_each].
    pose proof (obscure_body_cases self now Rediz.phase_start ndx (Some n) value wk w) as Hb.
    rewrite Hv in Hb. intros Hx. inv_bind Hx. inv_bind Hm.
    apply for_each_single in Hm0. congruence.
Qed.

(** A successful singular [set] of a name that the ledger has: the page was
    modified, then the value went out to the subscribers. *)
Lemma set_modified (h : gmap string string) (A v k : string) (w w' : world) out :
  (forall i, is_uuid (random_keys i) = true) ->
  ledger now (redis w) = Some h -> h !! A = Some k ->
  Rediz.set self now None None None (Some A) (Some v) (Some k) w = (Ok out, w') ->
  let d1 := snd (run now (modify_cmds self now (random_keys (rng w)) A v
                            (ttl_seconds (getsizeof (Some v)))) (redis w)) in
  let fan := map (fun s => HSET (Rediz.MESSAGES +:+ s) A v)
                 (set_order (members now (redis w) (Rediz.SUBSCRIBERS +:+ A))) in
  set_or_absent now (redis w) (Rediz.SUBSCRIBERS +:+ A) ->
  is_valid_name A = true /\
  redis w' = snd (run now fan d1) /\ existsb is_error (fst (run now fan d1)) = false.
Proof.
  intros Hu Hl Hk Hset d1 fan Hsub.
  unfold Rediz.set, Rediz._coerce_inputs in Hset. cbn [Rediz.or_list map] in Hset.
  inv_bind Hset. inv_bind Hset.
  pose proof (coerce_outputs_world a w0) as Hcw. rewrite Hm0 in Hcw. cbn [snd] in Hcw. subst w1.
  destruct a0 as [| acc0 access]; [discriminate |]. apply ret_inv in Hset as [_ <-].
  apply coerce_outputs_nonempty in Hm0 as Hne.
  unfold Rediz._set, Rediz._coerce_inputs in Hm. cbn [Rediz.or_list length seq] in Hm.
  inv_bind Hm. apply obscure_named_inv in Hm1 as [-> ->].
  destruct (is_valid_name A) eqn:Hvalid.
  2: { inv_bind Hm. apply new_none in Hm1 as ->. inv_bind Hm.
       apply existing_none in Hm1 as [-> ->]. do 3 inv_bind Hm.
       apply ret_inv in Hm as [<- _]. contradiction Hne. reflexivity. }
  split; [reflexivity |].
  inv_bind Hm. rewrite (new_owned self now h 0 A (Some v) (Some k) w Hl (ex_intro _ k Hk)) in Hm1.
  injection Hm1 as <- <-.
  inv_bind Hm. destruct a0 as [ex3 rj3].
  apply (existing_accept_single self now h 0 A v k w w1 ex3 rj3 Hl Hk) in Hm1
    as (-> & -> & Hr1 & d & Hd & Hn1 & Hn2).
  inv_bind Hm. rewrite (read_items_single _ _ _ _ _ Hd Hn1) in Hm1. injection Hm1 as <- <-.
  inv_bind Hm. rewrite (read_items_single _ _ _ _ _ Hd Hn2) in Hm1. injection Hm1 as <- <-.
  inv_bind Hm. apply ret_inv in Hm as [_ <-].
  assert (Hkey : redis w1 !! (Rediz.SUBSCRIBERS +:+ A) = redis w !! (Rediz.SUBSCRIBERS +:+ A))
    by (rewrite Hr1; apply subscribers_key_frame, Hu).
  assert (Hmem : members now (redis w1) (Rediz.SUBSCRIBERS +:+ A)
                 = members now (redis w) (Rediz.SUBSCRIBERS +:+ A))
    by (unfold members; now rewrite (live_frame _ _ _ _ Hkey)).
  apply propagate_single in Hm1.
  - cbn zeta in Hm1. rewrite Hmem, Hr1 in Hm1. exact Hm1.
  - unfold set_or_absent in *. now rewrite (live_frame _ _ _ _ Hkey).
Qed.
End FanOut.

(** C8 (amended). After [B] subscribed to [A], a singular [set] of [A] with
    the key on record, for a name the ledger already has, that returns leaves
    the new value in the mailbox of [B] under [A]. *)
Theorem subscriber_fan_out `{PyEnv} (self : Rediz.instance) (t0 now : Z) (w0 w1 w2 : world)
    (h : gmap string string) (A B v k : string) out :
  (forall i, is_uuid (random_keys i) = true) ->
  Rediz._subscribe t0 A B w0 = (Ok tt, w1) ->
  is_Some (live now (redis w1) (Rediz.SUBSCRIBERS +:+ A)) ->
  ledger now (redis w1) = Some h -> h !! A = Some k ->
  Rediz.set self now None None None (Some A) (Some v) (Some k) w1 = (Ok out, w2) ->
  mailbox now (redis w2) B !! A = Some v.
Proof.
  intros Hu Hsub Hlive Hl Hk Hset.
  apply subscribe_spec in Hsub as (S & ex & Hkey & HB).
  assert (Hl1 : live now (redis w1) (Rediz.SUBSCRIBERS +:+ A) = Some (Entry (VSet S) ex)).
  { unfold live in *. rewrite Hkey in *. destruct (expired now _); [destruct Hlive; discriminate | reflexivity]. }
  assert (Hmem : members now (redis w1) (Rediz.SUBSCRIBERS +:+ A) = S)
    by (unfold members; now rewrite Hl1).
  assert (Hsa : set_or_absent now (redis w1) (Rediz.SUBSCRIBERS +:+ A))
    by (unfold set_or_absent; now rewrite Hl1).
  destruct (set_modified self now h A v k w1 w2 out Hu Hl Hk Hset Hsa) as (_ & Hr & Herr).
  apply delivered_mailbox. rewrite Hr. apply fan_out_delivers; [| exact Herr].
  rewrite Hmem. apply list_elem_of_In. apply list_elem_of_In.
  rewrite (set_order_perm S). apply elem_of_elements, HB.
Qed.

(** ** What an accepted write leaves on the server *)

Lemma run_readonly (now : Z) (cmds : list command) (d : gmap string entry) :
  Forall (fun c => writes c = []) cmds -> snd (run now cmds d) = d.
Proof.
  intros Hr. apply map_eq. intros k. apply run_frame.
  eapply Forall_impl; [exact Hr |]. intros c Hc. cbn beta in Hc. rewrite Hc. apply not_elem_of_nil.
Qed.

Lemma pipe_readonly (now : Z) (cmds : list command) (w w' : world) (rs : list pyval) :
  Forall (fun c => writes c = []) cmds ->
  pipe_execute now cmds w = (Ok rs, w') -> w' = w.
Proof.
  intros Hr Hp. apply pipe_execute_inv in Hp as (_ & Hrun & _ & Hw).
  apply (f_equal snd) in Hrun. cbn [snd] in Hrun. rewrite run_readonly in Hrun by assumption.
  rewrite Hw, <- Hrun. apply with_redis_same.
Qed.

Lemma propagate_none `{PyEnv} (now : Z) (w : world) :
  Rediz._propagate_to_subscribers now [] [] w = (Ok [], w).
Proof. destruct w. reflexivity. Qed.

Lemma propagate_fan `{PyEnv} (now : Z) (A v : string) (w w' : world) (r : list dict) :
  Rediz._propagate_to_subscribers now [PStr A] [PStr v] w = (Ok r, w') ->
  exists l, redis w' = snd (run now (map (fun s => HSET (Rediz.MESSAGES +:+ s) A v) l) (redis w)).
Proof.
  intros Hp. unfold Rediz._propagate_to_subscribers in Hp.
  inv_bind Hp.
  cbv beta iota zeta delta [for_each bind ret lift Rediz.str_plus py_add app] in Hm.
  injection Hm as <- <-.
  inv_bind Hp.
  pose proof (pipe_execute_length _ _ _ _ _ Hm) as Hlen.
  apply pipe_readonly in Hm; [| repeat constructor]. subst w0.
  destruct a as [| x [| ? ?]]; try discriminate Hlen.
  cbn [zip_with foldl] in Hp. rewrite propagate_pipe in Hp. cbn [fst snd app] in Hp.
  exists (set_order (as_set x)).
  destruct (set_order (as_set x)) as [| s l] eqn:El.
  - cbn in Hp. injection Hp as _ <-. reflexivity.
  - cbn [map] in Hp. inv_bind Hp. apply ret_inv in Hp as [_ <-].
    apply pipe_execute_inv in Hm as (_ & Hrun & _ & _).
    cbn [map]. rewrite Hrun. reflexivity.
Qed.

Section Accepted.
Context `{PyEnv}.
Variable self : Rediz.instance.
Variable now : Z.
Hypothesis Huuid : forall i, is_uuid (random_keys i) = true.

Lemma new_named_inv (ndx : nat) (n v : string) (wk : option string) (w w' : world) out :
  Rediz._pipelined_set_new self now [ndx] [Some n] [Some v] [wk] w = (Ok out, w') ->
  (out = ([], [], [ndx], [Some n], [Some v], [wk]) /\ w' = w) \/
  (exists r, out = ([], [r], [], [], [], [])) \/
  (exists key k',
     out = ([Rediz.default_intent], [], [], [], [], []) /\ is_uuid key = true /\
     redis w' = snd (run now ([HSET Rediz.OWNERSHIP n k'; SADD Rediz.NAMES [n]] ++
                              modify_cmds self now key n v (ttl_seconds (getsizeof (Some v))))
                       (redis w))).
Proof.
  unfold Rediz._pipelined_set_new. intros Hb. inv_bind Hb.
  apply ret_inv in Hb as [<- <-]. inv_bind Hm. inv_bind Hm. inv_bind Hm.
  apply ret_inv in Hm as [<- <-].
  pose proof (pipe_execute_length _ _ _ _ _ Hm0) as Hlen.
  apply pipe_readonly in Hm0; [| repeat constructor]. subst w1.
  destruct a0 as [| e [| ? ?]]; try discriminate Hlen.
  cbn [zip_with] in Hm1. apply for_each_single in Hm1.
  unfold Rediz.new_body in Hm1. destruct (truthy e); cbn [negb] in Hm1.
  - apply ret_inv in Hm1 as [<- <-]. cbn in Hm2. apply ret_inv in Hm2 as [_ <-].
    left. unfold Rediz.residual. cbn. rewrite Nat.eqb_refl. auto.
  - right. inv_bind Hm1.
    assert (Hw1 : redis w0 = redis w).
    { destruct wk.
      - apply ret_inv in Hm as [_ <-]. reflexivity.
      - unfold bind, random_key, ret in Hm. injection Hm as _ <-. reflexivity. }
    destruct (is_valid_key a) eqn:Hk; cbn [negb] in Hm1.
    + right. destruct a as [k' |]; [| discriminate Hk].
      destruct (new_page_spec self now (Rediz.pipe Rediz.phase_start) ndx n (Some v)
                  (Some k') w0) as (cmds & wp & Hnp & Hrp & _ & Hc).
      rewrite (bind_ok _ _ _ _ _ Hnp) in Hm1. cbn beta iota in Hm1.
      apply ret_inv in Hm1 as [<- <-]. rewrite (Hc v eq_refl) in Hm2.
      exists (random_keys (rng w0)), k'. split; [reflexivity |]. split; [apply Huuid |].
      unfold Rediz.finish_phase in Hm2.
      cbn [Rediz.add_executed Rediz.executed Rediz.pipe Rediz.phase_start app hset_cmd] in Hm2.
      inv_bind Hm2. apply pipe_execute_inv in Hm0 as (_ & Hrun & _ & _).
      rewrite (record_results_redis _ _ _ _ _ Hm2).
      apply (f_equal snd) in Hrun. cbn [snd] in Hrun. rewrite <- Hrun, Hrp, Hw1. reflexivity.
    + left. apply ret_inv in Hm1 as [<- <-]. eexists. reflexivity.
Qed.

Lemma existing_named_inv (ndx : nat) (n v : string) (wk : option string) (w w' : world)
    (ex : list nat) (rj : list dict) :
  Rediz._pipelined_set_existing self now [ndx] [Some n] [Some v] [wk] w = (Ok (ex, rj), w') ->
  ex = [] \/
  (ex = [Rediz.default_intent] /\
   redis w' = snd (run now (modify_cmds self now (random_keys (rng w)) n v
                              (ttl_seconds (getsizeof (Some v)))) (redis w)) /\
   exists d, heap w' !! Rediz.default_intent = Some d /\ names_page n v d).
Proof.
  intros Hex. unfold Rediz._pipelined_set_existing in Hex.
  inv_bind Hex. apply ret_inv in Hex as [[= <- <-] <-].
  inv_bind Hm. unfold Rediz._write_keys, call in Hm0. inv_bind Hm0. inv_bind Hm1.
  apply pipe_readonly in Hm2; [| repeat constructor]. subst w3.
  assert (w2 = w) by (destruct a2 as [| ? [| ? ?]]; [discriminate Hm1 | | discriminate Hm1];
                      apply ret_inv in Hm1 as [_ <-]; reflexivity).
  subst w2. apply ret_inv in Hm0 as [<- <-]. clear Hm1.
  inv_bind Hm. apply ret_inv in Hm0 as [<- <-].
  inv_bind Hm. inv_bind Hm. apply ret_inv in Hm as [<- <-].
  destruct (map as_opt (as_list a1)) as [| o officials]; cbn [zip_with] in Hm0.
  - apply ret_inv in Hm0 as [<- _]. left. reflexivity.
  - apply for_each_single in Hm0.
    destruct (decide (wk = o)) as [<- | Hne].
    + right.
      destruct (existing_body_accept_heap self now Rediz.phase_start ndx n v wk w)
        as (wb & Hbody & Hrb & Hheap).
      rewrite Hbody in Hm0. injection Hm0 as <- <-.
      unfold Rediz.finish_phase in Hm1. cbn [Rediz.add_executed Rediz.executed Rediz.pipe
        Rediz.phase_start Rediz.rejected app] in Hm1 |- *.
      inv_bind Hm1. apply pipe_execute_inv in Hm as (_ & Hrun & _ & Hwb).
      split; [reflexivity |]. split.
      * rewrite (record_results_redis _ _ _ _ _ Hm1).
        apply (f_equal snd) in Hrun. cbn [snd] in Hrun. rewrite <- Hrun, Hrb. reflexivity.
      * eapply record_results_heap; [exact Hm1 |].
        rewrite Hwb. cbn [heap with_redis]. exact Hheap.
    + left. unfold Rediz.existing_body in Hm0.
      rewrite bool_decide_eq_false_2 in Hm0 by assumption.
      destruct o; [| discriminate Hm0]. apply ret_inv in Hm0 as [<- _]. reflexivity.
Qed.

(** A singular [set] of a name that returned: the name is valid and the
    page was written. *)
Lemma set_accepted (n v : string) (k : option string) (w w' : world) out :
  Rediz.set self now None None None (Some n) (Some v) k w = (Ok out, w') ->
  is_valid_name n = true /\ page_written self now n v (redis w) (redis w').
Proof.
  intros Hset.
  unfold Rediz.set, Rediz._coerce_inputs in Hset. cbn [Rediz.or_list map] in Hset.
  inv_bind Hset. inv_bind Hset.
  pose proof (coerce_outputs_world a w0) as Hcw. rewrite Hm0 in Hcw. cbn [snd] in Hcw. subst w1.
  destruct a0 as [| acc0 access]; [discriminate |]. apply ret_inv in Hset as [_ <-].
  apply coerce_outputs_nonempty in Hm0 as Hne.
  unfold Rediz._set, Rediz._coerce_inputs in Hm. cbn [Rediz.or_list length seq] in Hm.
  inv_bind Hm. apply obscure_named_inv in Hm1 as [-> ->].
  destruct (is_valid_name n) eqn:Hvalid.
  2: { inv_bind Hm. apply new_none in Hm1 as ->. inv_bind Hm.
       apply existing_none in Hm1 as [-> ->]. do 3 inv_bind Hm.
       apply ret_inv in Hm as [<- _]. contradiction Hne. reflexivity. }
  split; [reflexivity |].
  inv_bind Hm. apply new_named_inv in Hm1 as [[-> ->] | [[r ->] | (key & k' & -> & Hk & Hr)]].
  - inv_bind Hm. destruct a0 as [ex3 rj3].
    apply existing_named_inv in Hm1 as [-> | (-> & Hr1 & d & Hd & Hn1 & Hn2)].
    + do 3 inv_bind Hm. apply ret_inv in Hm as [<- _]. contradiction Hne. reflexivity.
    + inv_bind Hm. rewrite (read_items_single _ _ _ _ _ Hd Hn1) in Hm1. injection Hm1 as <- <-.
      inv_bind Hm. rewrite (read_items_single _ _ _ _ _ Hd Hn2) in Hm1. injection Hm1 as <- <-.
      inv_bind Hm. apply ret_inv in Hm as [_ <-].
      apply propagate_fan in Hm1 as [l Hl].
      exists (random_keys (rng w)), [], (map (fun s => HSET (Rediz.MESSAGES +:+ s) n v) l).
      split; [apply Huuid |]. split; [constructor |]. split.
      * apply Forall_forall. intros c Hc. apply list_elem_of_In, in_map_iff in Hc as (s & <- & _).
        intros k0 Hk0. cbn [writes] in Hk0. apply list_elem_of_singleton in Hk0. eauto.
      * cbn [run snd]. rewrite Hl, Hr1. reflexivity.
  - inv_bind Hm. apply existing_none in Hm1 as [-> ->]. do 3 inv_bind Hm.
    apply ret_inv in Hm as [<- _]. contradiction Hne. reflexivity.
  - inv_bind Hm. apply existing_none in Hm1 as [-> ->].
    inv_bind Hm. cbn in Hm1. injection Hm1 as <- <-.
    inv_bind Hm. cbn in Hm1. injection Hm1 as <- <-.
    inv_bind Hm. rewrite propagate_none in Hm1. injection Hm1 as _ <-.
    apply ret_inv in Hm as [_ <-].
    exists key, [HSET Rediz.OWNERSHIP n k'; SADD Rediz.NAMES [n]], [].
    split; [exact Hk |]. split.
    + constructor; [| constructor; [| constructor]]; intros k0 Hk0; cbn [writes] in Hk0;
        apply list_elem_of_singleton in Hk0; auto.
    + split; [constructor |]. cbn [run snd]. rewrite Hr, run_app. reflexivity.
Qed.
End Accepted.

(** ** The characters of the keys *)

Lemma all_chars_impl (p q : ascii -> bool) (s : string) :
  (forall c, p c = true -> q c = true) -> all_chars p s = true -> all_chars q s = true.
Proof.
  intros Hpq. induction s as [| c s IH]; [reflexivity |]. cbn.
  rewrite !andb_true_iff. intros [Hc Hs]. auto.
Qed.

Lemma prefix_app (sub a b : string) :
  String.prefix sub a = true -> String.prefix sub (a +:+ b) = true.
Proof.
  revert a. induction sub as [| c sub IH]; intros a; [destruct (a +:+ b); reflexivity |].
  destruct a as [| x a]; [discriminate |]. rewrite str_app_cons. cbn.
  destruct (ascii_dec c x); [apply IH | discriminate].
Qed.

Lemma contains_app (sub a b : string) :
  contains sub a = true -> contains sub (a +:+ b) = true.
Proof.
  induction a as [| x a IH].
  - cbn. rewrite orb_false_r. intros Hp. destruct sub; [| discriminate].
    destruct b; reflexivity.
  - rewrite str_app_cons. cbn [contains]. rewrite !orb_true_iff. intros [Hp | Hc].
    + left. apply (prefix_app sub (String x a) b Hp).
    + right. apply IH, Hc.
Qed.

Lemma contains_skip (sub a b : string) :
  contains sub b = true -> contains sub (a +:+ b) = true.
Proof.
  intros Hb. induction a as [| x a IH]; [exact Hb |].
  rewrite str_app_cons. cbn [contains]. rewrite IH. apply orb_true_r.
Qed.

Lemma valid_name_reserved (n : string) :
  is_valid_name n = true -> contains "::" n = false.
Proof.
  unfold is_valid_name. rewrite andb_true_iff, negb_true_iff. tauto.
Qed.








(** ** Splitting a promise *)





(** ** Keys that are kept apart *)

Lemma str_app_inv (a b x y : string) :
  String.length a = String.length b -> a +:+ x = b +:+ y -> a = b /\ x = y.
Proof.
  revert b. induction a as [| c a IH]; intros [| c' b]; try discriminate.
  - auto.
  - cbn [String.length]. intros [= Hl]. rewrite !str_app_cons. intros [= -> E].
    destruct (IH b Hl E) as [-> ->]. auto.
Qed.


Lemma bucket_reserved (e : Z) : contains "::" (promise_bucket e) = true.
Proof. unfold promise_bucket. apply contains_app. reflexivity. Qed.

Lemma bucket_not_name (e : Z) (n : string) :
  is_valid_name n = true -> promise_bucket e <> n.
Proof.
  intros Hn E. apply valid_name_reserved in Hn. rewrite <- E, bucket_reserved in Hn.
  discriminate.
Qed.

Lemma bucket_not_copy (e : Z) (key n : string) :
  is_uuid key = true -> is_valid_name n = true -> promise_bucket e <> key +:+ ":" +:+ n.
Proof.
  intros Hk Hn E. unfold is_uuid in Hk. apply andb_true_iff in Hk as [Hl _].
  apply Nat.eqb_eq in Hl.
  change (promise_bucket e)
    with ("09909e88-ca04-4868-a0a0-c94748df844f" +:+ (":::promises:" +:+ str e)) in E.
  symmetry in E. apply str_app_inv in E as [_ E]; [| exact Hl].
  change (String ":" n = String ":" ("::promises:" +:+ str e)) in E. injection E as ->.
  apply valid_name_reserved in Hn. rewrite contains_app in Hn by reflexivity. discriminate Hn.
Qed.



Lemma bucket_not_ownership (e : Z) : promise_bucket e <> Rediz.OWNERSHIP.
Proof.
  unfold promise_bucket, Rediz.PROMISES, Rediz.OWNERSHIP. rewrite str_app_assoc.
  intros E. apply str_app_inj_l in E. discriminate E.
Qed.


Lemma copy_not_history (key n : string) :
  is_uuid key = true -> key +:+ ":" +:+ n <> Rediz.HISTORY +:+ n.
Proof.
  intros Hu. destruct (uuid_first key Hu) as (c & rest & -> & Hc). intros E.
  injection E as -> _. discriminate Hc.
Qed.

Lemma copy_not_mailbox (key n s : string) :
  is_uuid key = true -> key +:+ ":" +:+ n <> Rediz.MESSAGES +:+ s.
Proof.
  intros Hu. destruct (uuid_first key Hu) as (c & rest & -> & Hc). intros E.
  injection E as -> _. discriminate Hc.
Qed.

Open Scope string_scope. Open Scope list_scope. Open Scope nat_scope.

(** ** Names with a content type *)





Open Scope string_scope. Open Scope list_scope. Open Scope Z_scope.

(** ** The buckets after a write *)

Section Buckets.
Variable now : Z.
Variables copy n : string.





End Buckets.

Lemma modify_cmds_split (self : Rediz.instance) (now : Z) (key n v : string) (ttl : Z) :
  modify_cmds self now key n v ttl =
  [SET n v (Some ttl);
   SET (key +:+ ":" +:+ n) v (Some (Z.min (Z.max (2 * 60 * 60) ttl) (60 * 60 * 24)))]
  ++ (if Rediz.has_xadd self
      then [XADD (Rediz.HISTORY +:+ n) {["copy" := key +:+ ":" +:+ n]}] else [])
  ++ flat_map (register_cmds now (key +:+ ":" +:+ n) n) (Rediz.DELAY_SECONDS self).
Proof. reflexivity. Qed.

Lemma registered_frame (now : Z) (copy n k : string) (L : list Z) (d : gmap string entry) :
  (forall e, k <> promise_bucket e) ->
  snd (run now (flat_map (register_cmds now copy n) L) d) !! k = d !! k.
Proof.
  intros Hk. apply run_frame. induction L as [| D L IH]; [constructor |].
  cbn [flat_map register_cmds app].
  repeat (constructor; [cbn [writes]; rewrite list_elem_of_singleton; apply Hk |]).
  exact IH.
Qed.


(** ** Keeping the promises *)

Lemma admin_promises_collects `{PyEnv} (now lookback : Z) (w : world) :
  0 < lookback ->
  Forall (set_or_absent now (redis w)) (scanned now lookback) ->
  Rediz.admin_promises now lookback w =
  keep_promises now (matured now lookback (redis w))
    (with_redis (foldr delete (redis w) (scanned now lookback)) w).
Proof.
  intros Hl Hs. unfold Rediz.admin_promises. cbn zeta.
  change (map (fun seconds : Z => Rediz.PROMISES +:+ str (now - seconds))
              (Rediz.range lookback)) with (scanned now lookback).
  rewrite (bind_ok _ _ _ _ _ (exists_pipe now (scanned now lookback) w)). cbn beta zeta.
  assert (Hnames : map fst (List.filter
              (fun _ => truthy (PList (map (fun c => PInt (count_live now (redis w) [c]))
                                           (scanned now lookback))))
              (zip (scanned now lookback)
                   (map (fun c => PInt (count_live now (redis w) [c])) (scanned now lookback))))
           = scanned now lookback).
  { pose proof (scanned_nonempty now lookback Hl) as Hne.
    assert (Ht : truthy (PList (map (fun c => PInt (count_live now (redis w) [c]))
                                    (scanned now lookback))) = true)
      by (destruct (scanned now lookback); [contradiction | reflexivity]).
    rewrite Ht, filter_all. apply fst_zip_map. }
  rewrite Hnames.
  rewrite (bind_ok _ _ _ _ _ (smembers_pipe now (scanned now lookback) w Hs)). cbn beta zeta.
  rewrite (bind_ok _ _ _ _ _ (del_call now _ w (scanned_nonempty now lookback Hl))).
  cbn beta zeta.
  assert (Hm : flat_map (fun c => set_order (as_set c))
                 (map (fun c => PSet (members now (redis w) c)) (scanned now lookback))
               = matured now lookback (redis w)).
  { unfold matured. generalize (scanned now lookback). intros l.
    induction l as [| x l IH]; [reflexivity |].
    cbn [map flat_map as_set]. rewrite IH. reflexivity. }
  rewrite Hm. reflexivity.
Qed.









Section Kept.
Variable t : Z.
Variables copy n v : string.
Hypothesis Hparse :
  forall D, Rediz.parse_promise (promise copy D n) = Ok (copy, delayed_name D n).

End Kept.

(** ** The round trip of a promise *)




(** ** The properties at work *)

Lemma returned_pair {A : Type} (dflt : A) (m : res A * world) :
  ~ raises (fst m) -> m = (Ok (returned dflt (fst m)), snd m).
Proof. destruct m as [[a | e] w]; cbn; [reflexivity | contradiction]. Qed.

Lemma demo_key_uuid (i : nat) : is_uuid (demo_key i) = true.
Proof.
  unfold demo_key. destruct (i mod 10)%nat as [| [| [| [| [| [| [| [| [| ?]]]]]]]]];
    reflexivity.
Qed.

Lemma cost_based_ttl_capped_antitone_witness :
  @getsizeof demo_env (Some "a") <= @getsizeof demo_env (Some "ab") /\
  exists t1 d1 t2 d2,
    @cost_based_ttl demo_env (Some "a") = Ok (t1, d1) /\
    @cost_based_ttl demo_env (Some "ab") = Ok (t2, d2) /\
    t1 <= 604800 /\ t2 <= 604800 /\ t2 <= t1.
Proof.
  split; [vm_compute; discriminate |].
  apply (@cost_based_ttl_capped_antitone demo_env (Some "a") (Some "ab")).
  vm_compute. discriminate.
Defined.


Lemma oversize_value_aborts_batch_witness :
  @is_valid_value demo_env (Some big_value) = false /\
  exists w',
    @Rediz.set demo_env demo 1000 (Some [Some "a.json"]) (Some [Some big_value])
      (Some [Some key_a]) None None None Rediz.fresh_world = (Raise TypeError, w') /\
    redis w' = redis Rediz.fresh_world.
Proof.
  assert (Hbad : @is_valid_value demo_env (Some big_value) = false)
    by (vm_compute; reflexivity).
  split; [exact Hbad |].
  apply (@oversize_value_aborts_batch demo_env demo 1000 Rediz.fresh_world
           [Some "a.json"] [Some big_value] [Some key_a] 0 (Some "a.json") (Some big_value)
           (Some key_a)); [reflexivity | reflexivity | reflexivity | exact Hbad].
Defined.

Lemma delete_unauthorized_raises_witness :
  ledger 1000 (redis owned_world) = Some owned_ledger /\
  Some key_b <> owned_ledger !! "a.json" /\
  @Rediz.delete demo_env 1000 (Some "a.json") (Some key_b) None None owned_world
  = (Raise TypeError, owned_world).
Proof.
  assert (Hl : ledger 1000 (redis owned_world) = Some owned_ledger) by reflexivity.
  assert (Hne : Some key_b <> owned_ledger !! "a.json")
    by (intros E; vm_compute in E; discriminate E).
  split; [exact Hl |]. split; [exact Hne |].
  apply (@delete_unauthorized_raises demo_env 1000 owned_world owned_ledger "a.json"
           (Some key_b) Hl Hne).
Defined.



Lemma subscriber_fan_out_witness :
  (forall i, is_uuid (@random_keys demo_env i) = true) /\
  Rediz._subscribe 900 "a.json" "b.json" owned_world = (Ok tt, subscribed_world) /\
  is_Some (live 1000 (redis subscribed_world) (Rediz.SUBSCRIBERS +:+ "a.json")) /\
  ledger 1000 (redis subscribed_world) = Some owned_ledger /\
  owned_ledger !! "a.json" = Some key_a /\
  owner_write subscribed_world
  = (Ok (returned (Rediz.Batch []) (fst (owner_write subscribed_world))),
     snd (owner_write subscribed_world)) /\
  mailbox 1000 (redis (snd (owner_write subscribed_world))) "b.json" !! "a.json" = Some "v1".
Proof.
  assert (Hu : forall i, is_uuid (@random_keys demo_env i) = true) by exact demo_key_uuid.
  assert (Hsub : Rediz._subscribe 900 "a.json" "b.json" owned_world = (Ok tt, subscribed_world))
    by reflexivity.
  assert (Hlive : is_Some (live 1000 (redis subscribed_world) (Rediz.SUBSCRIBERS +:+ "a.json")))
    by (vm_compute; eexists; reflexivity).
  assert (Hl : ledger 1000 (redis subscribed_world) = Some owned_ledger)
    by (vm_compute; reflexivity).
  assert (Hk : owned_ledger !! "a.json" = Some key_a) by reflexivity.
  assert (Hset : owner_write subscribed_world
                 = (Ok (returned (Rediz.Batch []) (fst (owner_write subscribed_world))),
                    snd (owner_write subscribed_world)))
    by (apply returned_pair; vm_compute; tauto).
  split; [exact Hu |]. split; [exact Hsub |]. split; [exact Hlive |]. split; [exact Hl |].
  split; [exact Hk |]. split; [exact Hset |].
  apply (@subscriber_fan_out demo_env demo 900 1000 owned_world subscribed_world
           (snd (owner_write subscribed_world)) owned_ledger "a.json" "b.json" "v1" key_a _
           Hu Hsub Hlive Hl Hk Hset).
Defined.

Lemma rejected_singular_set_raises_witness :
  bad_name_write
  = (Ok (returned (Rediz.Build_execution_log [] []) (fst bad_name_write)), snd bad_name_write) /\
  Rediz.log_rejected (returned (Rediz.Build_execution_log [] []) (fst bad_name_write)) <> [] /\
  Rediz.log_executed (returned (Rediz.Build_execution_log [] []) (fst bad_name_write)) = [] /\
  @Rediz.set demo_env demo 1000 None None None (Some "a b.json") (Some "v1") (Some key_a)
             Rediz.fresh_world = (Raise IndexError, snd bad_name_write).
Proof.
  assert (Hset : bad_name_write
                 = (Ok (returned (Rediz.Build_execution_log [] []) (fst bad_name_write)),
                    snd bad_name_write))
    by (apply returned_pair; vm_compute; tauto).
  assert (Hrej : Rediz.log_rejected (returned (Rediz.Build_execution_log [] [])
                                       (fst bad_name_write)) <> [])
    by (vm_compute; discriminate).
  split; [exact Hset |]. split; [exact Hrej |].
  apply (@rejected_singular_set_raises demo_env demo 1000 Rediz.fresh_world (snd bad_name_write)
           (Some "a b.json") (Some "v1") (Some key_a) _ Hset Hrej).
Defined.

(** ** Where the specification goes beyond the code *)




(** The first write of a name is a successful [set], and nothing reaches the
    subscriber (against C8 as the specification states it). *)
Lemma first_write_not_delivered :
  fst (Rediz._subscribe 900 "a.json" "b.json" Rediz.fresh_world) = Ok tt /\
  ~ raises (fst (owner_write early_subscriber_world)) /\
  string_at 1000 (redis (snd (owner_write early_subscriber_world))) "a.json" = Some "v1" /\
  mailbox 1000 (redis (snd (owner_write early_subscriber_world))) "b.json" !! "a.json" = None.
Proof.
  split; [reflexivity |]. split; [vm_compute; tauto |].
  split; vm_compute; reflexivity.
Qed.

(* ================================================================== *)
(** * More of what the client does *)

(** ** More of the cost model *)

(** X1. The cap of a week is what [cost_based_ttl] gives exactly to the
    values of at most 1328 bytes; a larger value lives shorter. *)
Theorem week_cap_threshold `{PyEnv} (v : option string) :
  exists t d, cost_based_ttl v = Ok (t, d) /\ (t = 604800 <-> getsizeof v <= 1328).
Proof.
  destruct (cost_based_ttl_seconds v) as [d Hd].
  exists (ttl_seconds (getsizeof v)), d. split; [exact Hd |].
  pose proof (getsizeof_nonneg v) as Hn.
  pose proof (ttl_seconds_bounds (getsizeof v) Hn) as Hb.
  destruct (Z_le_gt_dec (getsizeof v) 1328) as [Hle | Hgt].
  - pose proof (ttl_seconds_antitone (getsizeof v) 1328 Hn Hle) as Ha.
    change (ttl_seconds 1328) with 604800 in Ha. split; [auto |]. lia.
  - assert (Hge : 1329 <= getsizeof v) by lia.
    pose proof (ttl_seconds_antitone 1329 (getsizeof v) ltac:(lia) Hge) as Ha.
    assert (Hc : ttl_seconds 1329 = 604619) by (vm_compute; reflexivity).
    rewrite Hc in Ha. split; lia.
Qed.

(** X2. A value that [is_valid_value] accepts is kept for 8632 seconds at
    least, which is more than two hours. *)
Theorem valid_value_lifetime `{PyEnv} (v : option string) :
  is_valid_value v = true ->
  exists t d, cost_based_ttl v = Ok (t, d) /\ 8632 <= t <= 604800.
Proof.
  unfold is_valid_value. intros Hv. apply Z.ltb_lt in Hv.
  destruct (cost_based_ttl_seconds v) as [d Hd].
  exists (ttl_seconds (getsizeof v)), d. split; [exact Hd |].
  pose proof (getsizeof_nonneg v) as Hn.
  pose proof (ttl_seconds_bounds (getsizeof v) Hn) as Hb.
  pose proof (ttl_seconds_antitone (getsizeof v) 99999 Hn ltac:(lia)) as Ha.
  assert (Hc : ttl_seconds 99999 = 8632) by (vm_compute; reflexivity).
  rewrite Hc in Ha. lia.
Qed.

Lemma valid_value_lifetime_witness :
  @is_valid_value demo_env (Some "v1") = true /\
  exists t d, @cost_based_ttl demo_env (Some "v1") = Ok (t, d) /\ 8632 <= t <= 604800.
Proof.
  assert (Hv : @is_valid_value demo_env (Some "v1") = true) by (vm_compute; reflexivity).
  split; [exact Hv |]. apply (@valid_value_lifetime demo_env (Some "v1") Hv).
Defined.

(** ** Reading *)

Lemma pipe_execute_readonly (now : Z) (cmds : list command) (w : world) :
  Forall (fun c => writes c = []) cmds -> snd (pipe_execute now cmds w) = w.
Proof.
  intros Hr. unfold pipe_execute. destruct (negb (forallb encodable cmds)); [reflexivity |].
  pose proof (run_readonly now cmds (redis w) Hr) as Hd.
  destruct (run now cmds (redis w)) as [rs d]. cbn [snd] in Hd |- *. subst d.
  apply with_redis_same.
Qed.

(** X3. Reading changes nothing: whatever [get] is asked and whatever it
    answers or raises, the server and the client are as they were. *)
Theorem get_leaves_world (now : Z) (name : option string)
    (names : option (list (option string))) (w : world) :
  snd (Rediz.get now name names w) = w.
Proof.
  unfold Rediz.get, Rediz._pipelined_get, bind.
  destruct (Rediz.or_list names [name]) as [| n0 ns] eqn:E.
  - unfold ret. destruct name; reflexivity.
  - set (cmds := map (fun name0 => match name0 with Some n => GET n | None => INVALID end)
                     (n0 :: ns)).
    assert (Hr : Forall (fun c => writes c = []) cmds).
    { subst cmds. apply Forall_forall. intros c Hc.
      apply list_elem_of_In, in_map_iff in Hc as ([x |] & <- & _); reflexivity. }
    pose proof (pipe_execute_readonly now cmds w Hr) as Hw.
    destruct (pipe_execute now cmds w) as [[rs | e] w1]; cbn [snd] in Hw; subst w1;
      [| reflexivity].
    unfold ret. destruct name; [| reflexivity]. destruct rs; reflexivity.
Qed.

Lemma get_pipe (now : Z) (ns : list string) (d : gmap string entry) :
  Forall (string_or_absent now d) ns ->
  run now (map GET ns) d = (map (fun n => opt (string_at now d n)) ns, d).
Proof.
  induction 1 as [| n ns Hn _ IH]; [reflexivity |].
  cbn [map]. rewrite run_cons. cbn [exec]. unfold string_or_absent, string_at in *.
  destruct (live now d n) as [[[] ?] |]; try contradiction; cbn [fst snd opt];
    rewrite IH; reflexivity.
Qed.

(** X4. [mget] of names that are absent or hold strings answers with their
    values in the order of the names, [None] for a name that is absent or has
    expired. *)
Theorem mget_in_order (now : Z) (ns : list string) (w : world) :
  ns <> [] -> Forall (string_or_absent now (redis w)) ns ->
  Rediz.mget now (Some <$> ns) w
  = (Ok (PList (map (fun n => opt (string_at now (redis w) n)) ns)), w).
Proof.
  intros Hne Hs. destruct ns as [| n ns]; [contradiction |].
  unfold Rediz.mget, Rediz.get, Rediz._pipelined_get. cbn [fmap list_fmap Rediz.or_list].
  assert (Hp : pipe_execute now
                 (map (fun name => match name with Some n => GET n | None => INVALID end)
                      (Some n :: (Some <$> ns))) w
               = (Ok (map (fun n => opt (string_at now (redis w) n)) (n :: ns)), w)).
  { assert (Hm : map (fun name => match name with Some n => GET n | None => INVALID end)
                     (Some n :: (Some <$> ns)) = map GET (n :: ns)).
    { cbn [map]. f_equal. clear. induction ns as [| x ns IH]; [reflexivity |].
      cbn. now rewrite IH. }
    rewrite Hm. unfold pipe_execute.
    assert (He : forallb encodable (map GET (n :: ns)) = true)
      by (clear; induction (n :: ns); [reflexivity | assumption]).
    rewrite He. cbn [negb]. rewrite (get_pipe now (n :: ns) (redis w) Hs).
    assert (Hn : existsb is_error (map (fun n => opt (string_at now (redis w) n)) (n :: ns))
                 = false).
    { clear. induction (n :: ns) as [| x l IH]; [reflexivity |].
      cbn [map existsb]. rewrite IH. destruct (string_at now (redis w) x); reflexivity. }
    rewrite Hn, with_redis_same. reflexivity. }
  rewrite (bind_ok _ _ _ _ _ (bind_ok _ _ _ _ _ Hp)). reflexivity.
Qed.

Lemma mget_in_order_witness :
  ["a.json"; "b.json"] <> [] /\
  Forall (string_or_absent 1001 (redis (snd first_write))) ["a.json"; "b.json"] /\
  Rediz.mget 1001 (Some <$> ["a.json"; "b.json"]) (snd first_write)
  = (Ok (PList (map (fun n => opt (string_at 1001 (redis (snd first_write)) n))
                    ["a.json"; "b.json"])), snd first_write).
Proof.
  assert (Hne : ["a.json"; "b.json"] <> []) by discriminate.
  assert (Hs : Forall (string_or_absent 1001 (redis (snd first_write))) ["a.json"; "b.json"]).
  { constructor; [vm_compute; exact I |]. constructor; [vm_compute; exact I |]. constructor. }
  split; [exact Hne |]. split; [exact Hs |].
  apply (mget_in_order 1001 ["a.json"; "b.json"] (snd first_write) Hne Hs).
Defined.

(** ** Writing and reading *)

Lemma name_not_reserved (n p s : string) :
  is_valid_name n = true -> contains "::" p = true -> n <> p +:+ s.
Proof.
  intros Hn Hp E. apply valid_name_reserved in Hn.
  rewrite E, (contains_app "::" p s Hp) in Hn. discriminate Hn.
Qed.

(** The page of an accepted write: the value, with the lifetime the cost
    model gives it *)
Lemma written_page `{PyEnv} (self : Rediz.instance) (now : Z) (n v : string)
    (d0 d1 : gmap string entry) :
  page_written self now n v d0 d1 -> is_valid_name n = true ->
  d1 !! n = Some (Entry (VString v) (Some (now + ttl_seconds (getsizeof (Some v))))).
Proof.
  intros (key & pre & fan & Hk & Hpre & Hfan & ->) Hn.
  set (ttl := ttl_seconds (getsizeof (Some v))).
  assert (Hpos : 1 <= ttl) by (apply ttl_seconds_bounds, getsizeof_nonneg).
  rewrite run_frame.
  2: { eapply Forall_impl; [exact Hfan |]. intros c Hc Hin. cbn beta in Hc.
       destruct (Hc n Hin) as [s E]. revert E. apply name_not_reserved; [exact Hn | reflexivity]. }
  rewrite modify_cmds_split. fold ttl. cbn [app]. rewrite run_cons, run_cons, run_app.
  cbn [snd].
  rewrite registered_frame by (intros e E; symmetry in E; revert E; apply bucket_not_name, Hn).
  rewrite run_frame.
  2: { destruct (Rediz.has_xadd self); repeat constructor.
       cbn [writes]. rewrite list_elem_of_singleton.
       apply name_not_reserved; [exact Hn | reflexivity]. }
  rewrite exec_frame.
  2: { cbn [writes]. rewrite list_elem_of_singleton. intros E. symmetry in E. revert E.
       rewrite <- str_app_assoc. apply app_longer.
       destruct key; discriminate. }
  cbn [exec]. rewrite (proj2 (Z.leb_gt ttl 0)) by lia. cbn [snd]. apply lookup_insert_eq.
Qed.

Lemma get_entry (now : Z) (k v : string) (ex : option Z) (w : world) :
  redis w !! k = Some (Entry (VString v) ex) ->
  Rediz.get now (Some k) None w
  = (Ok (if expired now (Entry (VString v) ex) then PNone else PStr v), w).
Proof.
  intros Hk. unfold Rediz.get, Rediz._pipelined_get, pipe_execute, bind.
  cbn [Rediz.or_list map forallb encodable andb negb run exec]. unfold live. rewrite Hk.
  destruct (expired now _); cbn; rewrite with_redis_same; reflexivity.
Qed.



(** ** The promise executor when there is nothing to do *)

Lemma set_order_empty `{PyEnv} : set_order ∅ = [].
Proof.
  apply Permutation_nil_r. rewrite (set_order_perm ∅), elements_empty. reflexivity.
Qed.

Lemma matured_none `{PyEnv} (now lookback : Z) (d : gmap string entry) :
  Forall (fun c => live now d c = None) (scanned now lookback) ->
  matured now lookback d = [].
Proof.
  unfold matured. generalize (scanned now lookback). intros l Hl.
  induction Hl as [| c l Hc _ IH]; [reflexivity |].
  cbn [flat_map]. rewrite IH. unfold members. rewrite Hc, set_order_empty. reflexivity.
Qed.

(** X6. When none of the buckets [admin_promises] looks at is there, it does
    not return 0: it calls [mget] without a key and raises TypeError. *)
Theorem admin_promises_nothing_due `{PyEnv} (now lookback : Z) (w : world) :
  0 < lookback ->
  Forall (fun c => live now (redis w) c = None) (scanned now lookback) ->
  Rediz.admin_promises now lookback w
  = (Raise TypeError, with_redis (foldr delete (redis w) (scanned now lookback)) w).
Proof.
  intros Hl Hnone.
  rewrite admin_promises_collects.
  - rewrite (matured_none now lookback (redis w) Hnone). reflexivity.
  - exact Hl.
  - eapply Forall_impl; [exact Hnone |]. intros c Hc. cbn beta in Hc.
    unfold set_or_absent. rewrite Hc. exact I.
Qed.

Lemma admin_promises_nothing_due_witness :
  0 < 65 /\
  Forall (fun c => live 1000 (redis Rediz.fresh_world) c = None) (scanned 1000 65) /\
  @Rediz.admin_promises demo_env 1000 65 Rediz.fresh_world
  = (Raise TypeError,
     with_redis (foldr delete (redis Rediz.fresh_world) (scanned 1000 65)) Rediz.fresh_world).
Proof.
  assert (Hl : 0 < 65) by lia.
  assert (Hnone : Forall (fun c => live 1000 (redis Rediz.fresh_world) c = None)
                         (scanned 1000 65)).
  { apply Forall_forall. intros c _. reflexivity. }
  split; [exact Hl |]. split; [exact Hnone |].
  apply (@admin_promises_nothing_due demo_env 1000 65 Rediz.fresh_world Hl Hnone).
Defined.

(** X7. With a look-back that is not positive [admin_promises] looks at no
    bucket, sends a DEL without a key, and raises the error the server
    answers with; nothing has changed. *)
Theorem admin_promises_no_lookback `{PyEnv} (now lookback : Z) (w : world) :
  lookback <= 0 ->
  Rediz.admin_promises now lookback w = (Raise ResponseError, w).
Proof.
  intros Hl. unfold Rediz.admin_promises, Rediz.range.
  replace (Z.to_nat lookback) with 0%nat by lia.
  unfold bind, call, pipe_execute. cbn. rewrite !with_redis_same. reflexivity.
Qed.

Lemma admin_promises_no_lookback_witness :
  0 <= 0 /\ @Rediz.admin_promises demo_env 1000 0 Rediz.fresh_world
            = (Raise ResponseError, Rediz.fresh_world).
Proof.
  split; [lia |]. apply (@admin_promises_no_lookback demo_env 1000 0 Rediz.fresh_world). lia.
Defined.

(** ** Reserved names *)

Lemma assert_reserved (ns : list string) (n : string) (w : world) :
  n ∈ ns -> contains "::" n = true ->
  Rediz.assert_not_in_reserved_namespace (Some <$> ns) w = (Raise ReservedNamespace, w).
Proof.
  intros Hin Hn. unfold Rediz.assert_not_in_reserved_namespace.
  induction ns as [| x ns IH]; [inversion Hin |].
  cbn [fmap list_fmap for_each]. unfold bind.
  destruct (contains "::" x) eqn:Ex; [reflexivity |]. unfold ret at 1.
  apply elem_of_cons in Hin as [-> | Hin]; [congruence |]. apply IH, Hin.
Qed.

Lemma assert_not_reserved (ns : list string) (w : world) :
  Forall (fun n => contains "::" n = false) ns ->
  Rediz.assert_not_in_reserved_namespace (Some <$> ns) w = (Ok tt, w).
Proof.
  intros Hn. unfold Rediz.assert_not_in_reserved_namespace.
  induction Hn as [| x ns Hx _ IH]; [reflexivity |].
  cbn [fmap list_fmap for_each]. unfold bind. rewrite Hx. unfold ret at 1. exact IH.
Qed.

(** X8. [_delete] refuses the whole list when one of the names has a double
    colon in it: it raises before anything is sent to the server. *)
Theorem delete_reserved_refused `{PyEnv} (now : Z) (ns : list string) (n : string) (w : world) :
  n ∈ ns -> contains "::" n = true ->
  Rediz._delete now (Some <$> ns) w = (Raise ReservedNamespace, w).
Proof.
  intros Hin Hn. unfold Rediz._delete.
  apply bind_raise. apply (assert_reserved ns n w Hin Hn).
Qed.

Lemma delete_reserved_refused_witness :
  "messages::b.json" ∈ ["a.json"; "messages::b.json"] /\
  contains "::" "messages::b.json" = true /\
  @Rediz._delete demo_env 1000 (Some <$> ["a.json"; "messages::b.json"]) owned_world
  = (Raise ReservedNamespace, owned_world).
Proof.
  assert (Hin : "messages::b.json" ∈ ["a.json"; "messages::b.json"])
    by (right; left).
  assert (Hn : contains "::" "messages::b.json" = true) by reflexivity.
  split; [exact Hin |]. split; [exact Hn |].
  apply (@delete_reserved_refused demo_env 1000 ["a.json"; "messages::b.json"]
           "messages::b.json" owned_world Hin Hn).
Defined.

(** ** Grouping the replies of a pipeline *)

Lemma grouper_exact (m : nat) (groups : list (list pyval)) (fuel : nat) :
  (0 < m)%nat -> Forall (fun g => length g = m) groups ->
  (length (concat groups) <= fuel)%nat ->
  Rediz.grouper fuel m (concat groups) = map PList groups.
Proof.
  intros Hm Hg. revert fuel. induction Hg as [| g groups Hlen _ IH]; intros fuel Hf.
  - destruct fuel; reflexivity.
  - cbn [concat] in *. rewrite length_app in Hf.
    destruct fuel as [| fuel]; [lia |].
    destruct g as [| x g']; [cbn in Hlen; lia |].
    change ((x :: g') ++ concat groups) with (x :: (g' ++ concat groups)).
    cbn [Rediz.grouper map].
    change (x :: (g' ++ concat groups)) with ((x :: g') ++ concat groups).
    subst m. rewrite take_app_length, drop_app_length, length_app.
    replace (length (x :: g') - (length (x :: g') + length (concat groups)))%nat
      with 0%nat by lia.
    cbn [replicate]. rewrite app_nil_r. f_equal. apply IH. lia.
Qed.

Lemma chunks_exist (m n : nat) (l : list pyval) :
  length l = (n * m)%nat ->
  exists groups, concat groups = l /\ length groups = n /\
                 Forall (fun g => length g = m) groups.
Proof.
  revert l. induction n as [| n IH]; intros l Hl.
  - exists []. destruct l; [repeat split; constructor | discriminate Hl].
  - destruct (IH (drop m l)) as (gs & Hc & Hn & Hf).
    { rewrite length_drop. lia. }
    exists (take m l :: gs). cbn [concat length]. rewrite Hc, take_drop.
    repeat split; [congruence |]. constructor; [| exact Hf].
    rewrite length_take. lia.
Qed.

(** X9. [pipe_results_grouper] gives back the replies of [n] operations of
    [m] commands each as [n] groups of [m], in order: nothing is lost, padded
    or moved to another group. *)
Theorem pipe_results_grouper_chunks (results : list pyval) (n m : nat) :
  (0 < n)%nat -> (0 < m)%nat -> length results = (n * m)%nat ->
  exists groups,
    Rediz.pipe_results_grouper results n = map PList groups /\
    concat groups = results /\ length groups = n /\
    Forall (fun g => length g = m) groups.
Proof.
  intros Hn Hm Hl. destruct (chunks_exist m n results Hl) as (groups & Hc & Hg & Hf).
  exists groups. split; [| auto]. unfold Rediz.pipe_results_grouper.
  replace (length results / n)%nat with m
    by (rewrite Hl, (Nat.mul_comm n m), Nat.div_mul; lia).
  destruct m as [| m']; [lia |].
  rewrite <- Hc. apply grouper_exact; [lia | exact Hf | lia].
Qed.

Lemma pipe_results_grouper_chunks_witness :
  (0 < 2)%nat /\ (0 < 3)%nat /\
  length [PInt 1; PInt 2; PInt 3; PInt 4; PInt 5; PInt 6] = (2 * 3)%nat /\
  exists groups,
    Rediz.pipe_results_grouper [PInt 1; PInt 2; PInt 3; PInt 4; PInt 5; PInt 6] 2
    = map PList groups /\
    concat groups = [PInt 1; PInt 2; PInt 3; PInt 4; PInt 5; PInt 6] /\
    length groups = 2%nat /\ Forall (fun g => length g = 3%nat) groups.
Proof.
  split; [lia |]. split; [lia |]. split; [reflexivity |].
  apply (pipe_results_grouper_chunks [PInt 1; PInt 2; PInt 3; PInt 4; PInt 5; PInt 6] 2 3);
    [lia | lia | reflexivity].
Defined.

(** ** Reading without a name *)

Lemma or_list_nonempty {A : Type} (xs : option (list A)) (x : A) :
  Rediz.or_list xs [x] <> [].
Proof. destruct xs as [[| y l] |]; discriminate. Qed.

(** X10. [get] reads the key [None] when it is given neither a name nor
    names, and so does a batch with a name that is [None]; [mget] of an empty
    list does the same. The client refuses to encode the command: DataError,
    and nothing is sent. *)
Theorem get_without_name_raises (now : Z) (name : option string)
    (names : option (list (option string))) (w : world) :
  None ∈ Rediz.or_list names [name] ->
  Rediz.get now name names w = (Raise DataError, w) /\
  Rediz.mget now [] w = (Raise DataError, w).
Proof.
  intros Hin. split; [| reflexivity].
  unfold Rediz.get, Rediz._pipelined_get.
  pose proof (or_list_nonempty names name) as Hne.
  destruct (Rediz.or_list names [name]) as [| x l] eqn:E; [contradiction |].
  apply bind_raise, bind_raise. unfold pipe_execute.
  assert (He : forallb encodable
                 (map (fun name0 => match name0 with Some n => GET n | None => INVALID end)
                      (x :: l)) = false).
  { apply not_true_is_false. intros Ht. rewrite forallb_forall in Ht.
    specialize (Ht INVALID). rewrite in_map_iff in Ht.
    discriminate Ht. exists None. split; [reflexivity |]. apply list_elem_of_In, Hin. }
  rewrite He. reflexivity.
Qed.

Lemma get_without_name_raises_witness :
  None ∈ Rediz.or_list (Some [Some "a.json"; None]) [None] /\
  Rediz.get 1000 None (Some [Some "a.json"; None]) owned_world = (Raise DataError, owned_world) /\
  Rediz.mget 1000 [] owned_world = (Raise DataError, owned_world).
Proof.
  assert (Hin : None ∈ Rediz.or_list (Some [Some "a.json"; None]) [None]) by (right; left).
  split; [exact Hin |].
  apply (get_without_name_raises 1000 None (Some [Some "a.json"; None]) owned_world Hin).
Defined.

(** ** The reserved name spaces *)

(** X11. A name that [is_valid_name] accepts is none of the keys the client
    keeps for itself: not the ledger, not the set of names, no promise
    bucket, no delayed value, mailbox, history or set of subscribers. *)
Theorem valid_name_not_reserved (n : string) :
  is_valid_name n = true ->
  n <> Rediz.OWNERSHIP /\ n <> Rediz.NAMES /\
  forall s, n <> Rediz.PROMISES +:+ s /\ n <> Rediz.DELAYED +:+ s /\
            n <> Rediz.MESSAGES +:+ s /\ n <> Rediz.HISTORY +:+ s /\
            n <> Rediz.SUBSCRIBERS +:+ s.
Proof.
  intros Hn.
  assert (Hp : forall p s, contains "::" p = true -> n <> p +:+ s)
    by (intros p s; apply name_not_reserved, Hn).
  split; [rewrite <- (str_app_nil_r Rediz.OWNERSHIP); apply Hp; reflexivity |].
  split; [rewrite <- (str_app_nil_r Rediz.NAMES); apply Hp; reflexivity |].
  intros s. repeat split; apply Hp; reflexivity.
Qed.

Lemma valid_name_not_reserved_witness :
  is_valid_name "a.json" = true /\
  "a.json" <> Rediz.OWNERSHIP /\ "a.json" <> Rediz.NAMES /\
  forall s, "a.json" <> Rediz.PROMISES +:+ s /\ "a.json" <> Rediz.DELAYED +:+ s /\
            "a.json" <> Rediz.MESSAGES +:+ s /\ "a.json" <> Rediz.HISTORY +:+ s /\
            "a.json" <> Rediz.SUBSCRIBERS +:+ s.
Proof.
  assert (Hn : is_valid_name "a.json" = true) by (vm_compute; reflexivity).
  split; [exact Hn |]. apply (valid_name_not_reserved "a.json" Hn).
Defined.

(** ** The copy for the history *)

Lemma written_copy `{PyEnv} (self : Rediz.instance) (now : Z) (n v : string)
    (d0 d1 : gmap string entry) :
  page_written self now n v d0 d1 -> is_valid_name n = true ->
  exists key,
    is_uuid key = true /\
    d1 !! (key +:+ ":" +:+ n)
    = Some (Entry (VString v)
              (Some (now + Z.min (Z.max (2 * 60 * 60) (ttl_seconds (getsizeof (Some v))))
                                 (60 * 60 * 24)))).
Proof.
  intros (key & pre & fan & Hk & Hpre & Hfan & ->) Hn.
  set (ttl := ttl_seconds (getsizeof (Some v))).
  set (life := Z.min (Z.max (2 * 60 * 60) ttl) (60 * 60 * 24)).
  set (copy := key +:+ ":" +:+ n).
  exists key. split; [exact Hk |].
  rewrite run_frame.
  2: { eapply Forall_impl; [exact Hfan |]. intros c Hc Hin. cbn beta in Hc.
       destruct (Hc _ Hin) as [s E]. revert E. apply copy_not_mailbox, Hk. }
  rewrite modify_cmds_split. fold ttl life copy. cbn [app].
  rewrite run_cons, run_cons, run_app. cbn [snd].
  rewrite registered_frame
    by (intros e E; symmetry in E; revert E; apply bucket_not_copy; assumption).
  rewrite run_frame.
  2: { destruct (Rediz.has_xadd self); repeat constructor.
       cbn [writes]. rewrite list_elem_of_singleton. apply copy_not_history, Hk. }
  cbn [exec].
  assert (Hl : (life <=? 0) = false) by (apply Z.leb_gt; subst life; lia).
  rewrite Hl. cbn [snd]. apply lookup_insert_eq.
Qed.

(** X12. Every singular [set] that returns has left a copy of the value
    under a key of the form [<random key>:<name>]; whatever the lifetime of
    the page, the copy lives two hours at least and a day at most, and [get]
    reads it while it lives. *)
Theorem history_copy_kept `{PyEnv} (self : Rediz.instance) (now : Z) (w w1 : world)
    (n v : string) (k : option string) out :
  (forall i, is_uuid (random_keys i) = true) ->
  Rediz.set self now None None None (Some n) (Some v) k w = (Ok out, w1) ->
  exists key life,
    is_uuid key = true /\ 2 * 60 * 60 <= life <= 24 * 60 * 60 /\
    redis w1 !! (key +:+ ":" +:+ n) = Some (Entry (VString v) (Some (now + life))) /\
    forall t, t < now + life ->
      Rediz.get t (Some (key +:+ ":" +:+ n)) None w1 = (Ok (PStr v), w1).
Proof.
  intros Hu Hset.
  destruct (set_accepted self now Hu n v k w w1 out Hset) as [Hvalid Hpw].
  destruct (written_copy self now n v _ _ Hpw Hvalid) as (key & Hk & Hcopy).
  exists key. eexists. split; [exact Hk |]. split; [| split; [exact Hcopy |]].
  - lia.
  - intros t Ht. rewrite (get_entry t _ v _ w1 Hcopy). cbn [expired expire_at].
    rewrite (proj2 (Z.leb_gt _ _)) by lia. reflexivity.
Qed.

Lemma history_copy_kept_witness :
  (forall i, is_uuid (@random_keys demo_env i) = true) /\
  first_write = (Ok (returned (Rediz.Batch []) (fst first_write)), snd first_write) /\
  exists key life,
    is_uuid key = true /\ 2 * 60 * 60 <= life <= 24 * 60 * 60 /\
    redis (snd first_write) !! (key +:+ ":" +:+ "a.json")
    = Some (Entry (VString "v1") (Some (1000 + life))) /\
    forall t, t < 1000 + life ->
      Rediz.get t (Some (key +:+ ":" +:+ "a.json")) None (snd first_write)
      = (Ok (PStr "v1"), snd first_write).
Proof.
  assert (Hu : forall i, is_uuid (@random_keys demo_env i) = true) by exact demo_key_uuid.
  assert (Hset : first_write = (Ok (returned (Rediz.Batch []) (fst first_write)), snd first_write))
    by (apply returned_pair; vm_compute; tauto).
  split; [exact Hu |]. split; [exact Hset |].
  apply (@history_copy_kept demo_env demo 1000 Rediz.fresh_world (snd first_write)
           "a.json" "v1" (Some key_a) _ Hu Hset).
Defined.

(** ** Deleting *)

Lemma pipe_execute_world (now : Z) (cmds : list command) (w : world) :
  forallb encodable cmds = true ->
  snd (pipe_execute now cmds w) = with_redis (snd (run now cmds (redis w))) w.
Proof.
  intros He. unfold pipe_execute. rewrite He. cbn [negb].
  destruct (run now cmds (redis w)) as [rs d]. reflexivity.
Qed.

Lemma omap_id_some {A : Type} (l : list A) : omap id (Some <$> l) = l.
Proof. induction l as [| x l IH]; [reflexivity |]. cbn. f_equal. exact IH. Qed.

Lemma assert_world (names : list (option string)) (w : world) :
  snd (Rediz.assert_not_in_reserved_namespace names w) = w.
Proof.
  apply for_each_world. intros [] [n |] w0; [| reflexivity].
  destruct (contains "::" n); reflexivity.
Qed.

Lemma assert_ok_inv (ns : list string) (w w' : world) :
  Rediz.assert_not_in_reserved_namespace (Some <$> ns) w = (Ok tt, w') ->
  Forall (fun n => contains "::" n = false) ns.
Proof.
  unfold Rediz.assert_not_in_reserved_namespace. revert w.
  induction ns as [| n ns IH]; intros w Ha; [constructor |].
  cbn [fmap list_fmap for_each] in Ha. unfold bind in Ha.
  destruct (contains "::" n) eqn:En; [discriminate Ha |]. unfold ret at 1 in Ha.
  constructor; [exact En | exact (IH w Ha)].
Qed.

(** The pipeline that is to clear the mailboxes: one HDEL for every
    subscriber of a name, on the mailbox of the name itself *)
Lemma removal_cmds `{PyEnv} (ns : list string) (subs_res : list pyval) (c : command) :
  c ∈ flat_map (fun x : string * pyval =>
                  map (fun _ : string => HDEL (Rediz.MESSAGES +:+ fst x) [fst x])
                      (set_order (as_set (snd x))))
               (zip ns subs_res) ->
  exists n, n ∈ ns /\ c = HDEL (Rediz.MESSAGES +:+ n) [n].
Proof.
  intros Hc. apply list_elem_of_In, in_flat_map in Hc as ([n r] & Hx & Hc).
  apply in_map_iff in Hc as (s & <- & _). exists n. split; [| reflexivity].
  apply list_elem_of_In in Hx. apply elem_of_zip_l in Hx. exact Hx.
Qed.

Lemma removal_encodable `{PyEnv} (ns : list string) (subs_res : list pyval) :
  forallb encodable
    (flat_map (fun x : string * pyval =>
                 map (fun _ : string => HDEL (Rediz.MESSAGES +:+ fst x) [fst x])
                     (set_order (as_set (snd x))))
              (zip ns subs_res)) = true.
Proof.
  apply forallb_forall. intros c Hc. apply list_elem_of_In in Hc.
  apply removal_cmds in Hc as (n & _ & ->). reflexivity.
Qed.

(** What [_delete] has sent to the server that can change it, whether it
    returned or raised *)
Lemma delete_runs `{PyEnv} (now : Z) (ns : list string) (w : world) :
  exists cmds,
    snd (Rediz._delete now (Some <$> ns) w) = with_redis (snd (run now cmds (redis w))) w /\
    Forall (fun c => forall k, k ∈ writes c ->
              exists n, n ∈ ns /\ contains "::" n = false /\ k ∈ delete_keys n) cmds.
Proof.
  assert (Hnil : snd (Rediz._delete now (Some <$> ns) w) = w ->
                 exists cmds,
                   snd (Rediz._delete now (Some <$> ns) w)
                   = with_redis (snd (run now cmds (redis w))) w /\
                   Forall (fun c => forall k, k ∈ writes c ->
                             exists n, n ∈ ns /\ contains "::" n = false /\ k ∈ delete_keys n)
                          cmds).
  { intros E. exists []. split; [| constructor]. rewrite E. symmetry. apply with_redis_same. }
  destruct ns as [| n0 ns0]; [apply Hnil; destruct w; reflexivity |].
  set (ns := n0 :: ns0) in *.
  unfold Rediz._delete, bind in *.
  pose proof (assert_world (Some <$> ns) w) as Hw0.
  destruct (Rediz.assert_not_in_reserved_namespace (Some <$> ns) w) as [[[] | e] w0] eqn:Ea;
    cbn [snd] in Hw0; subst w0; [| apply Hnil; reflexivity].
  apply assert_ok_inv in Ea. rewrite omap_id_some in *.
  assert (Hro : Forall (fun c => writes c = [])
                  (map (fun name => SMEMBERS (Rediz.SUBSCRIBERS +:+ name)) ns)).
  { apply Forall_forall. intros c Hc.
    apply list_elem_of_In, in_map_iff in Hc as (x & <- & _). reflexivity. }
  pose proof (pipe_execute_readonly now _ w Hro) as Hw1.
  destruct (pipe_execute now (map (fun name => SMEMBERS (Rediz.SUBSCRIBERS +:+ name)) ns) w)
    as [[subs_res | e] w1] eqn:Es; cbn [snd] in Hw1; subst w1;
    [| apply Hnil; reflexivity].
  clear Hnil.
  set (removal := flat_map _ (zip ns subs_res)).
  assert (Hrem : Forall (fun c => forall k, k ∈ writes c ->
                   exists n, n ∈ ns /\ contains "::" n = false /\ k ∈ delete_keys n) removal).
  { apply Forall_forall. intros c Hc. apply removal_cmds in Hc as (n & Hn & ->).
    intros k Hk. cbn [writes] in Hk. apply list_elem_of_singleton in Hk as ->.
    exists n. split; [exact Hn |]. split; [| left].
    rewrite Forall_forall in Ea. apply Ea, Hn. }
  pose proof (pipe_execute_world now removal w (removal_encodable ns subs_res)) as Hw2.
  fold removal in Hw2.
  destruct (pipe_execute now removal w) as [[r2 | e] w2] eqn:Er; cbn [snd] in Hw2; subst w2.
  2: { exists removal. split; [reflexivity | exact Hrem]. }
  pose proof (pipe_execute_world now (delete_cmds ns)
                (with_redis (snd (run now removal (redis w))) w) eq_refl) as Hw3.
  unfold delete_cmds in Hw3.
  exists (removal ++ delete_cmds ns). split.
  - match goal with
    | |- snd (match ?m with _ => _ end) = _ =>
        replace (snd (match m with
                      | (Ok _, w') => ret tt w'
                      | (Raise e, w') => (Raise e, w')
                      end)) with (snd m) by (destruct m as [[? | ?] ?]; reflexivity)
    end.
    rewrite Hw3. cbn [redis with_redis]. rewrite run_app. reflexivity.
  - apply Forall_app. split; [exact Hrem |].
    assert (Hpre : forall (p : string) k,
              k ∈ map (fun name => p +:+ name) ns ->
              (forall n, p +:+ n ∈ delete_keys n) ->
              exists n, n ∈ ns /\ contains "::" n = false /\ k ∈ delete_keys n).
    { intros p k Hk Hp. apply list_elem_of_In, in_map_iff in Hk as (n & <- & Hn).
      apply list_elem_of_In in Hn. exists n. split; [exact Hn |]. split; [| apply Hp].
      rewrite Forall_forall in Ea. apply Ea, Hn. }
    assert (Hhead : contains "::" n0 = false) by (inversion Ea; assumption).
    unfold delete_cmds.
    constructor; [| constructor; [| constructor; [| constructor; [| constructor;
      [| constructor; [| constructor]]]]]]; intros k Hk; cbn [writes] in Hk.
    + apply list_elem_of_singleton in Hk as ->. exists n0.
      split; [left |]. split; [exact Hhead |]. right; left.
    + apply (Hpre Rediz.SUBSCRIBERS k Hk). intros n. do 2 right; left.
    + apply (Hpre Rediz.MESSAGES k Hk). intros n. left.
    + exists k. split; [exact Hk |]. split; [| do 3 right; left].
      rewrite Forall_forall in Ea. apply Ea, Hk.
    + apply (Hpre Rediz.HISTORY k Hk). intros n. do 4 right; left.
    + apply list_elem_of_singleton in Hk as ->. exists n0.
      split; [left |]. split; [exact Hhead |]. do 5 right; left.
Qed.

Lemma delete_frame `{PyEnv} (now : Z) (ns : list string) (k : string) (w : world) :
  (forall n, n ∈ ns -> contains "::" n = false -> k ∉ delete_keys n) ->
  redis (snd (Rediz._delete now (Some <$> ns) w)) !! k = redis w !! k.
Proof.
  intros Hk. destruct (delete_runs now ns w) as (cmds & -> & Hc). cbn [redis with_redis].
  apply run_frame. eapply Forall_impl; [exact Hc |]. intros c Hw Hin. cbn beta in Hw.
  destruct (Hw k Hin) as (n & Hn & Hcol & Hkn). exact (Hk n Hn Hcol Hkn).
Qed.

Lemma mailbox_not_deleted (B n : string) :
  B <> n -> contains "::" n = false -> Rediz.MESSAGES +:+ B ∉ delete_keys n.
Proof.
  intros Hne Hn Hin. unfold delete_keys in Hin.
  repeat (apply elem_of_cons in Hin as [E | Hin]); try discriminate E.
  - apply str_app_inj_l in E. contradiction.
  - rewrite <- E, (contains_app "::" Rediz.MESSAGES B eq_refl) in Hn. discriminate Hn.
  - inversion Hin.
Qed.

(** X13. [_delete] does not take back what the deleted names have sent:
    the mailbox of a subscriber that is not deleted itself is as it was,
    whether [_delete] returns or raises. *)
Theorem delete_leaves_mailboxes `{PyEnv} (now t : Z) (ns : list string) (B : string)
    (w : world) :
  B ∉ ns ->
  mailbox t (redis (snd (Rediz._delete now (Some <$> ns) w))) B = mailbox t (redis w) B.
Proof.
  intros HB. unfold mailbox. erewrite live_frame; [reflexivity |].
  apply delete_frame. intros n Hn Hcol. apply mailbox_not_deleted; [| exact Hcol].
  intros ->. contradiction.
Qed.

Lemma delete_leaves_mailboxes_witness :
  ("b.json" ∉ ["a.json"]) /\
  mailbox 1001 (redis (snd (@Rediz._delete demo_env 1001 (Some <$> ["a.json"])
                              (snd (owner_write subscribed_world))))) "b.json"
  = mailbox 1001 (redis (snd (owner_write subscribed_world))) "b.json".
Proof.
  assert (HB : "b.json" ∉ ["a.json"])
    by (intros Hin; apply list_elem_of_singleton in Hin; discriminate Hin).
  split; [exact HB |].
  apply (@delete_leaves_mailboxes demo_env 1001 1001 ["a.json"] "b.json"
           (snd (owner_write subscribed_world)) HB).
Defined.

(** ** A permissioned delete that goes ahead *)

Lemma plain_not_reserved (n p s : string) :
  contains "::" n = false -> contains "::" p = true -> n <> p +:+ s.
Proof.
  intros Hn Hp E. rewrite E, (contains_app "::" p s Hp) in Hn. discriminate Hn.
Qed.

Lemma foldr_delete_lookup_in (ks : list string) (d : gmap string entry) (k : string) :
  k ∈ ks -> foldr delete d ks !! k = None.
Proof.
  induction ks as [| x ks IH]; intros Hk; [inversion Hk |].
  cbn [foldr]. destruct (decide (k = x)) as [-> | Hne]; [apply lookup_delete_eq |].
  rewrite lookup_delete_ne by congruence. apply IH.
  apply elem_of_cons in Hk as [-> | Hk]; [contradiction | exact Hk].
Qed.

Lemma del_lookup (now : Z) (ks : list string) (d : gmap string entry) (k : string) :
  k ∈ ks -> snd (exec now (DEL ks) d) !! k = None.
Proof.
  intros Hk. destruct ks as [| x ks]; [inversion Hk |]. cbn [exec snd].
  apply foldr_delete_lookup_in, Hk.
Qed.

Lemma live_not_expired (now : Z) (d : gmap string entry) (k : string) (e : entry) :
  live now d k = Some e -> expired now e = false.
Proof.
  unfold live. destruct (d !! k) as [e0 |]; [| discriminate].
  destruct (expired now e0) eqn:Ex; [discriminate |]. intros [= <-]. exact Ex.
Qed.

Lemma live_insert (now : Z) (d : gmap string entry) (k : string) (e : entry) :
  expired now e = false -> live now (<[k := e]> d) k = Some e.
Proof. intros Ex. unfold live. rewrite lookup_insert_eq, Ex. reflexivity. Qed.

Lemma live_delete (now : Z) (d : gmap string entry) (k : string) :
  live now (delete k d) k = None.
Proof. unfold live. rewrite lookup_delete_eq. reflexivity. Qed.

Lemma hdel_ledger (now : Z) (n : string) (h : gmap string string) (d : gmap string entry) :
  ledger now d = Some h ->
  ledger now (snd (exec now (HDEL Rediz.OWNERSHIP [n]) d)) = Some (delete n h).
Proof.
  unfold ledger. cbn [exec].
  destruct (live now d Rediz.OWNERSHIP) as [[c ex] |] eqn:El.
  - apply live_not_expired in El as Ex.
    destruct c as [s | h0 | s | es]; try discriminate. intros [= <-]. cbn [foldr snd].
    case_bool_decide as Hempty.
    + rewrite live_delete, Hempty. reflexivity.
    + rewrite live_insert by exact Ex. reflexivity.
  - intros [= <-]. cbn [snd]. rewrite El, delete_empty. reflexivity.
Qed.

Lemma srem_members (now : Z) (n : string) (d : gmap string entry) :
  n ∉ members now (snd (exec now (SREM Rediz.NAMES [n]) d)) Rediz.NAMES.
Proof.
  cbn [exec]. unfold members.
  destruct (live now d Rediz.NAMES) as [[c ex] |] eqn:El.
  - apply live_not_expired in El as Ex.
    destruct c as [s | h0 | s | es]; cbn [snd]; try (rewrite El; apply not_elem_of_empty).
    case_bool_decide as Hempty.
    + rewrite live_delete. apply not_elem_of_empty.
    + rewrite live_insert by exact Ex. intros Hin.
      apply elem_of_difference in Hin as [_ Hn]. apply Hn, elem_of_list_to_set. left.
  - cbn [snd]. rewrite El. apply not_elem_of_empty.
Qed.

Lemma get_absent (t : Z) (k : string) (w : world) :
  redis w !! k = None -> Rediz.get t (Some k) None w = (Ok PNone, w).
Proof.
  intros Hk. unfold Rediz.get, Rediz._pipelined_get, pipe_execute, bind.
  cbn [Rediz.or_list map forallb encodable andb negb run exec]. unfold live. rewrite Hk.
  cbn. rewrite with_redis_same. reflexivity.
Qed.

(** [_delete] of one name that returned *)
Lemma delete_one_inv `{PyEnv} (now : Z) (n : string) (w w' : world) :
  Rediz._delete now [Some n] w = (Ok tt, w') ->
  contains "::" n = false /\
  exists removal,
    Forall (fun c => c = HDEL (Rediz.MESSAGES +:+ n) [n]) removal /\
    redis w' = snd (run now (delete_cmds [n]) (snd (run now removal (redis w)))).
Proof.
  intros Hd. change [Some n] with (Some <$> [n]) in Hd. unfold Rediz._delete in Hd.
  inv_bind Hd. pose proof (assert_world (Some <$> [n]) w) as Hw0.
  rewrite Hm in Hw0. cbn [snd] in Hw0. subst w0. destruct a.
  apply assert_ok_inv in Hm. split; [inversion Hm; assumption |].
  rewrite omap_id_some in Hd. inv_bind Hd.
  apply pipe_readonly in Hm0; [| repeat constructor]. subst w0.
  inv_bind Hd. inv_bind Hd. apply ret_inv in Hd as [_ <-].
  exists (flat_map (fun x : string * pyval =>
                      map (fun _ : string => HDEL (Rediz.MESSAGES +:+ fst x) [fst x])
                          (set_order (as_set (snd x))))
                   (zip [n] a)).
  split.
  - apply Forall_forall. intros c Hc. apply removal_cmds in Hc as (n' & Hn' & ->).
    apply list_elem_of_singleton in Hn' as ->. reflexivity.
  - apply pipe_execute_inv in Hm1 as (_ & Hr1 & _ & _).
    apply pipe_execute_inv in Hm0 as (_ & Hr0 & _ & _).
    apply (f_equal snd) in Hr1, Hr0. cbn [snd] in Hr1, Hr0.
    rewrite <- Hr1, <- Hr0. reflexivity.
Qed.

Lemma removal_frame (now : Z) (n k : string) (removal : list command)
    (d : gmap string entry) :
  Forall (fun c => c = HDEL (Rediz.MESSAGES +:+ n) [n]) removal ->
  k <> Rediz.MESSAGES +:+ n ->
  snd (run now removal d) !! k = d !! k.
Proof.
  intros Hr Hk. apply run_frame. eapply Forall_impl; [exact Hr |].
  intros c -> Hin. cbn [writes] in Hin. apply list_elem_of_singleton in Hin. contradiction.
Qed.

(** X14. A [delete] that returns was given the key the ledger has for the
    name, which for a name the ledger does not have is no key at all. It has
    taken the name out of the ledger and out of the set of names and has
    removed the page, its history, its mailbox and its set of subscribers;
    [get] of the name gives [None] from then on. *)
Theorem delete_authorized `{PyEnv} (now : Z) (n : string) (k : option string)
    (h : gmap string string) (w w' : world) :
  ledger now (redis w) = Some h ->
  Rediz.delete now (Some n) k None None w = (Ok tt, w') ->
  k = h !! n /\
  ledger now (redis w') = Some (delete n h) /\
  (n ∉ members now (redis w') Rediz.NAMES) /\
  Forall (fun key => redis w' !! key = None)
         [n; Rediz.SUBSCRIBERS +:+ n; Rediz.MESSAGES +:+ n; Rediz.HISTORY +:+ n] /\
  forall t, Rediz.get t (Some n) None w' = (Ok PNone, w').
Proof.
  intros Hl Hd. unfold Rediz.delete, Rediz._are_valid_write_keys in Hd.
  cbn [Rediz.or_list] in Hd.
  pose proof (hmget_ledger now w h [n] ltac:(discriminate) Hl) as Hw.
  cbn [fmap list_fmap] in Hw, Hd.
  rewrite (bind_ok _ _ _ _ _ (bind_ok _ _ _ _ _ Hw)) in Hd.
  cbn [Rediz.iterable ret zip_with map fst snd] in Hd.
  destruct (decide (k = h !! n)) as [Hk | Hk].
  2: { rewrite bool_decide_eq_false_2 in Hd by exact Hk. discriminate Hd. }
  rewrite bool_decide_eq_true_2 in Hd by exact Hk. cbn [List.filter map fst snd] in Hd.
  split; [exact Hk |].
  apply delete_one_inv in Hd as (Hcol & removal & Hrem & Hr).
  assert (Hplain : forall p s, contains "::" p = true -> n <> p +:+ s)
    by (intros p s; apply plain_not_reserved, Hcol).
  assert (HnO : n <> Rediz.OWNERSHIP)
    by (rewrite <- (str_app_nil_r Rediz.OWNERSHIP); apply Hplain; reflexivity).
  assert (HnN : n <> Rediz.NAMES)
    by (rewrite <- (str_app_nil_r Rediz.NAMES); apply Hplain; reflexivity).
  assert (HnS : n <> Rediz.SUBSCRIBERS +:+ n) by (apply Hplain; reflexivity).
  assert (HnM : n <> Rediz.MESSAGES +:+ n) by (apply Hplain; reflexivity).
  assert (HnH : n <> Rediz.HISTORY +:+ n) by (apply Hplain; reflexivity).
  unfold delete_cmds in Hr. cbn [map] in Hr. rewrite !run_cons in Hr. cbn [run snd] in Hr.
  assert (Hn : redis w' !! n = None).
  { rewrite Hr.
    do 2 (rewrite exec_frame
            by (cbn [writes]; rewrite list_elem_of_singleton; first [congruence | discriminate])).
    apply del_lookup. left. }
  split; [| split; [| split]].
  - rewrite Hr. unfold ledger.
    do 5 (erewrite live_frame
            by (apply exec_frame; cbn [writes]; rewrite list_elem_of_singleton;
                first [congruence | discriminate])).
    apply hdel_ledger. unfold ledger. erewrite live_frame; [exact Hl |].
    apply (removal_frame now n); [exact Hrem | discriminate].
  - rewrite Hr. apply srem_members.
  - rewrite Hr. constructor; [rewrite <- Hr; exact Hn |].
    constructor; [| constructor; [| constructor; [| constructor]]].
    + do 4 (rewrite exec_frame
              by (cbn [writes]; rewrite list_elem_of_singleton;
                  first [congruence | discriminate])).
      apply del_lookup. left.
    + do 3 (rewrite exec_frame
              by (cbn [writes]; rewrite list_elem_of_singleton;
                  first [congruence | discriminate])).
      apply del_lookup. left.
    + rewrite exec_frame
        by (cbn [writes]; rewrite list_elem_of_singleton; first [congruence | discriminate]).
      apply del_lookup. left.
  - intros t. apply get_absent, Hn.
Qed.

Lemma delete_authorized_witness :
  ledger 1001 (redis (snd first_write)) = Some owned_ledger /\
  owner_delete = (Ok tt, snd owner_delete) /\
  Some key_a = owned_ledger !! "a.json" /\
  ledger 1001 (redis (snd owner_delete)) = Some (delete "a.json" owned_ledger) /\
  ("a.json" ∉ members 1001 (redis (snd owner_delete)) Rediz.NAMES) /\
  Forall (fun key => redis (snd owner_delete) !! key = None)
         ["a.json"; Rediz.SUBSCRIBERS +:+ "a.json"; Rediz.MESSAGES +:+ "a.json";
          Rediz.HISTORY +:+ "a.json"] /\
  forall t, Rediz.get t (Some "a.json") None (snd owner_delete) = (Ok PNone, snd owner_delete).
Proof.
  assert (Hl : ledger 1001 (redis (snd first_write)) = Some owned_ledger)
    by (vm_compute; reflexivity).
  assert (Hd : owner_delete = (Ok tt, snd owner_delete)).
  { pose proof (returned_pair tt owner_delete) as E.
    destruct (returned tt (fst owner_delete)). apply E. vm_compute. tauto. }
  split; [exact Hl |]. split; [exact Hd |].
  apply (@delete_authorized demo_env 1001 "a.json" (Some key_a) owned_ledger
           (snd first_write) (snd owner_delete) Hl Hd).
Defined.

(** ** Looking for orphans *)

Lemma scard_world (now : Z) (k : string) (w : world) : snd (scard now k w) = w.
Proof. unfold scard. destruct (live now (redis w) k) as [[[] ?] |]; reflexivity. Qed.

Lemma srandmember_spec `{Sampler} (now : Z) (k : string) (num : Z) (w w1 : world)
    (r : res (list string)) :
  0 < num -> srandmember now k num w = (r, w1) ->
  redis w1 = redis w /\
  forall drawn, r = Ok drawn ->
    NoDup drawn /\ (length drawn <= Z.to_nat num)%nat /\
    forall x, x ∈ drawn -> x ∈ members now (redis w) k.
Proof.
  intros Hnum. unfold srandmember, members. rewrite (proj2 (Z.ltb_lt 0 num) Hnum).
  destruct (live now (redis w) k) as [[[s | h | s | es] ex] |]; intros [= <- <-];
    (split; [reflexivity |]); intros drawn [= <-].
  - split; [apply sample_nodup |]. split; [rewrite sample_length; lia |].
    intros x. apply sample_members.
  - split; [constructor |]. split; [cbn; lia |]. intros x Hx. inversion Hx.
Qed.

Lemma set_order_elem `{PyEnv} (X : gset string) (x : string) : x ∈ set_order X <-> x ∈ X.
Proof. rewrite (set_order_perm X). apply elem_of_elements. Qed.

Lemma set_order_nodup `{PyEnv} (X : gset string) : NoDup (set_order X).
Proof. rewrite (set_order_perm X). apply NoDup_elements. Qed.

Lemma set_order_length `{PyEnv} (l : list string) :
  NoDup l -> length (set_order (list_to_set l)) = length l.
Proof.
  intros Hl. rewrite (set_order_perm _). rewrite elements_list_to_set by exact Hl. reflexivity.
Qed.

Lemma exists_call (now : Z) (ks : list string) (w : world) :
  ks <> [] -> call now (EXISTS ks) w = (Ok (PInt (count_live now (redis w) ks)), w).
Proof.
  intros Hne. destruct ks as [| k ks]; [contradiction |].
  unfold call, pipe_execute, bind. cbn [forallb encodable andb negb run exec existsb is_error orb].
  rewrite with_redis_same. reflexivity.
Qed.

Lemma count_live_one (now : Z) (d : gmap string entry) (c : string) :
  negb (truthy (PInt (count_live now d [c]))) = bool_decide (live now d c = None).
Proof.
  unfold count_live. rewrite filter_cons, filter_nil.
  destruct (decide (is_Some (live now d c))) as [[e He] | Hn].
  - rewrite He. reflexivity.
  - destruct (live now d c) as [e |] eqn:E; [contradiction Hn; eauto |]. reflexivity.
Qed.

Lemma count_live_all (now : Z) (d : gmap string entry) (ks : list string) :
  Forall (fun k => is_Some (live now d k)) ks -> count_live now d ks = Z.of_nat (length ks).
Proof.
  intros Hall. unfold count_live. f_equal.
  induction Hall as [| k ks Hk _ IH]; [reflexivity |].
  rewrite filter_cons. destruct (decide (is_Some (live now d k))); [| contradiction].
  cbn [length]. rewrite IH. reflexivity.
Qed.

(** The names the survey finds missing *)
Lemma orphans_filter (now : Z) (d : gmap string entry) (ks : list string) :
  map fst (List.filter (fun p : string * pyval => negb (truthy (snd p)))
                       (zip ks (map (fun c => PInt (count_live now d [c])) ks)))
  = List.filter (fun c => bool_decide (live now d c = None)) ks.
Proof.
  induction ks as [| k ks IH]; [reflexivity |].
  cbn [map zip_with List.filter snd]. rewrite count_live_one.
  destruct (bool_decide (live now d k = None)); cbn [map fst]; rewrite IH; reflexivity.
Qed.

Lemma orphans_some (now : Z) (d : gmap string entry) (ks : list string) :
  count_live now d ks < Z.of_nat (length ks) ->
  List.filter (fun c => bool_decide (live now d c = None)) ks <> [].
Proof.
  intros Hlt Hnil. rewrite count_live_all in Hlt; [lia |].
  apply Forall_forall. intros k Hk.
  destruct (live now d k) as [e |] eqn:E; [eauto |]. exfalso.
  assert (Hin : In k (List.filter (fun c => bool_decide (live now d c = None)) ks)).
  { apply filter_In. split; [apply list_elem_of_In, Hk |]. apply bool_decide_eq_true_2, E. }
  rewrite Hnil in Hin. exact Hin.
Qed.

(** What [_randomly_find_orphans] gives: nothing on the server has changed;
    the orphans are names the set of names has and the server has no page
    for, each once, and there is one at least. *)
Lemma find_orphans_spec `{PyEnv} `{Sampler} (now num : Z) (w w1 : world)
    (r : res (option (list string))) :
  0 < num -> Rediz._randomly_find_orphans now num w = (r, w1) ->
  redis w1 = redis w /\
  forall orphans, r = Ok (Some orphans) ->
    orphans <> [] /\ NoDup orphans /\ (length orphans <= Z.to_nat num)%nat /\
    forall o, o ∈ orphans ->
      o ∈ members now (redis w) Rediz.NAMES /\ live now (redis w) o = None.
Proof.
  intros Hnum. unfold Rediz._randomly_find_orphans. unfold bind at 1.
  destruct (srandmember now Rediz.NAMES num w) as [[drawn | e] w0] eqn:Es.
  2: { intros [= <- <-]. apply (srandmember_spec now Rediz.NAMES num w w0 _ Hnum) in Es as [Hr _].
       split; [exact Hr |]. intros orphans E. discriminate E. }
  apply (srandmember_spec now Rediz.NAMES num w w0 _ Hnum) in Es as [Hr Hd].
  destruct (Hd drawn eq_refl) as (Hnd & Hlen & Hmem). clear Hd.
  set (names := set_order (list_to_set drawn)).
  assert (Hnames : forall x, x ∈ names -> x ∈ members now (redis w) Rediz.NAMES).
  { intros x Hx. apply Hmem. apply set_order_elem in Hx.
    apply elem_of_list_to_set in Hx. exact Hx. }
  assert (Hlen' : (length names <= Z.to_nat num)%nat)
    by (subst names; rewrite set_order_length by exact Hnd; exact Hlen).
  destruct (length names =? 0)%nat eqn:E0.
  { intros [= <- <-]. split; [exact Hr |]. intros orphans E. discriminate E. }
  assert (Hne : names <> []) by (intros E; rewrite E in E0; discriminate E0).
  unfold bind at 1. rewrite (exists_call now names w0 Hne).
  destruct (count_live now (redis w0) names <? Z.of_nat (length names)) eqn:Elt.
  2: { intros [= <- <-]. split; [exact Hr |]. intros orphans E. discriminate E. }
  unfold bind. rewrite (exists_pipe now names w0). unfold ret. intros [= <- <-].
  split; [exact Hr |]. intros orphans [= <-]. rewrite orphans_filter.
  apply Z.ltb_lt in Elt. rewrite Hr in *.
  split; [apply orphans_some, Elt |].
  split; [apply NoDup_ListNoDup, List.NoDup_filter, NoDup_ListNoDup, set_order_nodup |].
  split.
  - etransitivity; [| exact Hlen']. apply List.filter_length_le.
  - intros o Ho. apply list_elem_of_In, filter_In in Ho as [Ho Hl].
    split; [apply Hnames, list_elem_of_In, Ho |]. apply bool_decide_eq_true_1 in Hl. exact Hl.
Qed.

(** ** Collecting the garbage *)

Lemma map_Some_fmap {A : Type} (l : list A) : map Some l = Some <$> l.
Proof. reflexivity. Qed.

(** [_delete] that returned: the pipelines it has run *)
Lemma delete_inv `{PyEnv} (now : Z) (ns : list string) (w w' : world) :
  Rediz._delete now (Some <$> ns) w = (Ok tt, w') ->
  Forall (fun n => contains "::" n = false) ns /\
  exists removal,
    Forall (fun c => exists n, n ∈ ns /\ c = HDEL (Rediz.MESSAGES +:+ n) [n]) removal /\
    redis w' = snd (run now (delete_cmds ns) (snd (run now removal (redis w)))).
Proof.
  intros Hd. unfold Rediz._delete in Hd.
  inv_bind Hd. pose proof (assert_world (Some <$> ns) w) as Hw0.
  rewrite Hm in Hw0. cbn [snd] in Hw0. subst w0. destruct a.
  apply assert_ok_inv in Hm. split; [exact Hm |].
  rewrite omap_id_some in Hd. inv_bind Hd.
  apply pipe_readonly in Hm0.
  2: { apply Forall_forall. intros c Hc.
       apply list_elem_of_In, in_map_iff in Hc as (x & <- & _). reflexivity. }
  subst w0. inv_bind Hd. inv_bind Hd. apply ret_inv in Hd as [_ <-].
  exists (flat_map (fun x : string * pyval =>
                      map (fun _ : string => HDEL (Rediz.MESSAGES +:+ fst x) [fst x])
                          (set_order (as_set (snd x))))
                   (zip ns a)).
  split.
  - apply Forall_forall. intros c Hc. apply removal_cmds in Hc. exact Hc.
  - apply pipe_execute_inv in Hm1 as (_ & Hr1 & _ & _).
    apply pipe_execute_inv in Hm0 as (_ & Hr0 & _ & _).
    apply (f_equal snd) in Hr1, Hr0. cbn [snd] in Hr1, Hr0.
    rewrite <- Hr1, <- Hr0. reflexivity.
Qed.

Lemma hdel_ledger_list (now : Z) (ns : list string) (h : gmap string string)
    (d : gmap string entry) :
  ns <> [] -> ledger now d = Some h ->
  ledger now (snd (exec now (HDEL Rediz.OWNERSHIP ns) d)) = Some (foldr delete h ns).
Proof.
  intros Hne. destruct ns as [| n0 ns0]; [contradiction |].
  unfold ledger. cbn [exec].
  destruct (live now d Rediz.OWNERSHIP) as [[c ex] |] eqn:El.
  - apply live_not_expired in El as Ex.
    destruct c as [s | h0 | s | es]; try discriminate. intros [= <-]. cbn [snd].
    case_bool_decide as Hempty.
    + rewrite live_delete, Hempty. reflexivity.
    + rewrite live_insert by exact Ex. reflexivity.
  - intros [= <-]. cbn [snd]. rewrite El. f_equal. symmetry.
    generalize (n0 :: ns0). clear. intros l.
    induction l as [| x l IH]; [reflexivity |]. cbn [foldr]. rewrite IH.
    apply delete_empty.
Qed.

Lemma empty_minus (X : gset string) : (∅ : gset string) ∖ X = ∅.
Proof. apply empty_difference_L. Qed.

Lemma srem_members_list (now : Z) (ns : list string) (d : gmap string entry) :
  ns <> [] ->
  members now (snd (exec now (SREM Rediz.NAMES ns) d)) Rediz.NAMES
  = members now d Rediz.NAMES ∖ list_to_set ns.
Proof.
  intros Hne. destruct ns as [| n0 ns0]; [contradiction |].
  cbn [exec]. unfold members.
  destruct (live now d Rediz.NAMES) as [[c ex] |] eqn:El.
  - apply live_not_expired in El as Ex.
    destruct c as [s | h0 | s | es]; cbn [snd];
      try (rewrite El, empty_minus; reflexivity).
    case_bool_decide as Hempty.
    + rewrite live_delete, Hempty. reflexivity.
    + rewrite live_insert by exact Ex. reflexivity.
  - cbn [snd]. rewrite El, empty_minus. reflexivity.
Qed.

Lemma prefixed_elem (p k : string) (ns : list string) :
  k ∈ map (fun name => p +:+ name) ns -> exists n, n ∈ ns /\ k = p +:+ n.
Proof.
  intros Hk. apply list_elem_of_In, in_map_iff in Hk as (n & <- & Hn).
  exists n. split; [apply list_elem_of_In, Hn | reflexivity].
Qed.

(** A key that is none of the names and holds a double colon that no
    prefix of the client's begins with is left alone by the last pipeline
    but for the command that names it. *)
Lemma ownership_frame (now : Z) (ns : list string) (d : gmap string entry) :
  Forall (fun n => contains "::" n = false) ns ->
  snd (run now [DEL (map (fun name => Rediz.SUBSCRIBERS +:+ name) ns);
                DEL (map (fun name => Rediz.MESSAGES +:+ name) ns);
                DEL ns;
                DEL (map (fun name => Rediz.HISTORY +:+ name) ns);
                SREM Rediz.NAMES ns] d) !! Rediz.OWNERSHIP = d !! Rediz.OWNERSHIP.
Proof.
  intros Hp. apply run_frame.
  constructor; [| constructor; [| constructor; [| constructor; [| constructor;
    [| constructor]]]]]; cbn [writes]; intros Hin.
  - apply prefixed_elem in Hin as (n & _ & E). discriminate E.
  - apply prefixed_elem in Hin as (n & _ & E). discriminate E.
  - rewrite Forall_forall in Hp. specialize (Hp _ Hin). discriminate Hp.
  - apply prefixed_elem in Hin as (n & _ & E). discriminate E.
  - apply list_elem_of_singleton in Hin. discriminate Hin.
Qed.

Lemma names_frame (now : Z) (ns : list string) (d : gmap string entry) :
  Forall (fun n => contains "::" n = false) ns ->
  snd (run now [HDEL Rediz.OWNERSHIP ns;
                DEL (map (fun name => Rediz.SUBSCRIBERS +:+ name) ns);
                DEL (map (fun name => Rediz.MESSAGES +:+ name) ns);
                DEL ns;
                DEL (map (fun name => Rediz.HISTORY +:+ name) ns)] d) !! Rediz.NAMES
  = d !! Rediz.NAMES.
Proof.
  intros Hp. apply run_frame.
  constructor; [| constructor; [| constructor; [| constructor; [| constructor;
    [| constructor]]]]]; cbn [writes]; intros Hin.
  - apply list_elem_of_singleton in Hin. discriminate Hin.
  - apply prefixed_elem in Hin as (n & _ & E). discriminate E.
  - apply prefixed_elem in Hin as (n & _ & E). discriminate E.
  - rewrite Forall_forall in Hp. specialize (Hp _ Hin). discriminate Hp.
  - apply prefixed_elem in Hin as (n & _ & E). discriminate E.
Qed.

Lemma removal_frame_list (now : Z) (ns : list string) (k : string)
    (removal : list command) (d : gmap string entry) :
  Forall (fun c => exists n, n ∈ ns /\ c = HDEL (Rediz.MESSAGES +:+ n) [n]) removal ->
  (forall n, k <> Rediz.MESSAGES +:+ n) ->
  snd (run now removal d) !! k = d !! k.
Proof.
  intros Hr Hk. apply run_frame. eapply Forall_impl; [exact Hr |].
  intros c (n & _ & ->) Hin. cbn [writes] in Hin. apply list_elem_of_singleton in Hin.
  exact (Hk n Hin).
Qed.

Lemma run_single_snd (now : Z) (c : command) (d : gmap string entry) :
  snd (run now [c] d) = snd (exec now c d).
Proof. rewrite run_cons. reflexivity. Qed.

Lemma num_survey_bounds (x : Z) : 20 <= Z.min 100 (Z.max 20 x) <= 100.
Proof. lia. Qed.

(** X15. What a garbage collection that returns has done. The number it
    returns counts names that the set of names had and the server had no
    page for any more, at most 100 of them, each once; these names, and no
    other, are gone from the set of names, and the ledger has forgotten
    them. Nothing has changed when the number is 0. *)
Theorem garbage_collection_effect `{PyEnv} `{Sampler} (now : Z) (fraction : Q)
    (w w' : world) (r : Z) :
  Rediz.admin_garbage_collection now fraction w = (Ok r, w') ->
  exists orphans,
    r = Z.of_nat (length orphans) /\ r <= 100 /\ NoDup orphans /\
    (forall o, o ∈ orphans ->
       o ∈ members now (redis w) Rediz.NAMES /\ live now (redis w) o = None) /\
    members now (redis w') Rediz.NAMES
    = members now (redis w) Rediz.NAMES ∖ list_to_set orphans /\
    (forall h, ledger now (redis w) = Some h ->
               ledger now (redis w') = Some (foldr delete h orphans)) /\
    (r = 0 -> redis w' = redis w).
Proof.
  unfold Rediz.admin_garbage_collection. intros Hgc. inv_bind Hgc.
  pose proof (scard_world now Rediz.NAMES w) as Hw0. rewrite Hm in Hw0. cbn [snd] in Hw0.
  subst w0. clear Hm. inv_bind Hgc.
  set (num := Z.min 100 (Z.max 20 (Float.to_int (Float.mul fraction (Float.of_int a))))) in *.
  pose proof (num_survey_bounds (Float.to_int (Float.mul fraction (Float.of_int a)))) as Hnum.
  fold num in Hnum.
  apply (find_orphans_spec now num) in Hm as [Hr Ho]; [| lia].
  destruct a0 as [orphans |].
  2: { apply ret_inv in Hgc as [<- <-]. exists []. rewrite Hr.
       split; [reflexivity |]. split; [lia |]. split; [constructor |].
       split; [intros o Hin; inversion Hin |].
       split; [cbn [list_to_set]; rewrite difference_empty_L; reflexivity |].
       split; [intros h Hl; exact Hl | reflexivity]. }
  destruct (Ho orphans eq_refl) as (Hne & Hnd & Hlen & Hall). clear Ho.
  inv_bind Hgc. apply ret_inv in Hgc as [<- <-].
  destruct orphans as [| o0 os]; [contradiction |]. set (orphans := o0 :: os) in *.
  rewrite map_Some_fmap in Hm. destruct a0.
  apply delete_inv in Hm as (Hplain & removal & Hrem & Hd). rewrite Hr in Hd.
  exists orphans. split; [reflexivity |]. split; [lia |]. split; [exact Hnd |].
  split; [exact Hall |].
  unfold delete_cmds in Hd. split; [| split].
  - rewrite Hd.
    change [HDEL Rediz.OWNERSHIP orphans;
            DEL (map (fun name => Rediz.SUBSCRIBERS +:+ name) orphans);
            DEL (map (fun name => Rediz.MESSAGES +:+ name) orphans);
            DEL orphans;
            DEL (map (fun name => Rediz.HISTORY +:+ name) orphans);
            SREM Rediz.NAMES orphans]
      with ([HDEL Rediz.OWNERSHIP orphans;
             DEL (map (fun name => Rediz.SUBSCRIBERS +:+ name) orphans);
             DEL (map (fun name => Rediz.MESSAGES +:+ name) orphans);
             DEL orphans;
             DEL (map (fun name => Rediz.HISTORY +:+ name) orphans)]
            ++ [SREM Rediz.NAMES orphans]).
    rewrite run_app. cbn [snd]. rewrite (run_single_snd now (SREM Rediz.NAMES orphans)).
    rewrite srem_members_list by exact Hne. f_equal.
    unfold members. erewrite live_frame; [reflexivity |].
    rewrite (names_frame now orphans _ Hplain).
    apply (removal_frame_list now orphans); [exact Hrem | intros n; discriminate].
  - intros h Hl. rewrite Hd. rewrite run_cons. cbn [snd]. unfold ledger at 1.
    erewrite live_frame by (apply (ownership_frame now orphans _ Hplain)).
    apply hdel_ledger_list; [exact Hne |].
    unfold ledger. erewrite live_frame; [exact Hl |].
    apply (removal_frame_list now orphans); [exact Hrem | intros n; discriminate].
  - intros E. subst orphans. cbn [length] in E. lia.
Qed.

(** X16. A garbage collection never takes a page that is there: a key
    without a double colon that holds a value when the collection starts is
    as it was afterwards, whatever the server drew and whether the
    collection returned or raised. *)
Theorem garbage_collection_spares_live `{PyEnv} `{Sampler} (now : Z) (fraction : Q)
    (w : world) (n : string) (e : entry) :
  live now (redis w) n = Some e -> contains "::" n = false ->
  redis (snd (Rediz.admin_garbage_collection now fraction w)) !! n = redis w !! n.
Proof.
  intros Hlive Hn. unfold Rediz.admin_garbage_collection, bind.
  pose proof (scard_world now Rediz.NAMES w) as Hw0.
  destruct (scard now Rediz.NAMES w) as [[a | e0] w0]; cbn [snd] in Hw0; subst w0;
    [| reflexivity].
  set (num := Z.min 100 (Z.max 20 (Float.to_int (Float.mul fraction (Float.of_int a))))).
  pose proof (num_survey_bounds (Float.to_int (Float.mul fraction (Float.of_int a)))) as Hnum.
  fold num in Hnum.
  destruct (Rediz._randomly_find_orphans now num w) as [[[orphans |] | e0] w1] eqn:Ef;
    apply (find_orphans_spec now num) in Ef as [Hr Ho]; try lia;
    try (cbn [snd ret]; rewrite Hr; reflexivity).
  destruct (Ho orphans eq_refl) as (Hne & _ & _ & Hall). clear Ho.
  destruct orphans as [| o0 os]; [contradiction |]. set (orphans := o0 :: os) in *.
  rewrite map_Some_fmap.
  assert (Hd : redis (snd (Rediz._delete now (Some <$> orphans) w1)) !! n = redis w !! n).
  { rewrite <- Hr. apply delete_frame. intros o Hin Hcol Hk.
    assert (Hplain : forall p s, contains "::" p = true -> n <> p +:+ s)
      by (intros p s; apply plain_not_reserved, Hn).
    unfold delete_keys in Hk.
    repeat (apply elem_of_cons in Hk as [E | Hk]).
    - revert E. apply Hplain. reflexivity.
    - revert E. rewrite <- (str_app_nil_r Rediz.OWNERSHIP). apply Hplain. reflexivity.
    - revert E. apply Hplain. reflexivity.
    - subst o. destruct (Hall n Hin) as [_ Hdead]. congruence.
    - revert E. apply Hplain. reflexivity.
    - revert E. rewrite <- (str_app_nil_r Rediz.NAMES). apply Hplain. reflexivity.
    - inversion Hk. }
  destruct (Rediz._delete now (Some <$> orphans) w1) as [[[] | e0] w2]; exact Hd.
Qed.

(** X17. When every name in the set of names has its page, a garbage
    collection returns 0 and has changed nothing on the server. *)
Theorem garbage_collection_idle `{PyEnv} `{Sampler} (now : Z) (fraction : Q) (w : world) :
  set_or_absent now (redis w) Rediz.NAMES ->
  (forall n, n ∈ members now (redis w) Rediz.NAMES -> is_Some (live now (redis w) n)) ->
  exists w', Rediz.admin_garbage_collection now fraction w = (Ok 0, w') /\
             redis w' = redis w.
Proof.
  intros Hset Hall. unfold Rediz.admin_garbage_collection.
  assert (Hs : exists a, scard now Rediz.NAMES w = (Ok a, w)).
  { unfold scard. unfold set_or_absent in Hset.
    destruct (live now (redis w) Rediz.NAMES) as [[[] ?] |]; try contradiction; eauto. }
  destruct Hs as [a Hs]. rewrite (bind_ok _ _ _ _ _ Hs).
  set (num := Z.min 100 (Z.max 20 (Float.to_int (Float.mul fraction (Float.of_int a))))).
  pose proof (num_survey_bounds (Float.to_int (Float.mul fraction (Float.of_int a)))) as Hnum.
  fold num in Hnum.
  assert (Hf : exists w', Rediz._randomly_find_orphans now num w = (Ok None, w') /\
                          redis w' = redis w).
  { unfold Rediz._randomly_find_orphans.
    assert (Hd : exists drawn w0, srandmember now Rediz.NAMES num w = (Ok drawn, w0)).
    { unfold srandmember. unfold set_or_absent in Hset.
      destruct (live now (redis w) Rediz.NAMES) as [[[] ?] |]; try contradiction; eauto. }
    destruct Hd as (drawn & w0 & Hd). rewrite (bind_ok _ _ _ _ _ Hd).
    apply (srandmember_spec now Rediz.NAMES num w w0 _ ltac:(lia)) in Hd as [Hr Hd].
    destruct (Hd drawn eq_refl) as (_ & _ & Hmem). clear Hd.
    set (names := set_order (list_to_set drawn)).
    destruct (length names =? 0)%nat eqn:E0; [exists w0; split; [reflexivity | exact Hr] |].
    assert (Hne : names <> []) by (intros E; rewrite E in E0; discriminate E0).
    rewrite (bind_ok _ _ _ _ _ (exists_call now names w0 Hne)). cbn beta iota.
    rewrite count_live_all, Z.ltb_irrefl; [exists w0; split; [reflexivity | exact Hr] |].
    apply Forall_forall. intros x Hx. rewrite Hr. apply Hall, Hmem.
    apply set_order_elem in Hx. apply elem_of_list_to_set in Hx. exact Hx. }
  destruct Hf as (w' & Hf & Hr). rewrite (bind_ok _ _ _ _ _ Hf).
  exists w'. split; [reflexivity | exact Hr].
Qed.

Lemma garbage_collection_effect_witness :
  late_collection = (Ok (returned 0 (fst late_collection)), snd late_collection) /\
  exists orphans,
    returned 0 (fst late_collection) = Z.of_nat (length orphans) /\
    returned 0 (fst late_collection) <= 100 /\ NoDup orphans /\
    (forall o, o ∈ orphans ->
       o ∈ members (1000 + 604800) (redis (snd first_write)) Rediz.NAMES /\
       live (1000 + 604800) (redis (snd first_write)) o = None) /\
    members (1000 + 604800) (redis (snd late_collection)) Rediz.NAMES
    = members (1000 + 604800) (redis (snd first_write)) Rediz.NAMES ∖ list_to_set orphans /\
    (forall h, ledger (1000 + 604800) (redis (snd first_write)) = Some h ->
               ledger (1000 + 604800) (redis (snd late_collection))
               = Some (foldr delete h orphans)) /\
    (returned 0 (fst late_collection) = 0 -> redis (snd late_collection) = redis (snd first_write)).
Proof.
  assert (Hgc : late_collection
                = (Ok (returned 0 (fst late_collection)), snd late_collection))
    by (apply returned_pair; vm_compute; tauto).
  split; [exact Hgc |].
  apply (@garbage_collection_effect demo_env demo_sampler (1000 + 604800) default_fraction
           (snd first_write) (snd late_collection) _ Hgc).
Defined.

Lemma garbage_collection_spares_live_witness :
  live 1001 (redis (snd first_write)) "a.json" = Some (Entry (VString "v1") (Some 605800)) /\
  contains "::" "a.json" = false /\
  redis (snd early_collection) !! "a.json" = redis (snd first_write) !! "a.json".
Proof.
  assert (Hlive : live 1001 (redis (snd first_write)) "a.json"
                  = Some (Entry (VString "v1") (Some 605800))) by (vm_compute; reflexivity).
  assert (Hn : contains "::" "a.json" = false) by reflexivity.
  split; [exact Hlive |]. split; [exact Hn |].
  apply (@garbage_collection_spares_live demo_env demo_sampler 1001 default_fraction
           (snd first_write) "a.json" _ Hlive Hn).
Defined.

Lemma garbage_collection_idle_witness :
  set_or_absent 1001 (redis (snd first_write)) Rediz.NAMES /\
  (forall n, n ∈ members 1001 (redis (snd first_write)) Rediz.NAMES ->
             is_Some (live 1001 (redis (snd first_write)) n)) /\
  exists w', early_collection = (Ok 0, w') /\ redis w' = redis (snd first_write).
Proof.
  assert (Hset : set_or_absent 1001 (redis (snd first_write)) Rediz.NAMES)
    by (vm_compute; exact I).
  assert (Hall : forall n, n ∈ members 1001 (redis (snd first_write)) Rediz.NAMES ->
                           is_Some (live 1001 (redis (snd first_write)) n)).
  { assert (Hm : members 1001 (redis (snd first_write)) Rediz.NAMES = {["a.json"]})
      by (vm_compute; reflexivity).
    rewrite Hm. intros n Hn. apply elem_of_singleton in Hn. subst n.
    exists (Entry (VString "v1") (Some 605800)). vm_compute. reflexivity. }
  split; [exact Hset |]. split; [exact Hall |].
  apply (@garbage_collection_idle demo_env demo_sampler 1001 default_fraction
           (snd first_write) Hset Hall).
Defined.

(** ** Computations that leave the server alone *)

Lemma keeps_ret {A : Type} (a : A) : keeps_redis (ret a).
Proof. intros w. reflexivity. Qed.

Lemma keeps_raise {A : Type} (e : exn) : keeps_redis (@raise A e).
Proof. intros w. reflexivity. Qed.

Lemma keeps_lift {A : Type} (r : res A) : keeps_redis (lift r).
Proof. intros w. reflexivity. Qed.

Lemma keeps_random_key `{PyEnv} : keeps_redis random_key.
Proof. intros w. reflexivity. Qed.

Lemma keeps_heap_update (l : nat) (other : dict) : keeps_redis (heap_update l other).
Proof. intros w. reflexivity. Qed.

Lemma keeps_heap_read (l : nat) : keeps_redis (heap_read l).
Proof. intros w. reflexivity. Qed.

Lemma keeps_bind {A B : Type} (m : M A) (f : A -> M B) :
  keeps_redis m -> (forall a, keeps_redis (f a)) -> keeps_redis (bind m f).
Proof.
  intros Hm Hf w. unfold bind. specialize (Hm w).
  destruct (m w) as [[a | e] w1]; cbn [snd] in Hm; [| exact Hm].
  rewrite (Hf a w1). exact Hm.
Qed.

Lemma keeps_for_each {A S : Type} (l : list A) (body : S -> A -> M S) (s : S) :
  (forall s x, keeps_redis (body s x)) -> keeps_redis (for_each l body s).
Proof.
  intros Hb. revert s. induction l as [| x l IH]; intros s; [apply keeps_ret |].
  cbn [for_each]. apply keeps_bind; [apply Hb | intros s'; apply IH].
Qed.

Lemma keeps_pipe_readonly (now : Z) (cmds : list command) :
  Forall (fun c => writes c = []) cmds -> keeps_redis (pipe_execute now cmds).
Proof. intros Hr w. rewrite (pipe_execute_readonly now cmds w Hr). reflexivity. Qed.

Lemma keeps_call_readonly (now : Z) (c : command) :
  writes c = [] -> keeps_redis (call now c).
Proof.
  intros Hc. unfold call. apply keeps_bind.
  - apply keeps_pipe_readonly. constructor; [exact Hc | constructor].
  - intros [| r [| r' rs]]; first [apply keeps_ret | apply keeps_raise].
Qed.

(** Solves goals of the form [keeps_redis m] for the straight-line code of
    the client. *)
Ltac keeps :=
  repeat first
    [ apply keeps_ret | apply keeps_raise | apply keeps_lift | apply keeps_random_key
    | apply keeps_heap_update | apply keeps_heap_read
    | apply keeps_bind; [| intros ?]
    | match goal with
      | |- keeps_redis (match ?x with _ => _ end) => destruct x
      | |- keeps_redis (if ?b then _ else _) => destruct b
      end ].

Section Untouched.
Context `{PyEnv}.
Variable self : Rediz.instance.
Variable now : Z.

Lemma keeps_modify_page (pipe : list command) (ndx : nat) (name value : option string)
    (intent : nat) :
  keeps_redis (Rediz._modify_page self now pipe ndx name value intent).
Proof. unfold Rediz._modify_page. keeps. Qed.

Lemma keeps_new_page (pipe : list command) (ndx : nat) (name value write_key : option string) :
  keeps_redis (Rediz._new_page self now pipe ndx name value write_key).
Proof. unfold Rediz._new_page. keeps; try apply keeps_modify_page. Qed.

Lemma keeps_new_obscure_page (pipe : list command) (ndx : nat)
    (name value write_key : option string) :
  keeps_redis (Rediz._new_obscure_page self now pipe ndx name value write_key).
Proof. unfold Rediz._new_obscure_page. keeps; try apply keeps_new_page. Qed.

Lemma keeps_obscure_body (st : Rediz.phase)
    (x : nat * (option string * (option string * option string))) :
  keeps_redis (Rediz.obscure_body self now st x).
Proof.
  destruct x as [ndx [name [value write_key]]]. unfold Rediz.obscure_body, random_name.
  keeps; try apply keeps_new_obscure_page.
Qed.

Lemma keeps_new_body (st : Rediz.phase)
    (x : pyval * (nat * (option string * (option string * option string)))) :
  keeps_redis (Rediz.new_body self now st x).
Proof.
  destruct x as [exist_ [ndx [name [value write_key]]]]. unfold Rediz.new_body.
  keeps; try apply keeps_new_page.
Qed.

Lemma keeps_existing_body (st : Rediz.phase)
    (x : nat * (option string * (option string * (option string * option string)))) :
  keeps_redis (Rediz.existing_body self now st x).
Proof.
  destruct x as [ndx [name [value [write_key official]]]]. unfold Rediz.existing_body.
  keeps; try apply keeps_modify_page.
Qed.

Lemma keeps_finish_phase (st : Rediz.phase) :
  Rediz.executed st = [] -> keeps_redis (Rediz.finish_phase now st).
Proof. intros E. unfold Rediz.finish_phase. rewrite E. apply keeps_ret. Qed.

Lemma keeps_read_items (intents : list nat) (key : string) :
  keeps_redis (Rediz.read_items intents key).
Proof. unfold Rediz.read_items. apply keeps_for_each. intros s x. keeps. Qed.

Lemma keeps_write_keys (names : list (option string)) :
  keeps_redis (Rediz._write_keys now names).
Proof.
  unfold Rediz._write_keys. destruct names as [| n names]; [apply keeps_ret |].
  apply keeps_bind; [| intros r; apply keeps_ret].
  apply keeps_call_readonly. unfold hmget_cmd. destruct (all_some _); reflexivity.
Qed.

(** A returned computation, with the world it left *)
Lemma keeps_at {A : Type} (m : M A) (w w' : world) (r : res A) :
  keeps_redis m -> m w = (r, w') -> redis w' = redis w.
Proof. intros Hk Hm. specialize (Hk w). rewrite Hm in Hk. exact Hk. Qed.

Lemma obscure_idle (ndxs : list nat) (names values write_keys : list (option string))
    (w w' : world) out :
  Rediz._pipelined_set_obscure self now ndxs names values write_keys w = (Ok out, w') ->
  out.1.1.1.1.1 = [] -> redis w' = redis w.
Proof.
  unfold Rediz._pipelined_set_obscure. intros Hb. inv_bind Hb.
  apply ret_inv in Hb as [<- <-]. cbn [fst]. intros Hex.
  destruct ndxs as [| ndx ndxs]; [apply ret_inv in Hm as [_ <-]; reflexivity |].
  inv_bind Hm. inv_bind Hm. apply ret_inv in Hm as [<- <-].
  apply (keeps_at _ _ _ _ (keeps_finish_phase a0 Hex)) in Hm1. rewrite Hm1.
  revert Hm0. apply keeps_at, keeps_for_each. intros s x. apply keeps_obscure_body.
Qed.

Lemma new_idle (ndxs : list nat) (names values write_keys : list (option string))
    (w w' : world) out :
  Rediz._pipelined_set_new self now ndxs names values write_keys w = (Ok out, w') ->
  out.1.1.1.1.1 = [] -> redis w' = redis w.
Proof.
  unfold Rediz._pipelined_set_new. intros Hb. inv_bind Hb.
  apply ret_inv in Hb as [<- <-]. cbn [fst]. intros Hex.
  destruct ndxs as [| ndx ndxs]; [apply ret_inv in Hm as [_ <-]; reflexivity |].
  inv_bind Hm. inv_bind Hm. inv_bind Hm. apply ret_inv in Hm as [<- <-].
  apply (keeps_at _ _ _ _ (keeps_finish_phase a1 Hex)) in Hm2. rewrite Hm2.
  apply (keeps_at _ _ _ _ (keeps_for_each _ _ _ (keeps_new_body))) in Hm1. rewrite Hm1.
  revert Hm0. apply keeps_at, keeps_pipe_readonly.
  apply Forall_forall. intros c Hc.
  apply list_elem_of_In, in_map_iff in Hc as ([x |] & <- & _); reflexivity.
Qed.

Lemma existing_idle (ndxs : list nat) (names values write_keys : list (option string))
    (w w' : world) ex rj :
  Rediz._pipelined_set_existing self now ndxs names values write_keys w = (Ok (ex, rj), w') ->
  ex = [] -> redis w' = redis w.
Proof.
  unfold Rediz._pipelined_set_existing. intros Hb. inv_bind Hb.
  apply ret_inv in Hb as [[= <- <-] <-]. intros Hex.
  destruct ndxs as [| ndx ndxs]; [apply ret_inv in Hm as [_ <-]; reflexivity |].
  inv_bind Hm. inv_bind Hm. inv_bind Hm. inv_bind Hm. apply ret_inv in Hm as [<- <-].
  apply (keeps_at _ _ _ _ (keeps_finish_phase a2 Hex)) in Hm3. rewrite Hm3.
  apply (keeps_at _ _ _ _ (keeps_for_each _ _ _ (keeps_existing_body))) in Hm2. rewrite Hm2.
  assert (Hi : keeps_redis (Rediz.iterable a0)) by (destruct a0; [apply keeps_ret | apply keeps_raise]).
  apply (keeps_at _ _ _ _ Hi) in Hm1. rewrite Hm1.
  revert Hm0. apply keeps_at, keeps_write_keys.
Qed.
End Untouched.

(** X18. A [_set] that has executed none of its inputs, because each of
    them was rejected, has changed nothing on the server: the commands it
    sent were the questions to the ledger. *)
Theorem nothing_executed_nothing_written `{PyEnv} (self : Rediz.instance) (now : Z)
    (names values write_keys : option (list (option string)))
    (name value write_key : option string) (w w' : world) (log : Rediz.execution_log) :
  Rediz._set self now names values write_keys name value write_key w = (Ok log, w') ->
  Rediz.log_executed log = [] -> redis w' = redis w.
Proof.
  unfold Rediz._set. destruct (Rediz._coerce_inputs _ _ _ _ _ _) as [[ns vs] ks].
  intros Hb. inv_bind Hb. destruct a as [[[[[ex1 rj1] ig1] ns1] vs1] ks1].
  inv_bind Hb. destruct a as [[[[[ex2 rj2] ig2] ns2] vs2] ks2].
  inv_bind Hb. destruct a as [ex3 rj3].
  inv_bind Hb. inv_bind Hb. inv_bind Hb. apply ret_inv in Hb as [<- <-]. cbn [Rediz.log_executed].
  intros Hex. apply app_eq_nil in Hex as [-> Hex]. apply app_eq_nil in Hex as [-> ->].
  cbn in Hm2, Hm3. apply ret_inv in Hm2 as [<- <-]. apply ret_inv in Hm3 as [<- <-].
  rewrite propagate_none in Hm4. injection Hm4 as _ <-.
  apply existing_idle in Hm1; [| reflexivity]. apply new_idle in Hm0; [| reflexivity].
  apply obscure_idle in Hm; [| reflexivity]. congruence.
Qed.

Lemma nothing_executed_nothing_written_witness :
  intruder_write
  = (Ok (returned (Rediz.Build_execution_log [] []) (fst intruder_write)), snd intruder_write) /\
  Rediz.log_executed (returned (Rediz.Build_execution_log [] []) (fst intruder_write)) = [] /\
  redis (snd intruder_write) = redis owned_world.
Proof.
  assert (Hset : intruder_write
                 = (Ok (returned (Rediz.Build_execution_log [] []) (fst intruder_write)),
                    snd intruder_write))
    by (apply returned_pair; vm_compute; tauto).
  assert (Hex : Rediz.log_executed (returned (Rediz.Build_execution_log [] [])
                                      (fst intruder_write)) = [])
    by (vm_compute; reflexivity).
  split; [exact Hset |]. split; [exact Hex |].
  apply (@nothing_executed_nothing_written demo_env demo 1000 (Some [Some "a.json"])
           (Some [Some "v2"]) (Some [Some key_b]) None None None owned_world
           (snd intruder_write) _ Hset Hex).
Defined.

(** ** The one dict of all intents *)

Lemma for_each_invariant {A S : Type} (P : S -> Prop) (l : list A) (body : S -> A -> M S)
    (s s' : S) (w w' : world) :
  (forall s x w s' w', body s x w = (Ok s', w') -> P s -> P s') ->
  for_each l body s w = (Ok s', w') -> P s -> P s'.
Proof.
  intros Hb. revert s w. induction l as [| x l IH]; intros s w; cbn [for_each].
  - intros Hr. apply ret_inv in Hr as [<- _]. auto.
  - intros Hr Hs. inv_bind Hr. eapply IH; [exact Hr |]. eapply Hb; eassumption.
Qed.

Section Shared.
Context `{PyEnv}.
Variable self : Rediz.instance.
Variable now : Z.

Lemma modify_page_intent (pipe : list command) (ndx : nat) (name value : option string)
    (intent : nat) (w w' : world) p i :
  Rediz._modify_page self now pipe ndx name value intent w = (Ok (p, i), w') -> i = intent.
Proof.
  unfold Rediz._modify_page. intros Hb. inv_bind Hb. destruct a as [ttl ttl_days].
  inv_bind Hb. destruct name as [n |]; [| discriminate Hb].
  inv_bind Hb. apply ret_inv in Hb as [[= _ <-] _]. reflexivity.
Qed.

Lemma new_page_intent (pipe : list command) (ndx : nat) (name value write_key : option string)
    (w w' : world) p i :
  Rediz._new_page self now pipe ndx name value write_key w = (Ok (p, i), w') ->
  i = Rediz.default_intent.
Proof.
  unfold Rediz._new_page. intros Hb. inv_bind Hb. destruct a as [ttl ttl_days].
  inv_bind Hb. destruct a as [p0 i0]. apply modify_page_intent in Hm0.
  inv_bind Hb. apply ret_inv in Hb as [[= _ <-] _]. exact Hm0.
Qed.

Lemma new_obscure_page_intent (pipe : list command) (ndx : nat)
    (name value write_key : option string) (w w' : world) p i :
  Rediz._new_obscure_page self now pipe ndx name value write_key w = (Ok (p, i), w') ->
  i = Rediz.default_intent.
Proof.
  unfold Rediz._new_obscure_page. intros Hb. inv_bind Hb. destruct a as [p0 i0].
  apply new_page_intent in Hm. inv_bind Hb. apply ret_inv in Hb as [[= _ <-] _]. exact Hm.
Qed.

Lemma shared_add (p : list command) (st : Rediz.phase) :
  shared (Rediz.executed st) ->
  shared (Rediz.executed (Rediz.add_executed p Rediz.default_intent st)).
Proof. intros Hs. apply Forall_app. split; [exact Hs |]. repeat constructor. Qed.

Lemma obscure_body_shared st x w st' w' :
  Rediz.obscure_body self now st x w = (Ok st', w') ->
  shared (Rediz.executed st) -> shared (Rediz.executed st').
Proof.
  destruct x as [ndx [name [value write_key]]].
  unfold Rediz.obscure_body. destruct (is_valid_value value); cbn [negb].
  2: { destruct value; discriminate. }
  destruct name as [n |].
  - destruct (is_valid_name n); cbn [negb]; intros Hr; apply ret_inv in Hr as [<- _]; auto.
  - intros Hb. inv_bind Hb. destruct (is_valid_key a); cbn [negb] in Hb.
    + inv_bind Hb. inv_bind Hb. destruct a1 as [p intent].
      apply new_obscure_page_intent in Hm1 as ->.
      apply ret_inv in Hb as [<- _]. apply shared_add.
    + apply ret_inv in Hb as [<- _]. auto.
Qed.

Lemma new_body_shared st x w st' w' :
  Rediz.new_body self now st x w = (Ok st', w') ->
  shared (Rediz.executed st) -> shared (Rediz.executed st').
Proof.
  destruct x as [exist_ [ndx [name [value write_key]]]].
  unfold Rediz.new_body. destruct (truthy exist_); cbn [negb].
  - intros Hr. apply ret_inv in Hr as [<- _]. auto.
  - intros Hb. inv_bind Hb. destruct (is_valid_key a); cbn [negb] in Hb.
    + inv_bind Hb. destruct a0 as [p intent]. apply new_page_intent in Hm0 as ->.
      apply ret_inv in Hb as [<- _]. apply shared_add.
    + apply ret_inv in Hb as [<- _]. auto.
Qed.

Lemma existing_body_shared st x w st' w' :
  Rediz.existing_body self now st x w = (Ok st', w') ->
  shared (Rediz.executed st) -> shared (Rediz.executed st').
Proof.
  destruct x as [ndx [name [value [write_key official]]]].
  unfold Rediz.existing_body. destruct (bool_decide (write_key = official)).
  - intros Hb. inv_bind Hb. destruct a as [p intent]. apply modify_page_intent in Hm as ->.
    inv_bind Hb. apply ret_inv in Hb as [<- _]. apply shared_add.
  - destruct official; [| discriminate].
    intros Hr. apply ret_inv in Hr as [<- _]. auto.
Qed.

Lemma obscure_shared (ndxs : list nat) (names values write_keys : list (option string))
    (w w' : world) out :
  Rediz._pipelined_set_obscure self now ndxs names values write_keys w = (Ok out, w') ->
  shared out.1.1.1.1.1.
Proof.
  unfold Rediz._pipelined_set_obscure. intros Hb. inv_bind Hb.
  apply ret_inv in Hb as [<- _]. cbn [fst].
  destruct ndxs as [| ndx ndxs]; [apply ret_inv in Hm as [<- _]; constructor |].
  inv_bind Hm. inv_bind Hm. apply ret_inv in Hm as [<- _].
  eapply (for_each_invariant (fun st => shared (Rediz.executed st))); [| exact Hm0 | constructor].
  intros ? ? ? ? ?. apply obscure_body_shared.
Qed.

Lemma new_shared (ndxs : list nat) (names values write_keys : list (option string))
    (w w' : world) out :
  Rediz._pipelined_set_new self now ndxs names values write_keys w = (Ok out, w') ->
  shared out.1.1.1.1.1.
Proof.
  unfold Rediz._pipelined_set_new. intros Hb. inv_bind Hb.
  apply ret_inv in Hb as [<- _]. cbn [fst].
  destruct ndxs as [| ndx ndxs]; [apply ret_inv in Hm as [<- _]; constructor |].
  inv_bind Hm. inv_bind Hm. inv_bind Hm. apply ret_inv in Hm as [<- _].
  eapply (for_each_invariant (fun st => shared (Rediz.executed st))); [| exact Hm1 | constructor].
  intros ? ? ? ? ?. apply new_body_shared.
Qed.

Lemma existing_shared (ndxs : list nat) (names values write_keys : list (option string))
    (w w' : world) ex rj :
  Rediz._pipelined_set_existing self now ndxs names values write_keys w = (Ok (ex, rj), w') ->
  shared ex.
Proof.
  unfold Rediz._pipelined_set_existing. intros Hb. inv_bind Hb.
  apply ret_inv in Hb as [[= <- <-] _].
  destruct ndxs as [| ndx ndxs]; [apply ret_inv in Hm as [<- _]; constructor |].
  inv_bind Hm. inv_bind Hm. inv_bind Hm. inv_bind Hm. apply ret_inv in Hm as [<- _].
  eapply (for_each_invariant (fun st => shared (Rediz.executed st))); [| exact Hm2 | constructor].
  intros ? ? ? ? ?. apply existing_body_shared.
Qed.

Lemma set_shared (names values write_keys : option (list (option string)))
    (name value write_key : option string) (w w' : world) (log : Rediz.execution_log) :
  Rediz._set self now names values write_keys name value write_key w = (Ok log, w') ->
  shared (Rediz.log_executed log).
Proof.
  unfold Rediz._set. destruct (Rediz._coerce_inputs _ _ _ _ _ _) as [[ns vs] ks].
  intros Hb. inv_bind Hb. destruct a as [[[[[ex1 rj1] ig1] ns1] vs1] ks1].
  inv_bind Hb. destruct a as [[[[[ex2 rj2] ig2] ns2] vs2] ks2].
  inv_bind Hb. destruct a as [ex3 rj3].
  inv_bind Hb. inv_bind Hb. inv_bind Hb. apply ret_inv in Hb as [<- _].
  cbn [Rediz.log_executed].
  apply obscure_shared in Hm. apply new_shared in Hm0. apply existing_shared in Hm1.
  cbn [fst] in Hm, Hm0. unfold shared in *. rewrite !Forall_app. auto.
Qed.
End Shared.

(** ** The records [set] returns *)

Lemma sorted_replicate (n : nat) (x : Z * dict) :
  Rediz.sorted_by_key (replicate n x) = replicate n x.
Proof.
  unfold Rediz.sorted_by_key. induction n as [| n IH]; [reflexivity |].
  cbn [replicate foldr]. rewrite IH. destruct n as [| n]; [reflexivity |].
  cbn [replicate Rediz.insert_by_key]. rewrite Z.leb_refl. reflexivity.
Qed.

Lemma keyed_shared (z : Z) (l : list nat) (acc : list (Z * dict)) (w : world) :
  getitem (default ∅ (heap w !! Rediz.default_intent)) "ndx" = Ok (PInt z) ->
  shared l ->
  for_each l
    (fun acc intent =>
       d <- heap_read intent ;;
       ndx <- lift (getitem d "ndx") ;;
       match ndx with
       | PInt z => ret (acc ++ [(z, d)])
       | _ => raise TypeError
       end) acc w
  = (Ok (acc ++ replicate (length l) (z, default ∅ (heap w !! Rediz.default_intent))), w).
Proof.
  intros Hz Hl. revert acc. induction Hl as [| i l -> _ IH]; intros acc; cbn [for_each].
  - cbn. rewrite app_nil_r. reflexivity.
  - unfold bind at 1 2 3, heap_read, lift. rewrite Hz. unfold ret at 1.
    rewrite IH, <- app_assoc. reflexivity.
Qed.

Lemma keyed_head (l : list nat) (acc keyed : list (Z * dict)) (w w' : world) :
  for_each (Rediz.default_intent :: l)
    (fun acc intent =>
       d <- heap_read intent ;;
       ndx <- lift (getitem d "ndx") ;;
       match ndx with
       | PInt z => ret (acc ++ [(z, d)])
       | _ => raise TypeError
       end) acc w = (Ok keyed, w') ->
  exists z, getitem (default ∅ (heap w !! Rediz.default_intent)) "ndx" = Ok (PInt z).
Proof.
  cbn [for_each]. intros Hr. inv_bind Hr. unfold bind, heap_read, lift in Hm.
  destruct (getitem (default ∅ (heap w !! Rediz.default_intent)) "ndx")
    as [[| b | z | q | s | l0 | s | t |] | e]; try discriminate Hm. eauto.
Qed.

Lemma records_alike (a b : pyval) (n : nat) (x : Z * dict) (acc : list dict) (w : world) :
  getitem (snd x) "name" = Ok a -> getitem (snd x) "write_key" = Ok b ->
  for_each (replicate n x)
    (fun acc x =>
       name <- lift (getitem (snd x) "name") ;;
       write_key <- lift (getitem (snd x) "write_key") ;;
       ret (acc ++ [mkdict [("name", name); ("write_key", write_key)]])) acc w
  = (Ok (acc ++ replicate n (mkdict [("name", a); ("write_key", b)])), w).
Proof.
  intros Ha Hb. revert acc. induction n as [| n IH]; intros acc; cbn [replicate for_each].
  - cbn. rewrite app_nil_r. reflexivity.
  - unfold bind at 1 2 3, lift. rewrite Ha, Hb. unfold ret at 1.
    rewrite IH, <- app_assoc. reflexivity.
Qed.

Lemma records_head (n : nat) (x : Z * dict) (acc l : list dict) (w w' : world) :
  for_each (replicate (S n) x)
    (fun acc x =>
       name <- lift (getitem (snd x) "name") ;;
       write_key <- lift (getitem (snd x) "write_key") ;;
       ret (acc ++ [mkdict [("name", name); ("write_key", write_key)]])) acc w = (Ok l, w') ->
  exists a b, getitem (snd x) "name" = Ok a /\ getitem (snd x) "write_key" = Ok b.
Proof.
  cbn [replicate for_each]. intros Hr. inv_bind Hr. unfold bind, lift in Hm.
  destruct (getitem (snd x) "name") as [a0 | e]; [| discriminate Hm].
  destruct (getitem (snd x) "write_key") as [b0 | e]; [| discriminate Hm]. eauto.
Qed.

(** The records made of intents that are all the one dict are all alike. *)
Lemma coerce_shared (log : Rediz.execution_log) (l : list dict) (w w' : world) :
  shared (Rediz.log_executed log) ->
  Rediz._coerce_outputs log w = (Ok l, w') ->
  exists r, l = replicate (length (Rediz.log_executed log)) r.
Proof.
  intros Hs. unfold Rediz._coerce_outputs.
  destruct (Rediz.log_executed log) as [| i ex] eqn:E.
  { cbn. intros [= <- _]. exists ∅. reflexivity. }
  intros Hc. inv_bind Hc.
  assert (Hi : i = Rediz.default_intent) by (inversion Hs; assumption). subst i.
  destruct (keyed_head _ _ _ _ _ Hm) as [z Hz].
  rewrite (keyed_shared z _ [] w Hz Hs) in Hm. injection Hm as <- <-.
  cbn [app] in Hc.
  change ((z, default ∅ (heap w !! Rediz.default_intent))
          :: replicate (length ex) (z, default ∅ (heap w !! Rediz.default_intent)))
    with (replicate (S (length ex)) (z, default ∅ (heap w !! Rediz.default_intent))) in Hc.
  rewrite sorted_replicate in Hc. cbn [length] in Hc |- *.
  destruct (records_head _ _ _ _ _ _ Hc) as (a & b & Ha & Hb).
  rewrite (records_alike a b _ _ [] w Ha Hb) in Hc. injection Hc as <- _.
  eexists. reflexivity.
Qed.

(** X19. The records of a batch are all the same: [set] with [names]
    returns as many records as inputs were executed, and each of them holds
    the name and the write key of one and the same input, because every
    intent is the one dict that is the default argument of [_modify_page]. *)
Theorem batch_records_alike `{PyEnv} (self : Rediz.instance) (now : Z)
    (names values write_keys : option (list (option string))) (w w' : world)
    (records : list dict) :
  Rediz.mset self now names values write_keys w = (Ok (Rediz.Batch records), w') ->
  exists r, records = replicate (length records) r.
Proof.
  unfold Rediz.mset, Rediz.set.
  destruct (Rediz._coerce_inputs _ _ _ _ _ _) as [[ns vs] ks].
  intros Hb. inv_bind Hb. inv_bind Hb.
  apply set_shared in Hm. destruct (coerce_shared a a0 w0 w1 Hm Hm0) as [r Hr].
  destruct names as [l |].
  - apply ret_inv in Hb as [[= <-] _]. exists r. rewrite Hr at 1.
    rewrite Hr, length_replicate. reflexivity.
  - destruct a0; discriminate Hb.
Qed.

Lemma batch_records_alike_witness :
  batch_write = (Ok (Rediz.Batch (batch_of (fst batch_write))), snd batch_write) /\
  exists r, batch_of (fst batch_write) = replicate (length (batch_of (fst batch_write))) r.
Proof.
  assert (Hb : batch_write = (Ok (Rediz.Batch (batch_of (fst batch_write))), snd batch_write)).
  { assert (Hok : match fst batch_write with Ok (Rediz.Batch _) => True | _ => False end)
      by (vm_compute; exact I).
    destruct batch_write as [[[d | l] | e] w']; cbn in Hok |- *; try contradiction.
    reflexivity. }
  split; [exact Hb |].
  apply (@batch_records_alike demo_env demo 1000 (Some [Some "a.json"; Some "b.json"])
           (Some [Some "v1"; Some "v2"]) (Some [Some key_a; Some key_b]) Rediz.fresh_world
           (snd batch_write) _ Hb).
Defined.

(** ** What a singular [set] returns *)

Lemma record_results_keeps (P : dict -> Prop) (executed : list nat) (results : list pyval)
    (w w' : world) (r : res unit) :
  (forall x d, P d -> P (dict_update (mkdict [("result", x)]) d)) ->
  Rediz.record_results executed results w = (r, w') ->
  (exists d, heap w !! Rediz.default_intent = Some d /\ P d) ->
  exists d, heap w' !! Rediz.default_intent = Some d /\ P d.
Proof.
  intros HP. unfold Rediz.record_results. generalize (zip executed results). intros l.
  revert w. induction l as [| [i x] l IH]; intros w; cbn [for_each].
  - intros [= _ <-]. auto.
  - unfold bind at 1. cbn [heap_update]. intros Hl (d & Hd & Hp).
    apply IH in Hl; [exact Hl |]. cbn [heap with_heap].
    destruct (decide (i = Rediz.default_intent)) as [-> | Hne].
    + rewrite lookup_insert_eq, Hd. cbn [default from_option id]. eexists.
      split; [reflexivity |]. apply HP, Hp.
    + rewrite lookup_insert_ne by assumption. exists d. auto.
Qed.

Lemma intent_fields_result (ndx : nat) (n key : string) (x : pyval) (d : dict) :
  intent_fields ndx n key d ->
  intent_fields ndx n key (dict_update (mkdict [("result", x)]) d).
Proof.
  intros (H1 & H2 & H3). unfold intent_fields, dict_update.
  repeat split; (rewrite lookup_union_r by reflexivity); assumption.
Qed.

Lemma pipe_execute_heap (now : Z) (cmds : list command) (w : world) :
  heap (snd (pipe_execute now cmds w)) = heap w.
Proof.
  unfold pipe_execute. destruct (negb (forallb encodable cmds)); [reflexivity |].
  destruct (run now cmds (redis w)) as [rs d]. reflexivity.
Qed.

Lemma str_plus_world (prefix : string) (x : pyval) (w : world) :
  snd (Rediz.str_plus prefix x w) = w.
Proof.
  unfold Rediz.str_plus, bind, lift.
  destruct (py_add (PStr prefix) x) as [[] |]; reflexivity.
Qed.

Lemma propagate_heap `{PyEnv} (now : Z) (names values : list pyval) (w : world) :
  heap (snd (Rediz._propagate_to_subscribers now names values w)) = heap w.
Proof.
  unfold Rediz._propagate_to_subscribers. unfold bind at 1.
  match goal with |- context [for_each names ?b ?s w] =>
    assert (Hw : snd (for_each names b s w) = w);
    [| destruct (for_each names b s w) as [[cmds | e] w0] ]
  end.
  { apply for_each_world. intros s x w1. unfold bind at 1.
    pose proof (str_plus_world Rediz.SUBSCRIBERS x w1) as Hs.
    destruct (Rediz.str_plus Rediz.SUBSCRIBERS x w1) as [[a | e] w2]; exact Hs. }
  2: { cbn [snd] in Hw |- *. rewrite Hw. reflexivity. }
  cbn [snd] in Hw. subst w0.
  unfold bind at 1. pose proof (pipe_execute_heap now cmds w) as Hp.
  destruct (pipe_execute now cmds w) as [[sets | e] w1]; cbn [snd] in Hp; [| exact Hp].
  destruct (foldl _ _ _) as [pp ex]. destruct ex as [| x ex]; [exact Hp |].
  unfold bind. pose proof (pipe_execute_heap now pp w1) as Hq.
  destruct (pipe_execute now pp w1) as [[rs | e] w2]; cbn [snd ret] in Hq |- *; congruence.
Qed.

Lemma hexists_reply (now : Z) (h : gmap string string) (n : string) (w : world) :
  ledger now (redis w) = Some h ->
  pipe_execute now [hexists_cmd Rediz.OWNERSHIP (Some n)] w
  = (Ok [PBool (bool_decide (is_Some (h !! n)))], w).
Proof.
  unfold ledger. intros Hl. unfold pipe_execute.
  cbn [hexists_cmd forallb encodable andb negb run exec].
  destruct (live now (redis w) Rediz.OWNERSHIP) as [[[] ex] |]; try discriminate;
    injection Hl as <-; cbn [existsb is_error orb]; rewrite with_redis_same.
  - reflexivity.
  - rewrite bool_decide_eq_false_2; [reflexivity |].
    rewrite lookup_empty. intros [x Hx]. discriminate Hx.
Qed.

Lemma coerce_single (n key : string) (d : dict) (rj : list dict) (w : world) :
  heap w !! Rediz.default_intent = Some d -> intent_fields 0 n key d ->
  Rediz._coerce_outputs (Rediz.Build_execution_log [Rediz.default_intent] rj) w
  = (Ok [mkdict [("name", PStr n); ("write_key", PStr key)]], w).
Proof.
  intros Hd (H1 & H2 & H3). unfold Rediz._coerce_outputs. cbn [Rediz.log_executed for_each].
  unfold bind, heap_read, lift, getitem, ret. rewrite Hd. cbn [default from_option id].
  rewrite H1. cbn [app Rediz.sorted_by_key foldr Rediz.insert_by_key for_each snd].
  unfold bind, lift, getitem, ret. cbn [snd]. rewrite H2, H3. reflexivity.
Qed.

Section Outcome.
Context `{PyEnv}.
Variable self : Rediz.instance.
Variable now : Z.
Hypothesis Huuid : forall i, is_uuid (random_keys i) = true.

Lemma uuid_valid_key (key : string) : is_uuid key = true -> is_valid_key (Some key) = true.
Proof. unfold is_uuid, is_valid_key. intros Hu. apply andb_true_iff in Hu as [Hl _]. exact Hl. Qed.

(** [_new_page] for a name, a value and a key: what it queues and what it
    leaves in the shared dict *)
Lemma new_page_fields (pipe : list command) (ndx : nat) (n v key : string) (w : world) :
  exists w',
    Rediz._new_page self now pipe ndx (Some n) (Some v) (Some key) w =
    (Ok (pipe ++ [HSET Rediz.OWNERSHIP n key; SADD Rediz.NAMES [n]] ++
         modify_cmds self now (random_keys (rng w)) n v (ttl_seconds (getsizeof (Some v))),
         Rediz.default_intent), w') /\
    redis w' = redis w /\
    exists d, heap w' !! Rediz.default_intent = Some d /\ intent_fields ndx n key d.
Proof.
  destruct (cost_based_ttl_seconds (Some v)) as [td Hd].
  destruct (modify_page_spec self now
              (pipe ++ [hset_cmd Rediz.OWNERSHIP (Some n) (Some key); SADD Rediz.NAMES [n]])
              ndx n (Some v) Rediz.default_intent w) as (td' & cmds & Hm & Hc).
  rewrite (Hc v eq_refl) in Hm. clear Hc.
  eexists. unfold Rediz._new_page.
  rewrite (bind_ok _ _ w w _ (f_equal (fun r => (r, w)) Hd)).
  cbn beta iota. rewrite <- app_assoc. cbn [app].
  rewrite (bind_ok _ _ _ _ _ Hm). cbn [bind heap_update ret].
  rewrite <- app_assoc. cbn [app hset_cmd]. split; [reflexivity |]. split; [reflexivity |].
  cbn [heap with_heap]. rewrite !lookup_insert_eq. cbn [default from_option id].
  eexists. split; [reflexivity |]. unfold intent_fields, dict_update. repeat split.
  - rewrite lookup_union_r by reflexivity. apply lookup_union_Some_l. reflexivity.
  - rewrite lookup_union_r by reflexivity. apply lookup_union_Some_l. reflexivity.
  - apply lookup_union_Some_l. reflexivity.
Qed.

(** The second phase on one named input, with the ledger in view *)
Lemma new_named_full (h : gmap string string) (ndx : nat) (n v : string)
    (wk : option string) (w w' : world) out :
  ledger now (redis w) = Some h ->
  Rediz._pipelined_set_new self now [ndx] [Some n] [Some v] [wk] w = (Ok out, w') ->
  (is_Some (h !! n) /\ out = ([], [], [ndx], [Some n], [Some v], [wk]) /\ w' = w) \/
  (exists r, out = ([], [r], [], [], [], [])) \/
  (h !! n = None /\
   exists ckey,
     is_uuid ckey = true /\
     out = ([Rediz.default_intent], [], [], [], [], []) /\
     redis w' = snd (run now ([HSET Rediz.OWNERSHIP n (default (random_keys (rng w)) wk);
                               SADD Rediz.NAMES [n]] ++
                              modify_cmds self now ckey n v (ttl_seconds (getsizeof (Some v))))
                       (redis w)) /\
     exists d, heap w' !! Rediz.default_intent = Some d /\
               intent_fields ndx n (default (random_keys (rng w)) wk) d).
Proof.
  intros Hl. unfold Rediz._pipelined_set_new. intros Hb. inv_bind Hb.
  apply ret_inv in Hb as [<- <-]. inv_bind Hm. inv_bind Hm. inv_bind Hm.
  apply ret_inv in Hm as [<- <-].
  cbn [map] in Hm0. rewrite (hexists_reply now h n w Hl) in Hm0. injection Hm0 as <- <-.
  cbn [zip_with] in Hm1. apply for_each_single in Hm1.
  unfold Rediz.new_body in Hm1. cbn [truthy] in Hm1.
  case_bool_decide as Hn; cbn [negb] in Hm1.
  - apply ret_inv in Hm1 as [<- <-]. cbn in Hm2. apply ret_inv in Hm2 as [_ <-].
    left. unfold Rediz.residual. cbn. rewrite Nat.eqb_refl. auto.
  - right.
    assert (Hnone : h !! n = None)
      by (destruct (h !! n) eqn:E; [contradiction Hn; eauto | reflexivity]).
    inv_bind Hm1.
    assert (Hkey : a = Some (default (random_keys (rng w)) wk) /\ redis w0 = redis w /\
                   heap w0 = heap w).
    { destruct wk as [k' |].
      - apply ret_inv in Hm as [<- <-]. auto.
      - unfold bind, random_key, ret in Hm. injection Hm as <- <-. auto. }
    destruct Hkey as (-> & Hw0 & _). clear Hm.
    set (key := default (random_keys (rng w)) wk) in *.
    destruct (is_valid_key (Some key)) eqn:Hk; cbn [negb] in Hm1.
    + right. split; [exact Hnone |].
      destruct (new_page_fields (Rediz.pipe Rediz.phase_start) ndx n v key w0)
        as (wp & Hnp & Hrp & Hheap).
      rewrite (bind_ok _ _ _ _ _ Hnp) in Hm1. cbn beta iota in Hm1.
      apply ret_inv in Hm1 as [<- <-].
      exists (random_keys (rng w0)). split; [apply Huuid |]. split; [reflexivity |].
      unfold Rediz.finish_phase in Hm2.
      cbn [Rediz.add_executed Rediz.executed Rediz.pipe Rediz.phase_start app] in Hm2.
      inv_bind Hm2. apply pipe_execute_inv in Hm as (_ & Hrun & _ & Hwp).
      split.
      * rewrite (record_results_redis _ _ _ _ _ Hm2).
        apply (f_equal snd) in Hrun. cbn [snd] in Hrun. rewrite <- Hrun, Hrp, Hw0. reflexivity.
      * eapply (record_results_keeps (intent_fields ndx n key)); [| exact Hm2 |].
        -- intros x d. apply intent_fields_result.
        -- rewrite Hwp. cbn [heap with_redis]. exact Hheap.
    + left. apply ret_inv in Hm1 as [<- _]. eexists. reflexivity.
Qed.

Lemma existing_body_accept_fields (st : Rediz.phase) (ndx : nat) (n v key : string)
    (w : world) :
  exists w',
    Rediz.existing_body self now st (ndx, (Some n, (Some v, (Some key, Some key)))) w =
    (Ok (Rediz.add_executed
           (Rediz.pipe st ++ modify_cmds self now (random_keys (rng w)) n v
                                (ttl_seconds (getsizeof (Some v))))
           Rediz.default_intent st), w') /\
    redis w' = redis w /\
    exists d, heap w' !! Rediz.default_intent = Some d /\ names_page n v d /\
              intent_fields ndx n key d.
Proof.
  destruct (modify_page_spec self now (Rediz.pipe st) ndx n (Some v)
              Rediz.default_intent w) as (td & cmds & Hm & Hc).
  rewrite (Hc v eq_refl) in Hm. clear Hc.
  unfold Rediz.existing_body. rewrite bool_decide_eq_true_2 by reflexivity.
  rewrite (bind_ok _ _ _ _ _ Hm). cbn beta iota.
  unfold bind, heap_update, ret. eexists. split; [reflexivity |]. split; [reflexivity |].
  cbn [heap with_heap]. rewrite !lookup_insert_eq. cbn [default from_option id].
  eexists. split; [reflexivity |].
  unfold names_page, intent_fields, dict_update. repeat split.
  - rewrite lookup_union_r by reflexivity. apply lookup_union_Some_l. reflexivity.
  - rewrite lookup_union_r by reflexivity. apply lookup_union_Some_l. reflexivity.
  - rewrite lookup_union_r by reflexivity. apply lookup_union_Some_l. reflexivity.
  - rewrite lookup_union_r by reflexivity. apply lookup_union_Some_l. reflexivity.
  - apply lookup_union_Some_l. reflexivity.
Qed.

Lemma names_page_result (n v : string) (x : pyval) (d : dict) :
  names_page n v d -> names_page n v (dict_update (mkdict [("result", x)]) d).
Proof.
  intros (H1 & H2). unfold names_page, dict_update.
  split; (rewrite lookup_union_r by reflexivity); assumption.
Qed.

(** The third phase on one named input that the ledger has *)
Lemma existing_named_full (h : gmap string string) (ndx : nat) (n v key : string)
    (wk : option string) (w w' : world) (ex : list nat) (rj : list dict) :
  ledger now (redis w) = Some h -> h !! n = Some key ->
  Rediz._pipelined_set_existing self now [ndx] [Some n] [Some v] [wk] w = (Ok (ex, rj), w') ->
  ex = [] \/
  (wk = Some key /\ ex = [Rediz.default_intent] /\
   redis w' = snd (run now (modify_cmds self now (random_keys (rng w)) n v
                              (ttl_seconds (getsizeof (Some v)))) (redis w)) /\
   exists d, heap w' !! Rediz.default_intent = Some d /\ names_page n v d /\
             intent_fields ndx n key d).
Proof.
  intros Hl Hn Hex. unfold Rediz._pipelined_set_existing in Hex.
  pose proof (hmget_ledger now w h [n] ltac:(discriminate) Hl) as Hw.
  cbn [fmap list_fmap] in Hw. rewrite Hn in Hw.
  inv_bind Hex. apply ret_inv in Hex as [[= <- <-] <-].
  inv_bind Hm. rewrite Hw in Hm0. injection Hm0 as <- <-.
  inv_bind Hm. apply ret_inv in Hm0 as [<- <-].
  inv_bind Hm. cbn [zip_with] in Hm0. apply for_each_single in Hm0.
  inv_bind Hm. apply ret_inv in Hm as [<- <-].
  destruct (decide (wk = Some key)) as [-> | Hne].
  - right. split; [reflexivity |].
    destruct (existing_body_accept_fields Rediz.phase_start ndx n v key w)
      as (wb & Hbody & Hrb & Hheap).
    rewrite Hbody in Hm0. injection Hm0 as <- <-.
    unfold Rediz.finish_phase in Hm1. cbn [Rediz.add_executed Rediz.executed Rediz.pipe
      Rediz.phase_start Rediz.rejected app] in Hm1 |- *.
    inv_bind Hm1. apply pipe_execute_inv in Hm as (_ & Hrun & _ & Hwb).
    split; [reflexivity |]. split.
    + rewrite (record_results_redis _ _ _ _ _ Hm1).
      apply (f_equal snd) in Hrun. cbn [snd] in Hrun. rewrite <- Hrun, Hrb. reflexivity.
    + eapply (record_results_keeps (fun d => names_page n v d /\ intent_fields ndx n key d));
        [| exact Hm1 |].
      * intros x d [Hp Hf]. split; [apply names_page_result, Hp | apply intent_fields_result, Hf].
      * rewrite Hwb. cbn [heap with_redis]. exact Hheap.
  - left. unfold Rediz.existing_body in Hm0.
    rewrite bool_decide_eq_false_2 in Hm0 by assumption.
    apply ret_inv in Hm0 as [<- _]. reflexivity.
Qed.
End Outcome.

Lemma hset_ledger (now : Z) (n key : string) (h : gmap string string)
    (d : gmap string entry) :
  ledger now d = Some h ->
  ledger now (snd (exec now (HSET Rediz.OWNERSHIP n key) d)) = Some (<[n := key]> h).
Proof.
  unfold ledger. cbn [exec].
  destruct (live now d Rediz.OWNERSHIP) as [[c ex] |] eqn:El.
  - apply live_not_expired in El as Ex.
    destruct c as [s | h0 | s | es]; try discriminate. intros [= <-]. cbn [snd].
    rewrite live_insert by exact Ex. reflexivity.
  - intros [= <-]. cbn [snd]. rewrite live_insert by reflexivity.
    rewrite insert_empty. reflexivity.
Qed.

Lemma ownership_not_copy (key n : string) :
  is_uuid key = true -> is_valid_name n = true -> Rediz.OWNERSHIP <> key +:+ ":" +:+ n.
Proof.
  intros Hk Hn E. unfold is_uuid in Hk. apply andb_true_iff in Hk as [Hl _].
  apply Nat.eqb_eq in Hl.
  change Rediz.OWNERSHIP with ("09909e88-ca04-4868-a0a0-c94748df844f" +:+ ":::ownership") in E.
  symmetry in E. apply str_app_inv in E as [_ E]; [| exact Hl].
  change (String ":" n = String ":" "::ownership") in E. injection E as ->.
  discriminate Hn.
Qed.

Lemma ownership_modify_frame (self : Rediz.instance) (now : Z) (key n v : string) (ttl : Z)
    (d : gmap string entry) :
  is_uuid key = true -> is_valid_name n = true ->
  snd (run now (modify_cmds self now key n v ttl) d) !! Rediz.OWNERSHIP
  = d !! Rediz.OWNERSHIP.
Proof.
  intros Hk Hn. apply modify_cmds_frame.
  - intros E. symmetry in E. revert E. rewrite <- (str_app_nil_r Rediz.OWNERSHIP).
    apply name_not_reserved; [exact Hn | reflexivity].
  - apply ownership_not_copy; assumption.
  - discriminate.
  - intros e E. symmetry in E. exact (bucket_not_ownership e E).
Qed.

(** X20. A singular [set] of a name that returns gives back the name and
    the write key that owns the name from then on. Either the ledger did
    not have the name, and the key is the caller's or, when the caller gave
    none, the random key the client drew; or the ledger had the name under
    the very key the caller gave. The other entries of the ledger are as
    they were. *)
Theorem set_returns_owner `{PyEnv} (self : Rediz.instance) (now : Z) (w w1 : world)
    (n v : string) (k : option string) (h : gmap string string) out :
  (forall i, is_uuid (random_keys i) = true) ->
  ledger now (redis w) = Some h ->
  Rediz.set self now None None None (Some n) (Some v) k w = (Ok out, w1) ->
  exists key,
    out = Rediz.Single (mkdict [("name", PStr n); ("write_key", PStr key)]) /\
    ledger now (redis w1) = Some (<[n := key]> h) /\
    (h !! n = None /\ key = default (random_keys (rng w)) k \/
     h !! n = Some key /\ k = Some key).
Proof.
  intros Hu Hl Hset.
  unfold Rediz.set, Rediz._coerce_inputs in Hset. cbn [Rediz.or_list map] in Hset.
  apply bind_ok_inv in Hset as (log & w0 & Hlog & Hset).
  apply bind_ok_inv in Hset as (access & w2 & Hacc & Hset).
  pose proof (coerce_outputs_world log w0) as Hcw. rewrite Hacc in Hcw. cbn [snd] in Hcw.
  subst w2.
  destruct access as [| acc0 access]; [discriminate |]. apply ret_inv in Hset as [<- <-].
  apply coerce_outputs_nonempty in Hacc as Hne.
  unfold Rediz._set, Rediz._coerce_inputs in Hlog. cbn [Rediz.or_list length seq] in Hlog.
  apply bind_ok_inv in Hlog as (o1 & w1 & Hobs & Hlog).
  apply obscure_named_inv in Hobs as [-> ->].
  destruct (is_valid_name n) eqn:Hvalid.
  2: { apply bind_ok_inv in Hlog as (o2 & w2 & Hnew & Hlog). apply new_none in Hnew as ->.
       apply bind_ok_inv in Hlog as (o3 & w3 & Hex & Hlog).
       apply existing_none in Hex as [-> ->]. do 3 inv_bind Hlog.
       apply ret_inv in Hlog as [<- _]. contradiction Hne. reflexivity. }
  apply bind_ok_inv in Hlog as (o2 & w2 & Hnew & Hlog).
  apply (new_named_full self now Hu h) in Hnew
    as [([key Hn] & -> & ->) | [[r ->] | (Hn & ckey & Hck & -> & Hr & d & Hd & Hf)]];
    [| | | exact Hl].
  - apply bind_ok_inv in Hlog as ([ex3 rj3] & w3 & Hex & Hlog).
    apply (existing_named_full self now h 0 n v key k w w3 ex3 rj3 Hl Hn) in Hex
      as [-> | (-> & -> & Hr1 & d & Hd & [Hn1 Hn2] & Hf)].
    + do 3 inv_bind Hlog. apply ret_inv in Hlog as [<- _]. contradiction Hne. reflexivity.
    + apply bind_ok_inv in Hlog as (mn & w4 & Hmn & Hlog).
      rewrite (read_items_single _ _ _ _ _ Hd Hn1) in Hmn. injection Hmn as <- <-.
      apply bind_ok_inv in Hlog as (mv & w4 & Hmv & Hlog).
      rewrite (read_items_single _ _ _ _ _ Hd Hn2) in Hmv. injection Hmv as <- <-.
      apply bind_ok_inv in Hlog as (pr & w4 & Hprop & Hlog).
      apply ret_inv in Hlog as [<- <-].
      pose proof (propagate_heap now [PStr n] [PStr v] w3) as Hh.
      rewrite Hprop in Hh. cbn [snd] in Hh.
      apply propagate_fan in Hprop as [l Hfan].
      cbn [app] in Hacc. rewrite <- Hh in Hd.
      rewrite (coerce_single n key d _ _ Hd Hf) in Hacc. injection Hacc as <- <-.
      exists key. split; [reflexivity |]. split; [| right; auto].
      rewrite insert_id by exact Hn. rewrite <- Hl. unfold ledger.
      erewrite live_frame; [reflexivity |]. rewrite Hfan, Hr1.
      rewrite run_frame.
      * apply ownership_modify_frame; [apply Hu | exact Hvalid].
      * apply Forall_forall. intros c Hc.
        apply list_elem_of_In, in_map_iff in Hc as (s & <- & _).
        cbn [writes]. rewrite list_elem_of_singleton. discriminate.
  - apply bind_ok_inv in Hlog as (o3 & w3 & Hex & Hlog).
    apply existing_none in Hex as [-> ->]. do 3 inv_bind Hlog.
    apply ret_inv in Hlog as [<- _]. contradiction Hne. reflexivity.
  - apply bind_ok_inv in Hlog as (o3 & w3 & Hex & Hlog).
    apply existing_none in Hex as [-> ->].
    apply bind_ok_inv in Hlog as (mn & w4 & Hmn & Hlog). cbn in Hmn. injection Hmn as <- <-.
    apply bind_ok_inv in Hlog as (mv & w4 & Hmv & Hlog). cbn in Hmv. injection Hmv as <- <-.
    apply bind_ok_inv in Hlog as (pr & w4 & Hprop & Hlog).
    rewrite propagate_none in Hprop. injection Hprop as _ <-.
    apply ret_inv in Hlog as [<- <-]. cbn [app] in Hacc.
    rewrite (coerce_single n _ d _ _ Hd Hf) in Hacc. injection Hacc as <- <-.
    exists (default (random_keys (rng w)) k). split; [reflexivity |]. split; [| left; auto].
    rewrite Hr. cbn [app]. rewrite run_cons, run_cons. cbn [snd]. unfold ledger at 1.
    erewrite live_frame by (apply ownership_modify_frame; [exact Hck | exact Hvalid]).
    erewrite live_frame
      by (apply exec_frame; cbn [writes]; rewrite list_elem_of_singleton; discriminate).
    apply hset_ledger, Hl.
Qed.

Lemma set_returns_owner_witness :
  (forall i, is_uuid (@random_keys demo_env i) = true) /\
  ledger 1000 (redis Rediz.fresh_world) = Some ∅ /\
  first_write = (Ok (returned (Rediz.Batch []) (fst first_write)), snd first_write) /\
  exists key,
    returned (Rediz.Batch []) (fst first_write)
    = Rediz.Single (mkdict [("name", PStr "a.json"); ("write_key", PStr key)]) /\
    ledger 1000 (redis (snd first_write)) = Some (<["a.json" := key]> ∅) /\
    ((∅ : gmap string string) !! "a.json" = None /\
     key = default (@random_keys demo_env (rng Rediz.fresh_world)) (Some key_a) \/
     (∅ : gmap string string) !! "a.json" = Some key /\ Some key_a = Some key).
Proof.
  assert (Hu : forall i, is_uuid (@random_keys demo_env i) = true) by exact demo_key_uuid.
  assert (Hl : ledger 1000 (redis Rediz.fresh_world) = Some ∅) by reflexivity.
  assert (Hset : first_write = (Ok (returned (Rediz.Batch []) (fst first_write)), snd first_write))
    by (apply returned_pair; vm_compute; tauto).
  split; [exact Hu |]. split; [exact Hl |]. split; [exact Hset |].
  apply (@set_returns_owner demo_env demo 1000 Rediz.fresh_world (snd first_write)
           "a.json" "v1" (Some key_a) ∅ _ Hu Hl Hset).
Defined.

(** ** Writing without a name *)

Lemma no_colon_contains (s : string) : no_colon s = true -> contains "::" s = false.
Proof.
  unfold no_colon. induction s as [| c s IH]; [reflexivity |].
  cbn [all_chars contains]. intros Hc. apply andb_true_iff in Hc as [Hc Hs].
  rewrite (IH Hs), orb_false_r. cbn [String.prefix].
  destruct (ascii_dec ":" c) as [<- | Hne]; [discriminate Hc | reflexivity].
Qed.

Lemma uuid_no_colon (key : string) : is_uuid key = true -> no_colon key = true.
Proof.
  unfold is_uuid. rewrite andb_true_iff. intros [_ Hc]. revert Hc. apply all_chars_impl.
  intros [[] [] [] [] [] [] [] []]; try reflexivity; discriminate.
Qed.

Lemma uuid_stem (key : string) : is_uuid key = true -> all_chars stem_char key = true.
Proof.
  unfold is_uuid. rewrite andb_true_iff. intros [_ Hc]. revert Hc. apply all_chars_impl.
  intros [[] [] [] [] [] [] [] []]; try reflexivity; discriminate.
Qed.

(** The names [random_name] makes are names [is_valid_name] accepts. *)
Lemma random_name_valid (key : string) :
  is_uuid key = true -> is_valid_name (key +:+ ".json") = true.
Proof.
  intros Hu. apply is_valid_name_spec. exists key, "json", EmptyString.
  split; [reflexivity |].
  assert (Hlen : String.length key = uuid_length).
  { unfold is_uuid in Hu. apply andb_true_iff in Hu as [Hl _]. apply Nat.eqb_eq, Hl. }
  split; [rewrite Hlen; unfold uuid_length; lia |].
  split; [apply uuid_stem, Hu |].
  split; [cbn; lia |]. split; [reflexivity |]. split; [left; reflexivity |].
  apply no_colon_contains. unfold no_colon. rewrite all_chars_app, andb_true_iff.
  split; [apply uuid_no_colon, Hu | reflexivity].
Qed.

Section Anonymous.
Context `{PyEnv}.
Variable self : Rediz.instance.
Variable now : Z.
Hypothesis Huuid : forall i, is_uuid (random_keys i) = true.

Lemma new_obscure_page_fields (pipe : list command) (ndx : nat) (n v key : string)
    (w : world) :
  exists w',
    Rediz._new_obscure_page self now pipe ndx (Some n) (Some v) (Some key) w =
    (Ok (pipe ++ [HSET Rediz.OWNERSHIP n key; SADD Rediz.NAMES [n]] ++
         modify_cmds self now (random_keys (rng w)) n v (ttl_seconds (getsizeof (Some v))),
         Rediz.default_intent), w') /\
    redis w' = redis w /\
    exists d, heap w' !! Rediz.default_intent = Some d /\ intent_fields ndx n key d.
Proof.
  destruct (new_page_fields self now pipe ndx n v key w) as (w1 & Hn & Hr & d & Hd & Hf).
  unfold Rediz._new_obscure_page. rewrite (bind_ok _ _ _ _ _ Hn).
  cbn [bind heap_update ret]. eexists. split; [reflexivity |]. split; [exact Hr |].
  cbn [heap with_heap]. rewrite lookup_insert_eq, Hd. cbn [default from_option id].
  eexists. split; [reflexivity |]. destruct Hf as (H1 & H2 & H3).
  unfold intent_fields, dict_update.
  repeat split; (rewrite lookup_union_r by reflexivity); assumption.
Qed.

(** The first phase on one input without a name *)
Lemma obscure_anonymous_full (v : string) (wk : option string) (w w' : world) out :
  Rediz._pipelined_set_obscure self now [0%nat] [None] [Some v] [wk] w = (Ok out, w') ->
  let drawn := match wk with Some _ => rng w | None => S (rng w) end in
  (exists r, out = ([], [r], [], [], [], [])) \/
  (out = ([Rediz.default_intent], [], [], [], [], []) /\
   redis w' = snd (run now ([HSET Rediz.OWNERSHIP (random_keys drawn +:+ ".json")
                                  (default (random_keys (rng w)) wk);
                             SADD Rediz.NAMES [random_keys drawn +:+ ".json"]] ++
                            modify_cmds self now (random_keys (S drawn))
                              (random_keys drawn +:+ ".json") v
                              (ttl_seconds (getsizeof (Some v))))
                     (redis w)) /\
   exists d, heap w' !! Rediz.default_intent = Some d /\
             intent_fields 0 (random_keys drawn +:+ ".json")
                           (default (random_keys (rng w)) wk) d).
Proof.
  intros Hb drawn. unfold Rediz._pipelined_set_obscure in Hb.
  apply bind_ok_inv in Hb as (st & w1 & Hst & Hb). apply ret_inv in Hb as [<- <-].
  apply bind_ok_inv in Hst as (st1 & w2 & Hloop & Hst).
  apply bind_ok_inv in Hst as ([] & w3 & Hfin & Hst). apply ret_inv in Hst as [<- <-].
  cbn [zip_with] in Hloop. apply for_each_single in Hloop.
  unfold Rediz.obscure_body in Hloop.
  destruct (is_valid_value (Some v)); cbn [negb] in Hloop; [| discriminate Hloop].
  apply bind_ok_inv in Hloop as (key' & w4 & Hkey & Hloop).
  assert (Hk : key' = Some (default (random_keys (rng w)) wk) /\ redis w4 = redis w /\
               rng w4 = drawn).
  { subst drawn. destruct wk as [k' |].
    - apply ret_inv in Hkey as [<- <-]. auto.
    - unfold bind, random_key, ret in Hkey. injection Hkey as <- <-. auto. }
  destruct Hk as (-> & Hw4 & Hrng). clear Hkey.
  set (key := default (random_keys (rng w)) wk) in *.
  destruct (is_valid_key (Some key)); cbn [negb] in Hloop.
  2: { left. apply ret_inv in Hloop as [<- <-]. cbn in Hfin.
       eexists. unfold Rediz.residual. cbn. reflexivity. }
  right. unfold random_name, random_key in Hloop. cbn [bind ret] in Hloop.
  rewrite Hrng in Hloop.
  destruct (new_obscure_page_fields (Rediz.pipe Rediz.phase_start) 0
              (random_keys drawn +:+ ".json") v key (with_rng (S drawn) w4))
    as (wp & Hnp & Hrp & Hheap).
  cbn [rng with_rng redis] in Hnp, Hrp.
  rewrite (bind_ok _ _ _ _ _ Hnp) in Hloop. apply ret_inv in Hloop as [<- <-].
  unfold Rediz.finish_phase in Hfin.
  cbn [Rediz.add_executed Rediz.executed Rediz.pipe Rediz.phase_start app] in Hfin.
  apply bind_ok_inv in Hfin as (rs & w5 & Hpipe & Hfin).
  apply pipe_execute_inv in Hpipe as (_ & Hrun & _ & Hwp).
  split; [unfold Rediz.residual; reflexivity |]. split.
  - rewrite (record_results_redis _ _ _ _ _ Hfin).
    apply (f_equal snd) in Hrun. cbn [snd] in Hrun. rewrite <- Hrun, Hrp, Hw4. reflexivity.
  - eapply (record_results_keeps (intent_fields 0 (random_keys drawn +:+ ".json") key));
      [| exact Hfin |].
    + intros x d. apply intent_fields_result.
    + rewrite Hwp. cbn [heap with_redis]. exact Hheap.
Qed.
End Anonymous.

(** X21. A singular [set] without a name that returns has made the name
    up: a random key with [.json] after it. It gives back this name and the
    write key, which is the caller's or, when the caller gave none, another
    random key drawn before; the ledger has the name under that key, whatever
    it had before, and [get] of the name reads the value as long as the cost
    model lets it live. *)
Theorem anonymous_set `{PyEnv} (self : Rediz.instance) (now : Z) (w w1 : world)
    (v : string) (k : option string) (h : gmap string string) out :
  (forall i, is_uuid (random_keys i) = true) ->
  ledger now (redis w) = Some h ->
  Rediz.set self now None None None None (Some v) k w = (Ok out, w1) ->
  let key := default (random_keys (rng w)) k in
  let name := random_keys (match k with Some _ => rng w | None => S (rng w) end) +:+ ".json" in
  out = Rediz.Single (mkdict [("name", PStr name); ("write_key", PStr key)]) /\
  ledger now (redis w1) = Some (<[name := key]> h) /\
  forall t, t < now + ttl_seconds (getsizeof (Some v)) ->
    Rediz.get t (Some name) None w1 = (Ok (PStr v), w1).
Proof.
  intros Hu Hl Hset key name.
  unfold Rediz.set, Rediz._coerce_inputs in Hset. cbn [Rediz.or_list map] in Hset.
  apply bind_ok_inv in Hset as (log & w0 & Hlog & Hset).
  apply bind_ok_inv in Hset as (access & w2 & Hacc & Hset).
  pose proof (coerce_outputs_world log w0) as Hcw. rewrite Hacc in Hcw. cbn [snd] in Hcw.
  subst w2.
  destruct access as [| acc0 access]; [discriminate |]. apply ret_inv in Hset as [<- <-].
  apply coerce_outputs_nonempty in Hacc as Hne.
  unfold Rediz._set, Rediz._coerce_inputs in Hlog. cbn [Rediz.or_list length seq] in Hlog.
  apply bind_ok_inv in Hlog as (o1 & w1 & Hobs & Hlog).
  apply (obscure_anonymous_full self now) in Hobs
    as [[r ->] | (-> & Hr & d & Hd & Hf)].
  { apply bind_ok_inv in Hlog as (o2 & w2 & Hnew & Hlog). apply new_none in Hnew as ->.
    apply bind_ok_inv in Hlog as (o3 & w3 & Hex & Hlog).
    apply existing_none in Hex as [-> ->]. do 3 inv_bind Hlog.
    apply ret_inv in Hlog as [<- _]. contradiction Hne. reflexivity. }
  fold key name in Hr, Hf.
  apply bind_ok_inv in Hlog as (o2 & w2 & Hnew & Hlog).
  assert (Hw2 : w2 = w1).
  { unfold Rediz._pipelined_set_new in Hnew. cbn in Hnew.
    apply ret_inv in Hnew as [_ E]. symmetry. exact E. }
  apply new_none in Hnew as ->. subst w2.
  apply bind_ok_inv in Hlog as (o3 & w3 & Hex & Hlog).
  apply existing_none in Hex as [-> ->].
  apply bind_ok_inv in Hlog as (mn & w4 & Hmn & Hlog). cbn in Hmn. injection Hmn as <- <-.
  apply bind_ok_inv in Hlog as (mv & w4 & Hmv & Hlog). cbn in Hmv. injection Hmv as <- <-.
  apply bind_ok_inv in Hlog as (pr & w4 & Hprop & Hlog).
  rewrite propagate_none in Hprop. injection Hprop as _ <-.
  apply ret_inv in Hlog as [<- <-]. cbn [app] in Hacc.
  rewrite (coerce_single name key d _ _ Hd Hf) in Hacc. injection Hacc as <- <-.
  split; [reflexivity |].
  assert (Hvalid : is_valid_name name = true) by (apply random_name_valid, Hu).
  split.
  - rewrite Hr. cbn [app]. rewrite run_cons, run_cons. cbn [snd]. unfold ledger at 1.
    erewrite live_frame by (apply ownership_modify_frame; [apply Hu | exact Hvalid]).
    erewrite live_frame
      by (apply exec_frame; cbn [writes]; rewrite list_elem_of_singleton; discriminate).
    apply hset_ledger, Hl.
  - intros t Ht.
    assert (Hpw : page_written self now name v (redis w) (redis w1)).
    { eexists _, [HSET Rediz.OWNERSHIP name key; SADD Rediz.NAMES [name]], [].
      split; [apply Hu |]. split.
      - constructor; [| constructor; [| constructor]]; intros k0 Hk0; cbn [writes] in Hk0;
          apply list_elem_of_singleton in Hk0; auto.
      - split; [constructor |]. cbn [run snd]. rewrite Hr, run_app. reflexivity. }
    rewrite (get_entry t name v _ w1 (written_page self now name v _ _ Hpw Hvalid)).
    cbn [expired expire_at]. rewrite (proj2 (Z.leb_gt _ _)) by lia. reflexivity.
Qed.

Lemma anonymous_set_witness :
  (forall i, is_uuid (@random_keys demo_env i) = true) /\
  ledger 1000 (redis Rediz.fresh_world) = Some ∅ /\
  anonymous_write = (Ok (returned (Rediz.Batch []) (fst anonymous_write)), snd anonymous_write) /\
  let key := default (@random_keys demo_env (rng Rediz.fresh_world)) None in
  let name := @random_keys demo_env (S (rng Rediz.fresh_world)) +:+ ".json" in
  returned (Rediz.Batch []) (fst anonymous_write)
  = Rediz.Single (mkdict [("name", PStr name); ("write_key", PStr key)]) /\
  ledger 1000 (redis (snd anonymous_write)) = Some (<[name := key]> ∅) /\
  forall t, t < 1000 + ttl_seconds (@getsizeof demo_env (Some "v1")) ->
    Rediz.get t (Some name) None (snd anonymous_write) = (Ok (PStr "v1"), snd anonymous_write).
Proof.
  assert (Hu : forall i, is_uuid (@random_keys demo_env i) = true) by exact demo_key_uuid.
  assert (Hl : ledger 1000 (redis Rediz.fresh_world) = Some ∅) by reflexivity.
  assert (Hset : anonymous_write
                 = (Ok (returned (Rediz.Batch []) (fst anonymous_write)), snd anonymous_write))
    by (apply returned_pair; vm_compute; tauto).
  split; [exact Hu |]. split; [exact Hl |]. split; [exact Hset |].
  apply (@anonymous_set demo_env demo 1000 Rediz.fresh_world (snd anonymous_write)
           "v1" None ∅ _ Hu Hl Hset).
Defined.
